(** * mysword_to_epub: a shallow embedding of [src/mysword_to_epub.py]

    The development follows the Python module top-down:

    - Python [str] values are [string]s, one [ascii] per character, so the
      text model covers the characters U+0000 .. U+00FF.  The character
      classes of the [re] module are the ones Python uses for [str]
      patterns, cut down to that range.  The few glyphs of the page
      templates that lie outside the range are carried as their UTF-8
      bytes; the program only ever concatenates them.
    - Python [int] values are [Z]; [str(n)] is the decimal printer of the
      Standard Library.
    - [dict]s are [gmap]s; [sorted(d.keys())] is a merge sort of the keys.
    - An exception raised inside [create_epub] is [None] in the option
      monad: the [except Exception] handler logs it and calls
      [sys.exit(1)], so no package is produced.  The exceptions are the
      ones of the run itself ([sorted(..)[0]] on a book without chapters,
      a missing key) and the ones of the archive: opening the file at
      [output_path], writing a member and closing the archive can each
      fail, and what the file system answers is a parameter of the
      model.
    - The input maps hold what the queries give on a database of the
      MySword layout: integer ids, names that are [str], and verse texts
      that are [str] or [None]. *)

From Stdlib Require Import ZArith Ascii DecimalString DecimalZ DecimalFacts.
From stdpp Require Import base option list sorting gmap strings.

Local Open Scope Z_scope.
#[local] Set Warnings "-clear-no-such-hyp".

(** ** Characters and the character classes of [re] *)

Module Chr.

Definition code (c : ascii) : nat := nat_of_ascii c.

(** [\d] on a [str] pattern: the decimal digits. *)
Definition is_digit (c : ascii) : bool :=
  ((48 <=? code c) && (code c <=? 57))%nat.

(** [\s] on a [str] pattern, which is also the set [str.strip()] removes:
    TAB LF VT FF CR, FS GS RS US, SPACE, NEL and NBSP. *)
Definition is_space (c : ascii) : bool :=
  (((9 <=? code c) && (code c <=? 13))
   || ((28 <=? code c) && (code c <=? 32))
   || (code c =? 133) || (code c =? 160))%nat.

(** Case folding used by [re.IGNORECASE] on the letters the patterns
    contain (F, I, R, U): only the ASCII letters fold. *)
Definition lower (c : ascii) : ascii :=
  if ((65 <=? code c) && (code c <=? 90))%nat
  then ascii_of_nat (code c + 32) else c.

(** One pattern character [p] against one text character [c]. *)
Definition matches (ignorecase : bool) (p c : ascii) : bool :=
  if ignorecase then bool_decide (lower p = lower c)
  else bool_decide (p = c).

Definition newline : ascii := "010"%char.
Definition dquote : ascii := "034"%char.

End Chr.

(** ** String helpers *)

Module Str.

Fixpoint has (c : ascii) (s : string) : bool :=
  match s with
  | EmptyString => false
  | String a s' => bool_decide (a = c) || has c s'
  end.

Fixpoint all (p : ascii → bool) (s : string) : bool :=
  match s with
  | EmptyString => true
  | String a s' => p a && all p s'
  end.

Fixpoint concat (l : list string) : string :=
  match l with
  | [] => EmptyString
  | s :: l' => s +:+ concat l'
  end.

(** [text.replace(c, r)] for a one-character [c]. *)
Fixpoint replace_char (c : ascii) (r : string) (s : string) : string :=
  match s with
  | EmptyString => EmptyString
  | String a s' =>
      (if bool_decide (a = c) then r else String a EmptyString)
        +:+ replace_char c r s'
  end.

(** [s.startswith(p)], giving the rest of [s]; with [ignorecase] the
    comparison is the one of [re.IGNORECASE]. *)
Fixpoint strip_prefix (ignorecase : bool) (p s : string) : option string :=
  match p with
  | EmptyString => Some s
  | String a p' =>
      match s with
      | EmptyString => None
      | String b s' =>
          if Chr.matches ignorecase a b
          then strip_prefix ignorecase p' s' else None
      end
  end.

(** The longest prefix of characters in class [p], and the rest. *)
Fixpoint span (p : ascii → bool) (s : string) : string * string :=
  match s with
  | EmptyString => (EmptyString, EmptyString)
  | String a s' =>
      if p a then let '(l, r) := span p s' in (String a l, r)
      else (EmptyString, s)
  end.

(** [s.lstrip()], [s.rstrip()] and [s.strip()]. *)
Fixpoint lstrip (s : string) : string :=
  match s with
  | EmptyString => EmptyString
  | String a s' => if Chr.is_space a then lstrip s' else s
  end.

Fixpoint rstrip (s : string) : string :=
  match s with
  | EmptyString => EmptyString
  | String a s' =>
      match rstrip s' with
      | EmptyString => if Chr.is_space a then EmptyString
                       else String a EmptyString
      | r => String a r
      end
  end.

Definition strip (s : string) : string := rstrip (lstrip s).

(** [n in s] for strings: [n] occurs in [s] as a substring. *)
Fixpoint infix (n s : string) : bool :=
  match strip_prefix false n s with
  | Some _ => true
  | None => match s with
            | EmptyString => false
            | String _ s' => infix n s'
            end
  end.

(** [str(n)] for an [int]. *)
Definition of_Z (n : Z) : string := NilZero.string_of_int (Z.to_int n).

(** A double-quoted attribute value. *)
Definition q (s : string) : string :=
  String Chr.dquote s +:+ String Chr.dquote EmptyString.

End Str.

(** ** [re.sub]

    A pattern is embedded as its matcher: the function that, given the text
    from the current position on, says whether the pattern matches there
    and if so returns the replacement text and the number of characters the
    match covers.  Every pattern of the program matches at least one
    character.  [re.sub] tries the pattern at each position from left to
    right; a match is replaced and the scan resumes after it, a character
    at which the pattern does not match is copied. *)

Module Re.

Definition matcher : Type := string → option (string * nat).

(** [skip] counts the characters still covered by the last match. *)
Fixpoint sub_from (m : matcher) (skip : nat) (text : string) : string :=
  match text with
  | EmptyString => EmptyString
  | String c text' =>
      match skip with
      | S k => sub_from m k text'
      | O =>
          match m text with
          | Some (repl, n) => repl +:+ sub_from m (Nat.pred n) text'
          | None => String c (sub_from m 0 text')
          end
      end
  end.

Definition sub (m : matcher) (text : string) : string := sub_from m 0 text.

(** A literal pattern such as [<CM>], replaced by [repl]. *)
Definition literal (lit repl : string) : matcher := λ s,
  match Str.strip_prefix false lit s with
  | Some _ => Some (repl, String.length lit)
  | None => None
  end.

(** [(.*?)close]: the shortest run of characters other than newline that
    is followed by [close].  Gives the run and the length of run plus
    [close]. *)
Fixpoint lazy_until (ignorecase : bool) (close : string) (s : string)
  : option (string * nat) :=
  match Str.strip_prefix ignorecase close s with
  | Some _ => Some (EmptyString, String.length close)
  | None =>
      match s with
      | EmptyString => None
      | String c s' =>
          if bool_decide (c = Chr.newline) then None
          else match lazy_until ignorecase close s' with
               | Some (inner, n) => Some (String c inner, S n)
               | None => None
               end
      end
  end.

(** [open(.*?)close], replaced by [\1] when [keep] and by nothing
    otherwise. *)
Definition paired (ignorecase : bool) (open close : string) (keep : bool)
  : matcher := λ s,
  match Str.strip_prefix ignorecase open s with
  | None => None
  | Some r =>
      match lazy_until ignorecase close r with
      | None => None
      | Some (inner, n) =>
          Some (if keep then inner else EmptyString,
                (String.length open + n)%nat)
      end
  end.

(** [<XX\d+>], replaced by nothing.  The greedy [\d+] takes the whole
    digit run; giving a digit back never helps, because [>] would then
    face a digit. *)
Definition numbered (pre : string) : matcher := λ s,
  match Str.strip_prefix false pre s with
  | None => None
  | Some r =>
      match Str.span Chr.is_digit r with
      | (String d ds, String c _) =>
          if bool_decide (c = ">"%char)
          then Some (EmptyString,
                     (String.length pre + String.length (String d ds) + 1)%nat)
          else None
      | _ => None
      end
  end.

(** [<XX\d>], replaced by nothing. *)
Definition one_digit (pre : string) : matcher := λ s,
  match Str.strip_prefix false pre s with
  | Some (String d (String c _)) =>
      if Chr.is_digit d && bool_decide (c = ">"%char)
      then Some (EmptyString, (String.length pre + 2)%nat) else None
  | _ => None
  end.

(** [<[^>]*>], replaced by nothing. *)
Definition any_tag : matcher := λ s,
  match s with
  | String "<"%char r =>
      match Str.span (λ c, negb (bool_decide (c = ">"%char))) r with
      | (body, String _ _) => Some (EmptyString, (String.length body + 2)%nat)
      | _ => None
      end
  | _ => None
  end.

(** [\s+], replaced by [repl]. *)
Definition spaces (repl : string) : matcher := λ s,
  match Str.span Chr.is_space s with
  | (String c cs, _) => Some (repl, String.length (String c cs))
  | _ => None
  end.

(** [>\s+<], replaced by [><]. *)
Definition gap : matcher := λ s,
  match s with
  | String ">"%char r =>
      match Str.span Chr.is_space r with
      | (String c cs, String "<"%char _) =>
          Some ("><", (String.length (String c cs) + 2)%nat)
      | _ => None
      end
  | _ => None
  end.

End Re.

(** ** The text functions of the module *)

(** [minify], lines 384-385. *)
Definition minify (xml_or_html : string) : string :=
  Str.strip (Re.sub Re.gap xml_or_html).

(** The body of [strip_mysword_tags] after the guard, lines 411-440. *)
Definition strip_pipeline (text : string) : string :=
  let text := Re.sub (Re.literal "<CM>" EmptyString) text in
  let text := Re.sub (Re.paired true "<FI>" "<Fi>" true) text in
  let text := Re.sub (Re.paired true "<FR>" "<Fr>" true) text in
  let text := Re.sub (Re.paired true "<FU>" "<Fu>" true) text in
  let text := Re.sub (Re.paired true "<RF>" "<Rf>" false) text in
  let text := Re.sub (Re.paired false "<TS>" "</TS>" true) text in
  let text := Re.sub (Re.paired false "<Q>" "</Q>" true) text in
  let text := Re.sub (Re.paired false "<E>" "</E>" true) text in
  let text := Re.sub (Re.paired false "<X>" "</X>" true) text in
  let text := Re.sub (Re.numbered "<WG") text in
  let text := Re.sub (Re.numbered "<WH") text in
  let text := Re.sub (Re.numbered "<WT") text in
  let text := Re.sub (Re.numbered "<RX") text in
  let text := Re.sub (Re.one_digit "<PF") text in
  let text := Re.sub (Re.one_digit "<PI") text in
  let text := Re.sub Re.any_tag text in
  Str.strip (Re.sub (Re.spaces " ") text).

(** [strip_mysword_tags], lines 387-440, on a [str] argument, as its
    annotation and its one call site have it.  [if not text: return text]
    hands the empty string back. *)
Definition strip_mysword_tags (text : string) : string :=
  match text with
  | EmptyString => text
  | _ => strip_pipeline text
  end.

(** The same function called with a value that may be [None]: Python does
    not enforce the annotation, and [not None] holds, so the guard returns
    the argument itself. *)
Definition strip_mysword_tags_dyn (text : option string) : option string :=
  match text with
  | None => text
  | Some s => Some (strip_mysword_tags s)
  end.

(** [book_title_formatter], lines 443-448:
    [re.sub(r'^(\d+)(?=[^\d\.\s])', r'\1. ', s)].  [^] anchors the pattern
    at the start of the string, so there is at most one match.  [\d+] takes
    the whole leading digit run; the look-ahead then needs one more
    character outside the class (a shorter run would face a digit). *)
Definition book_title_formatter (s : string) : string :=
  match Str.span Chr.is_digit s with
  | (String d ds, String c rest) =>
      if negb (Chr.is_digit c || bool_decide (c = "."%char) || Chr.is_space c)
      then String d ds +:+ ". " +:+ String c rest
      else s
  | _ => s
  end.

(** ** Input data *)

(** A verse coordinate [(book, chapter, verse)]. *)
Abbreviation coord := (Z * Z * Z)%type.
(** [books]: book id to name. *)
Abbreviation books_t := (gmap Z string).
(** One book of [verses]: chapter to the list of [(verse, text)] rows, the
    text being [None] for an SQL NULL. *)
Abbreviation chapters_t := (gmap Z (list (Z * option string))).
Abbreviation verses_t := (gmap Z (gmap Z (list (Z * option string)))).
(** [xrefs_from] and [xrefs_to]; the parameters default to [None]. *)
Abbreviation xrefs_t := (gmap (Z * Z * Z) (list (Z * Z * Z))).

(** [sorted(d.keys())] for integer keys. *)
Definition sorted_keys {V} (d : gmap Z V) : list Z :=
  merge_sort Z.le (map_to_list d).*1.

(** [fetch_verses], lines 89-97, on the rows the query returns:
    [verses.setdefault(book, {}).setdefault(chap, []).append((verse, text))]
    for each row. *)
Definition fetch_verses_row (verses : verses_t)
    (row : Z * Z * Z * option string) : verses_t :=
  let '(book, chap, verse, text) := row in
  let chapters : chapters_t := default ∅ (verses !! book) in
  let rows := default [] (chapters !! chap) in
  <[book := <[chap := rows ++ [(verse, text)]]> chapters]> verses.

Definition fetch_verses (rows : list (Z * Z * Z * option string)) : verses_t :=
  foldl fetch_verses_row ∅ rows.

(** Python compares tuples lexicographically. *)
Definition coord_leb (a b : coord) : bool :=
  let '(b1, c1, v1) := a in
  let '(b2, c2, v2) := b in
  (b1 <? b2) || ((b1 =? b2) && ((c1 <? c2) || ((c1 =? c2) && (v1 <=? v2)))).

Definition coord_le (a b : coord) : Prop := coord_leb a b = true.

Global Instance coord_le_dec : RelDecision coord_le.
Proof. intros a b. unfold coord_le. apply _. Defined.

(** Truth value of a book name looked up with [books.get(bid)]: [None] and
    the empty string are false. *)
Definition name_truthy (name : option string) : bool :=
  match name with
  | Some (String _ _) => true
  | _ => false
  end.

(** Truth value of a cross-reference map: [None] and [{}] are false. *)
Definition xrefs_truthy (x : option xrefs_t) : bool :=
  match x with
  | Some m => negb (bool_decide (m = ∅))
  | None => false
  end.

(** [x and key in x]. *)
Definition xrefs_has (x : option xrefs_t) (key : coord) : bool :=
  xrefs_truthy x &&
  match x with
  | Some m => bool_decide (is_Some (m !! key))
  | None => false
  end.

(** [x[key]], evaluated under the guard [xrefs_has x key]. *)
Definition xrefs_get (x : option xrefs_t) (key : coord) : list coord :=
  default [] (x ≫= (.!! key)).

(** ** Page fragments *)

Definition nl : string := String Chr.newline EmptyString.

(** [f'b{book_id}c{chap}.html'] *)
Definition chapter_fname (book_id chap : Z) : string :=
  "b" +:+ Str.of_Z book_id +:+ "c" +:+ Str.of_Z chap +:+ ".html".

(** [f'{book_id}-{chap}'] *)
Definition chapter_item_id (book_id chap : Z) : string :=
  Str.of_Z book_id +:+ "-" +:+ Str.of_Z chap.

(** [generate_verse_indicators], lines 139-157. *)
Definition generate_verse_indicators (book_id chapter verse : Z)
    (xrefs_from xrefs_to : option xrefs_t) : string :=
  if negb (xrefs_truthy xrefs_from) && negb (xrefs_truthy xrefs_to)
  then EmptyString
  else
    let verse_key := (book_id, chapter, verse) in
    let has_from := xrefs_has xrefs_from verse_key in
    let has_to := xrefs_has xrefs_to verse_key in
    if has_from && has_to then
      "<a href=" +:+ Str.q ("x.html#x" +:+ Str.of_Z book_id +:+ "-"
        +:+ Str.of_Z chapter +:+ "-" +:+ Str.of_Z verse)
      +:+ " class=" +:+ Str.q "x" +:+ ">⊗</a>"
    else if has_from then
      "<a href=" +:+ Str.q ("x.html#x" +:+ Str.of_Z book_id +:+ "-"
        +:+ Str.of_Z chapter +:+ "-" +:+ Str.of_Z verse)
      +:+ " class=" +:+ Str.q "x" +:+ ">⊗</a>"
    else if has_to then
      "<a href=" +:+ Str.q ("x.html#x" +:+ Str.of_Z book_id +:+ "-"
        +:+ Str.of_Z chapter +:+ "-" +:+ Str.of_Z verse)
      +:+ " class=" +:+ Str.q "x" +:+ ">⊗</a>"
    else EmptyString.

(** [books.get(book_id, f"Book {book_id}")] followed by
    [book_title_formatter], lines 182-183, 193-194 and 203-204. *)
Definition xref_book_name (books : books_t) (book_id : Z) : string :=
  book_title_formatter (default ("Book " +:+ Str.of_Z book_id) (books !! book_id)).

(** The anchor of a coordinate on the cross-reference page:
    [f'x{book_id}-{chapter}-{verse}'], line 185. *)
Definition xref_anchor (key : coord) : string :=
  let '(book_id, chapter, verse) := key in
  "x" +:+ Str.of_Z book_id +:+ "-" +:+ Str.of_Z chapter +:+ "-"
  +:+ Str.of_Z verse.

(** The heading of one coordinate on the cross-reference page, line 185. *)
Definition xref_heading (books : books_t) (key : coord) : string :=
  let '(book_id, chapter, verse) := key in
  "<h2 id=" +:+ Str.q (xref_anchor key)
  +:+ "><a href=" +:+ Str.q (chapter_fname book_id chapter +:+ "#" +:+ Str.of_Z verse)
  +:+ ">↩</a> " +:+ xref_book_name books book_id +:+ " " +:+ Str.of_Z chapter
  +:+ ":" +:+ Str.of_Z verse +:+ " <a href=" +:+ Str.q "i.html#b" +:+ ">⇑</a></h2>".

(** One list item, lines 195 and 205. *)
Definition xref_item (books : books_t) (target : coord) : string :=
  let '(to_book, to_chap, to_verse) := target in
  "<li><a href=" +:+ Str.q (chapter_fname to_book to_chap +:+ "#" +:+ Str.of_Z to_verse)
  +:+ ">" +:+ xref_book_name books to_book +:+ " " +:+ Str.of_Z to_chap
  +:+ ":" +:+ Str.of_Z to_verse +:+ "</a></li>".

(** What the loop body of lines 181-206 appends to [content] for one
    coordinate. *)
Definition xref_entry (books : books_t) (xrefs_from xrefs_to : option xrefs_t)
    (verse_key : coord) : list string :=
  [xref_heading books verse_key]
  ++ (if xrefs_has xrefs_from verse_key
      then ["<h4>From</h4>"; "<ul>"]
           ++ (xref_item books <$> xrefs_get xrefs_from verse_key)
           ++ ["</ul>"]
      else [])
  ++ (if xrefs_has xrefs_to verse_key
      then ["<h3>To</h3>"; "<ul>"]
           ++ (xref_item books <$> xrefs_get xrefs_to verse_key)
           ++ ["</ul>"]
      else []).

(** [all_xref_verses], lines 166-170. *)
Definition all_xref_verses (xrefs_from xrefs_to : option xrefs_t) : gset coord :=
  (if xrefs_truthy xrefs_from then dom (default ∅ xrefs_from) else ∅)
  ∪ (if xrefs_truthy xrefs_to then dom (default ∅ xrefs_to) else ∅).

(** [sorted_verses], line 176. *)
Definition sorted_verses (xrefs_from xrefs_to : option xrefs_t) : list coord :=
  merge_sort coord_le (elements (all_xref_verses xrefs_from xrefs_to)).

(** The list [content] at line 209. *)
Definition xref_content (books : books_t) (xrefs_from xrefs_to : option xrefs_t)
    : list string :=
  ["<html><head><title>X</title><link rel=" +:+ Str.q "stylesheet"
   +:+ " href=" +:+ Str.q "styles.css" +:+ "/></head><body><h1 id="
   +:+ Str.q "c" +:+ ">X</h1>"]
  ++ (sorted_verses xrefs_from xrefs_to ≫= xref_entry books xrefs_from xrefs_to)
  ++ ["</body></html>"].

(** [generate_cross_reference_section], lines 160-209; the result [None]
    is Python's [None]. *)
Definition generate_cross_reference_section (books : books_t)
    (xrefs_from xrefs_to : option xrefs_t) : option string :=
  if negb (xrefs_truthy xrefs_from) && negb (xrefs_truthy xrefs_to) then None
  else if bool_decide (all_xref_verses xrefs_from xrefs_to = ∅) then None
  else Some (Str.concat (xref_content books xrefs_from xrefs_to)).

(** ** Templates, lines 21-66 *)

Definition CONTAINER_XML : string :=
  "<?xml version=" +:+ Str.q "1.0" +:+ "?>" +:+ nl
  +:+ "<container version=" +:+ Str.q "1.0" +:+ " xmlns="
  +:+ Str.q "urn:oasis:names:tc:opendocument:xmlns:container" +:+ ">" +:+ nl
  +:+ "<rootfiles><rootfile full-path=" +:+ Str.q "OEBPS/content.opf"
  +:+ " media-type=" +:+ Str.q "application/oebps-package+xml"
  +:+ "/></rootfiles>" +:+ nl
  +:+ "</container>".

(** [CONTENT_OPF_TEMPLATE.format(title=.., uuid=.., manifest_items=..,
    spine_items=..)] *)
Definition CONTENT_OPF (title uuid manifest_items spine_items : string) : string :=
  "<?xml version=" +:+ Str.q "1.0" +:+ "?>" +:+ nl
  +:+ "<package version=" +:+ Str.q "2.0" +:+ " unique-identifier="
  +:+ Str.q "BookId" +:+ " xmlns=" +:+ Str.q "http://www.idpf.org/2007/opf"
  +:+ ">" +:+ nl
  +:+ "<metadata xmlns:dc=" +:+ Str.q "http://purl.org/dc/elements/1.1/"
  +:+ ">" +:+ nl
  +:+ "<dc:title>" +:+ title +:+ "</dc:title>" +:+ nl
  +:+ "<dc:language>en</dc:language>" +:+ nl
  +:+ "<dc:identifier id=" +:+ Str.q "BookId" +:+ ">" +:+ uuid
  +:+ "</dc:identifier>" +:+ nl
  +:+ "</metadata>" +:+ nl
  +:+ "<manifest>" +:+ nl
  +:+ "<item id=" +:+ Str.q "ncx" +:+ " href=" +:+ Str.q "toc.ncx"
  +:+ " media-type=" +:+ Str.q "application/x-dtbncx+xml" +:+ "/>" +:+ nl
  +:+ "<item id=" +:+ Str.q "css" +:+ " href=" +:+ Str.q "styles.css"
  +:+ " media-type=" +:+ Str.q "text/css" +:+ "/>" +:+ nl
  +:+ manifest_items +:+ nl
  +:+ "</manifest>" +:+ nl
  +:+ "<spine toc=" +:+ Str.q "ncx" +:+ ">" +:+ nl
  +:+ spine_items +:+ nl
  +:+ "</spine>" +:+ nl
  +:+ "</package>".

(** The ids of the two manifest items the template itself declares. *)
Definition template_item_ids : list string := ["ncx"; "css"].

(** [TOC_NCX_TEMPLATE_HEAD.format(title=.., uuid=..)] *)
Definition TOC_NCX_HEAD (title uuid : string) : string :=
  "<?xml version=" +:+ Str.q "1.0" +:+ "?>" +:+ nl
  +:+ "<ncx xmlns=" +:+ Str.q "http://www.daisy.org/z3986/2005/ncx/"
  +:+ " version=" +:+ Str.q "2005-1" +:+ ">" +:+ nl
  +:+ "<head><meta name=" +:+ Str.q "dtb:uid" +:+ " content=" +:+ Str.q uuid
  +:+ "/></head>" +:+ nl
  +:+ "<docTitle><text>" +:+ title +:+ "</text></docTitle>" +:+ nl
  +:+ "<navMap>".

Definition TOC_NCX_TEMPLATE_TAIL : string := "</navMap>" +:+ nl +:+ "</ncx>".

Definition CHAPTER_TEMPLATE_FOOT : string :=
  nl +:+ "</body>" +:+ nl +:+ "</html>".

Definition GLOBAL_CSS : string :=
  nl
  +:+ ".c a{display:inline-block;padding:.1em;font-weight:bold;margin:.1em;border:1px solid #888;min-width:2em;text-align:center;text-decoration:none}" +:+ nl
  +:+ ".c{margin-bottom:1em}" +:+ nl
  +:+ ".b{width:100%;border-collapse:collapse;margin-bottom:1em}" +:+ nl
  +:+ ".b td{border:1px solid #888;margin:0;padding:0;text-align:center;width:25%}" +:+ nl
  +:+ ".b a{display:block;text-decoration:none;font-weight:bold;font-family:Arial;font-size:.8em;text-transform:uppercase;margin:0;padding:4px 0}" +:+ nl
  +:+ "#books{margin:0 0 0 5px;font-size:.7em}" +:+ nl
  +:+ ".x{font-size:.9em;color:#cfcfcf;text-decoration:none;font-weight:bold;padding:0 2px;margin:0 1px;background-color:#f0f8ff;border-radius:2px}" +:+ nl
  +:+ ".x:hover{color:#0044aa;text-decoration:underline;background-color:#e6f3ff}" +:+ nl.

(** ** Package descriptors

    The program keeps [manifest_items], [spine_items] and [toc_nav] as
    lists of markup strings.  Each string is an instance of one fixed
    template, so the lists are kept here as records of the values put into
    the template, together with the function that prints them. *)

(** [<item id="{item_id}" href="{fname}" media-type="application/xhtml+xml"/>] *)
Record manifest_item := ManifestItem {
  item_id : string;
  item_href : string
}.

Definition render_item (i : manifest_item) : string :=
  "<item id=" +:+ Str.q (item_id i) +:+ " href=" +:+ Str.q (item_href i)
  +:+ " media-type=" +:+ Str.q "application/xhtml+xml" +:+ "/>".

(** [<itemref idref="{item_id}"/>] *)
Definition render_itemref (idref : string) : string :=
  "<itemref idref=" +:+ Str.q idref +:+ "/>".

(** [<navPoint id=.. playOrder=..><navLabel><text>..</text></navLabel>
    <content src=../>], left open for a book or a chapter and closed at
    once for a verse and for the cross-reference node. *)
Record nav_point := NavPoint {
  nav_id : string;
  nav_play_order : Z;
  nav_label : string;
  nav_src : string;
  nav_closed : bool
}.

(** An element of [toc_nav]: a node, or the ['</navPoint>'] that closes a
    book or a chapter. *)
Inductive nav_entry :=
| Nav (p : nav_point)
| NavEnd.

Definition render_nav (e : nav_entry) : string :=
  match e with
  | Nav p =>
      "<navPoint id=" +:+ Str.q (nav_id p) +:+ " playOrder="
      +:+ Str.q (Str.of_Z (nav_play_order p)) +:+ "><navLabel><text>"
      +:+ nav_label p +:+ "</text></navLabel><content src="
      +:+ Str.q (nav_src p) +:+ "/>"
      +:+ (if nav_closed p then "</navPoint>" else EmptyString)
  | NavEnd => "</navPoint>"
  end.

(** The nodes of the navigation tree in document order. *)
Definition nav_points (toc_nav : list nav_entry) : list nav_point :=
  toc_nav ≫= λ e, match e with Nav p => [p] | NavEnd => [] end.

(** ** [create_epub], lines 212-317 *)

(** The mutable locals of [create_epub]: the archive (the calls of
    [epub.writestr], oldest first, as pairs of member name and content),
    the three descriptor lists and the [play_order] counter. *)
Record state := State {
  epub : list (string * string);
  manifest_items : list manifest_item;
  spine_items : list string;
  toc_nav : list nav_entry;
  play_order : Z
}.

(** [epub.writestr(name, content)] *)
Definition writestr (name content : string) (st : state) : state :=
  State (epub st ++ [(name, content)]) (manifest_items st) (spine_items st)
        (toc_nav st) (play_order st).

(** [manifest_items.append(..)] *)
Definition manifest_append (i : manifest_item) (st : state) : state :=
  State (epub st) (manifest_items st ++ [i]) (spine_items st)
        (toc_nav st) (play_order st).

(** [spine_items.append(..)] *)
Definition spine_append (idref : string) (st : state) : state :=
  State (epub st) (manifest_items st) (spine_items st ++ [idref])
        (toc_nav st) (play_order st).

(** [toc_nav.append(..)] *)
Definition toc_append (e : nav_entry) (st : state) : state :=
  State (epub st) (manifest_items st) (spine_items st)
        (toc_nav st ++ [e]) (play_order st).

(** [play_order += 1] *)
Definition play_order_incr (st : state) : state :=
  State (epub st) (manifest_items st) (spine_items st)
        (toc_nav st) (play_order st + 1).

(** A [for] loop whose body may raise. *)
Fixpoint for_each {A S} (body : A → S → option S) (l : list A) (st : S)
  : option S :=
  match l with
  | [] => Some st
  | x :: l' => st' ← body x st; for_each body l' st'
  end.

(** [book_list], lines 221-224, over the book ids still to visit.
    [sorted(..)[0]] raises on a book without chapters. *)
Fixpoint book_list_from (books : books_t) (verses : verses_t) (bids : list Z)
  : option (list (Z * Z * string)) :=
  match bids with
  | [] => Some []
  | bid :: bids' =>
      if name_truthy (books !! bid) then
        chapters ← verses !! bid;
        first ← head (sorted_keys chapters);
        name ← books !! bid;
        rest ← book_list_from books verses bids';
        Some ((bid, first, name) :: rest)
      else book_list_from books verses bids'
  end.

Definition book_list (books : books_t) (verses : verses_t)
  : option (list (Z * Z * string)) :=
  book_list_from books verses (sorted_keys verses).

(** One cell of the index table, line 230. *)
Definition index_cell (entry : Z * Z * string) : string :=
  let '(bid, first, name) := entry in
  "<td><a href=" +:+ Str.q (chapter_fname bid first) +:+ ">"
  +:+ book_title_formatter name +:+ "</a></td>".

(** One row, lines 229-236: the cells, padded to four. *)
Definition index_row (row : list (Z * Z * string)) : string :=
  let cells := index_cell <$> row in
  let cells := cells ++ replicate (4 - length cells)%nat "<td></td>" in
  "<tr>" +:+ Str.concat cells +:+ "</tr>".

(** [range(0, n, 4)] *)
Definition range4 (n : nat) : list nat :=
  (λ k, 4 * k)%nat <$> seq 0 ((n + 3) / 4)%nat.

(** [table_rows], lines 225-236. *)
Definition table_rows (book_list : list (Z * Z * string)) : string :=
  foldl (λ acc i, acc +:+ index_row (take 4 (drop i book_list)))
        EmptyString (range4 (length book_list)).

(** [index_page], lines 237-239. *)
Definition index_page (book_list : list (Z * Z * string)) : string :=
  let index_table :=
    "<table class=" +:+ Str.q "b" +:+ ">" +:+ table_rows book_list
    +:+ "</table>" in
  "<html><head><title>Books</title><link rel=" +:+ Str.q "stylesheet"
  +:+ " href=" +:+ Str.q "styles.css" +:+ "/></head><body><a id="
  +:+ Str.q "b" +:+ "/>" +:+ index_table +:+ "</body></html>".

(** The body of the loop of lines 267-269. *)
Definition verse_nav (book_id chap : Z) (book_name : string)
    (st : state) (row : Z * option string) : state :=
  let vnum := row.1 in
  play_order_incr
    (toc_append
       (Nav {| nav_id := Str.of_Z book_id +:+ "-" +:+ Str.of_Z chap +:+ "-"
                         +:+ Str.of_Z vnum;
               nav_play_order := play_order st;
               nav_label := book_name +:+ " " +:+ Str.of_Z chap +:+ ":"
                            +:+ Str.of_Z vnum;
               nav_src := chapter_fname book_id chap +:+ "#" +:+ Str.of_Z vnum;
               nav_closed := true |})
       st).

(** One line of a chapter page, lines 279-286. *)
Definition verse_line (book_id chap : Z) (xrefs_from xrefs_to : option xrefs_t)
    (row : Z * option string) : string :=
  let '(vnum, text) := row in
  let safe_text := match text with Some t => t | None => EmptyString end in
  let clean_text := strip_mysword_tags safe_text in
  let escaped_verse :=
    Str.replace_char ">" "&gt;"
      (Str.replace_char "<" "&lt;" (Str.replace_char "&" "&amp;" clean_text)) in
  let indicators :=
    generate_verse_indicators book_id chap vnum xrefs_from xrefs_to in
  "<a href=" +:+ Str.q ("#" +:+ Str.of_Z vnum) +:+ " id="
  +:+ Str.q (Str.of_Z vnum) +:+ ">" +:+ Str.of_Z vnum +:+ "</a> "
  +:+ escaped_verse +:+ " " +:+ indicators +:+ "<br/>".

(** [heading], lines 273-276. *)
Definition chapter_heading (book_id chap first : Z) (book_name toc_links : string)
  : string :=
  if bool_decide (chap = first) then
    "<html><head><title>" +:+ book_name +:+ " " +:+ Str.of_Z chap
    +:+ "</title><link rel=" +:+ Str.q "stylesheet" +:+ " href="
    +:+ Str.q "styles.css" +:+ "/></head><body><h1 id=" +:+ Str.q "toc"
    +:+ ">" +:+ book_name +:+ "</h1><div class=" +:+ Str.q "c" +:+ ">"
    +:+ toc_links +:+ "</div><h2>" +:+ book_name +:+ " " +:+ Str.of_Z chap
    +:+ " <a href=" +:+ Str.q "i.html#b" +:+ ">⇑</a> <a href="
    +:+ Str.q "#toc" +:+ ">↑</a></h2>"
  else
    "<html><head><title>" +:+ book_name +:+ " " +:+ Str.of_Z chap
    +:+ "</title><link rel=" +:+ Str.q "stylesheet" +:+ " href="
    +:+ Str.q "styles.css" +:+ "/></head><body><h2>" +:+ book_name +:+ " "
    +:+ Str.of_Z chap +:+ " <a href=" +:+ Str.q "i.html#b"
    +:+ ">⇑</a> <a href=" +:+ Str.q (chapter_fname book_id first +:+ "#toc")
    +:+ ">↑</a></h2>".

(** The body of the chapter loop, lines 258-288.  [verses[book_id][chap]]
    raises [KeyError] on a missing key. *)
Definition chapter_step (verses : verses_t) (xrefs_from xrefs_to : option xrefs_t)
    (book_id : Z) (book_name : string) (first : Z) (toc_links : string)
    (chap : Z) (st : state) : option state :=
  let fname := chapter_fname book_id chap in
  let item_id := chapter_item_id book_id chap in
  let st := manifest_append (ManifestItem item_id fname) st in
  let st := spine_append item_id st in
  let st :=
    toc_append
      (Nav {| nav_id := Str.of_Z book_id +:+ "-" +:+ Str.of_Z chap;
              nav_play_order := play_order st;
              nav_label := book_name +:+ " " +:+ Str.of_Z chap;
              nav_src := fname;
              nav_closed := false |}) st in
  let st := play_order_incr st in
  rows ← verses !! book_id ≫= (.!! chap);
  let st := foldl (verse_nav book_id chap book_name) st rows in
  let st := toc_append NavEnd st in
  let heading := chapter_heading book_id chap first book_name toc_links in
  rows ← verses !! book_id ≫= (.!! chap);
  let content :=
    [heading] ++ (verse_line book_id chap xrefs_from xrefs_to <$> rows)
    ++ [CHAPTER_TEMPLATE_FOOT] in
  Some (writestr ("OEBPS/" +:+ fname) (Str.concat content) st).

(** The body of the book loop, lines 247-290. *)
Definition book_step (books : books_t) (verses : verses_t)
    (xrefs_from xrefs_to : option xrefs_t) (book_id : Z) (st : state)
  : option state :=
  match books !! book_id with
  | Some (String _ _ as book_name) =>
      let book_name := book_title_formatter book_name in
      chs ← verses !! book_id;
      let chapters := sorted_keys chs in
      first ← head chapters;
      let st :=
        toc_append
          (Nav {| nav_id := Str.of_Z book_id;
                  nav_play_order := play_order st;
                  nav_label := book_name;
                  nav_src := chapter_fname book_id first;
                  nav_closed := false |}) st in
      let st := play_order_incr st in
      let toc_links :=
        Str.concat ((λ c, "<a href=" +:+ Str.q (chapter_fname book_id c)
                          +:+ ">" +:+ Str.of_Z c +:+ "</a>") <$> chapters) in
      st ← for_each (chapter_step verses xrefs_from xrefs_to book_id book_name
                       first toc_links) chapters st;
      Some (toc_append NavEnd st)
  | _ => Some st
  end.

(** Lines 292-302: the cross-reference page and its descriptors. *)
Definition xref_step (books : books_t) (xrefs_from xrefs_to : option xrefs_t)
    (st : state) : state :=
  match generate_cross_reference_section books xrefs_from xrefs_to with
  | Some (String _ _ as xref_content) =>
      let st := writestr "OEBPS/x.html" xref_content st in
      let st := manifest_append (ManifestItem "xrefs" "x.html") st in
      let st := spine_append "xrefs" st in
      toc_append
        (Nav {| nav_id := "x";
                nav_play_order := play_order st;
                nav_label := "Cross References";
                nav_src := "x.html#c";
                nav_closed := true |}) st
  | _ => st
  end.

(** Lines 215-290: the fixed files, the index page and the pages,
    descriptors and navigation nodes of the books.  [None] is an exception,
    which line 315 turns into [sys.exit(1)]. *)
Definition assemble_books (books : books_t) (verses : verses_t)
    (xrefs_from xrefs_to : option xrefs_t) : option state :=
  let st := State [] [] [] [] 1 in
  let st := writestr "mimetype" "application/epub+zip" st in
  let st := writestr "META-INF/container.xml" (minify CONTAINER_XML) st in
  let st := writestr "OEBPS/styles.css" GLOBAL_CSS st in
  book_list ← book_list books verses;
  let st := writestr "OEBPS/i.html" (index_page book_list) st in
  let st := manifest_append (ManifestItem "index" "i.html") st in
  let st := spine_append "index" st in
  for_each (book_step books verses xrefs_from xrefs_to) (sorted_keys verses) st.

(** Lines 215-302: everything up to the two package files. *)
Definition assemble (books : books_t) (verses : verses_t)
    (xrefs_from xrefs_to : option xrefs_t) : option state :=
  st ← assemble_books books verses xrefs_from xrefs_to;
  Some (xref_step books xrefs_from xrefs_to st).

(** Lines 216-312 without the archive: the calls of [epub.writestr] of one
    run, in order, as pairs of member name and content, or [None] when the
    run raises before the last call.  [book_uuid] stands for the
    [uuid.uuid4()] drawn at line 213. *)
Definition epub_members (books : books_t) (verses : verses_t)
    (title book_uuid : string) (xrefs_from xrefs_to : option xrefs_t)
  : option (list (string * string)) :=
  st ← assemble books verses xrefs_from xrefs_to;
  let st :=
    writestr "OEBPS/content.opf"
      (CONTENT_OPF title book_uuid
         (Str.concat (render_item <$> manifest_items st))
         (Str.concat (render_itemref <$> spine_items st))) st in
  let st :=
    writestr "OEBPS/toc.ncx"
      (Str.concat ([TOC_NCX_HEAD title book_uuid]
                   ++ (render_nav <$> toc_nav st)
                   ++ [TOC_NCX_TEMPLATE_TAIL])) st in
  Some (epub st).

(** ** The archive, lines 215 and 313-317

    [zipfile.ZipFile(output_path, 'w')], every [epub.writestr] and
    [epub.close()] act on the file system, and each of them can raise: the
    directory may be missing, the file or the disk may refuse the write, a
    text may not be encodable.  A [filesystem] says what succeeds:
    [fs_open path] for opening the archive, [fs_write path written name
    content] for writing a member after the members [written], and
    [fs_close path written] for closing the archive. *)
Record filesystem := FileSystem {
  fs_open : string → bool;
  fs_write : string → list (string * string) → string → string → bool;
  fs_close : string → list (string * string) → bool
}.

(** The calls of [writestr] in order, each after the ones before it. *)
Fixpoint writes_ok (fs : filesystem) (output_path : string)
    (written todo : list (string * string)) : bool :=
  match todo with
  | [] => true
  | member :: todo' =>
      fs_write fs output_path written member.1 member.2
      && writes_ok fs output_path (written ++ [member]) todo'
  end.

(** [create_epub], lines 212-317: the package that is written to
    [output_path], as its members in order, or [None] when the run ends in
    [sys.exit(1)].  [writestr] and [close] return nothing that the run
    uses, and every exception ends the run in the same handler (lines
    315-317), so the outcome is the same whether the answers of the file
    system are looked at call by call or, as here, after the calls have
    been collected: the run ends in the handler when opening fails, when
    the run itself raises, when a write fails or when closing fails. *)
Definition create_epub (fs : filesystem) (books : books_t) (verses : verses_t)
    (output_path title book_uuid : string)
    (xrefs_from xrefs_to : option xrefs_t)
  : option (list (string * string)) :=
  if fs_open fs output_path then
    members ← epub_members books verses title book_uuid xrefs_from xrefs_to;
    if writes_ok fs output_path [] members && fs_close fs output_path members
    then Some members
    else None
  else None.

(** ** The data source and the entry point *)

(** [fetch_books], lines 83-86: [{row[0]: row[1] for row in rows}] over the
    rows of the query; a later row with the same id replaces an earlier
    one. *)
Definition fetch_books (rows : list (Z * string)) : books_t :=
  foldl (λ books row, <[row.1 := row.2]> books) ∅ rows.

(** What [fetch_cross_references] finds: no connection (line 102), a query
    that raises [sqlite3.Error] (line 134), or the rows of [xrefs_bcv]. *)
Inductive xrefs_source :=
| NoConnection
| QueryError
| QueryRows (rows : list (Z * Z * Z * Z * Z * Z)).

(** [d[key].append(x)] after [if key not in d: d[key] = []], lines 122-124
    and 127-129. *)
Definition xrefs_append (d : xrefs_t) (key x : coord) : xrefs_t :=
  let d := match d !! key with
           | None => <[key := []]> d
           | Some _ => d
           end in
  alter (λ bucket, bucket ++ [x]) key d.

(** The body of the loop of lines 117-129. *)
Definition fetch_cross_references_row (acc : xrefs_t * xrefs_t)
    (row : Z * Z * Z * Z * Z * Z) : xrefs_t * xrefs_t :=
  let '(from_book, from_chap, from_verse, to_book, to_chap, to_verse) := row in
  let from_key := (from_book, from_chap, from_verse) in
  let to_key := (to_book, to_chap, to_verse) in
  (xrefs_append acc.1 from_key (to_book, to_chap, to_verse),
   xrefs_append acc.2 to_key (from_book, from_chap, from_verse)).

(** [fetch_cross_references], lines 100-136. *)
Definition fetch_cross_references (source : xrefs_source) : xrefs_t * xrefs_t :=
  match source with
  | NoConnection => (∅, ∅)
  | QueryError => (∅, ∅)
  | QueryRows rows => foldl fetch_cross_references_row (∅, ∅) rows
  end.

(** [os.path.basename] on a POSIX system: what follows the last slash. *)
Fixpoint basename (p : string) : string :=
  match p with
  | EmptyString => EmptyString
  | String c p' =>
      if Str.has "/" p' then basename p'
      else if bool_decide (c = "/"%char) then p' else p
  end.

(** [s.endswith(suffix)] *)
Fixpoint endswith (suffix s : string) : bool :=
  match Str.strip_prefix false suffix s with
  | Some EmptyString => true
  | _ => match s with
         | EmptyString => false
         | String _ s' => endswith suffix s'
         end
  end.

(** [s[:n]] for a length [n] *)
Fixpoint str_take (n : nat) (s : string) : string :=
  match n, s with
  | S k, String c s' => String c (str_take k s')
  | _, _ => EmptyString
  end.

(** The title that [main] settles on, lines 331-336; [title] is
    [args.title], [None] when the option is not given. *)
Definition main_title (title : option string) (bbl : string) : string :=
  match title with
  | Some (String _ _ as t) => t
  | _ =>
      let bbl_basename := basename bbl in
      if endswith ".bbl.mybible" bbl_basename
      then str_take (String.length bbl_basename - 12) bbl_basename
      else bbl_basename
  end.

(** The output file that [main] settles on, lines 339-340. *)
Definition main_output (output : option string) (title : string) : string :=
  match output with
  | Some (String _ _ as o) => o
  | _ => title +:+ ".epub"
  end.

(** Lines 370-380 of [main]: the three mappings are fetched and handed to
    [create_epub] together with [args.output] and [args.title].  The
    cross-reference maps are always dictionaries here, never [None]. *)
Definition main_convert (fs : filesystem) (book_rows : list (Z * string))
    (verse_rows : list (Z * Z * Z * option string)) (source : xrefs_source)
    (output_path title book_uuid : string)
  : option (list (string * string)) :=
  let books := fetch_books book_rows in
  let verses := fetch_verses verse_rows in
  let xrefs := fetch_cross_references source in
  create_epub fs books verses output_path title book_uuid
    (Some xrefs.1) (Some xrefs.2).

(** The escaping of line 284. *)
Definition html_escape (clean_text : string) : string :=
  Str.replace_char ">" "&gt;"
    (Str.replace_char "<" "&lt;" (Str.replace_char "&" "&amp;" clean_text)).

(** ** Vocabulary of the properties *)

(** [key] is a key of the map, when there is a map. *)
Definition in_xrefs (x : option xrefs_t) (key : coord) : Prop :=
  ∃ m, x = Some m ∧ is_Some (m !! key).

(** The text from position [n] on. *)
Fixpoint str_drop (n : nat) (s : string) : string :=
  match n, s with
  | S k, String _ s' => str_drop k s'
  | _, _ => s
  end.

(** No [<] of the text has a [>] anywhere after it: there is nothing left
    that any of the tag patterns could match. *)
Fixpoint tagless (s : string) : Prop :=
  match s with
  | EmptyString => True
  | String a s' => (a = "<"%char → Str.has ">" s' = false) ∧ tagless s'
  end.

(** A pattern that only ever matches text of the shape [<...>...]. *)
Definition tag_matcher (m : Re.matcher) : Prop :=
  ∀ s repl n, m s = Some (repl, n) →
    ∃ r, s = String "<" r ∧ Str.has ">" r = true.

Definition starts_nonspace (s : string) : Prop :=
  match s with
  | String b _ => Chr.is_space b = false
  | EmptyString => True
  end.

(** Every white-space character is a single space standing before a
    character that is not white space. *)
Fixpoint collapsed (s : string) : Prop :=
  match s with
  | EmptyString => True
  | String a s' =>
      (Chr.is_space a = true → a = " "%char ∧ starts_nonspace s')
      ∧ collapsed s'
  end.

(** The replacement of the pattern brings in neither [<] nor [>]. *)
Definition plain_repl (m : Re.matcher) : Prop :=
  ∀ s repl n, m s = Some (repl, n) →
    Str.has "<" repl = false ∧ Str.has ">" repl = false.

Definition starts_nondigit (s : string) : Prop :=
  match s with
  | String c _ => Chr.is_digit c = false
  | EmptyString => True
  end.

(** The books that get pages: the book ids of [verses] in ascending order
    whose name is there and not empty. *)
Definition emitted_books (books : books_t) (verses : verses_t) : list Z :=
  filter (λ b, name_truthy (books !! b) = true) (sorted_keys verses).

(** The chapters of a book in ascending order. *)
Definition chapters_of (verses : verses_t) (b : Z) : list Z :=
  sorted_keys (default ∅ (verses !! b)).

(** The rows of a chapter in the order of the source. *)
Definition rows_of (verses : verses_t) (b c : Z) : list (Z * option string) :=
  default [] (verses !! b ≫= (.!! c)).

(** All chapters that get a page, book by book. *)
Definition emitted_chapters (books : books_t) (verses : verses_t)
  : list (Z * Z) :=
  emitted_books books verses ≫= λ b, (b,.) <$> chapters_of verses b.

(** The ids of the navigation nodes in pre-order: a book, then each of its
    chapters followed by that chapter's verses. *)
Definition verse_nav_id (b c : Z) (row : Z * option string) : string :=
  Str.of_Z b +:+ "-" +:+ Str.of_Z c +:+ "-" +:+ Str.of_Z row.1.

Definition chapter_nav_ids (verses : verses_t) (b c : Z) : list string :=
  chapter_item_id b c :: (verse_nav_id b c <$> rows_of verses b c).

Definition book_nav_ids (verses : verses_t) (b : Z) : list string :=
  Str.of_Z b :: (chapters_of verses b ≫= chapter_nav_ids verses b).

Definition nav_traversal (books : books_t) (verses : verses_t) : list string :=
  emitted_books books verses ≫= book_nav_ids verses.

(** The cross-reference page is made when either map has an entry. *)
Definition xref_page_made (xrefs_from xrefs_to : option xrefs_t) : bool :=
  xrefs_truthy xrefs_from || xrefs_truthy xrefs_to.

(** The play orders handed out so far are 1, 2, ..., and the counter is
    the next one. *)
Definition counted (st : state) : Prop :=
  nav_play_order <$> nav_points (toc_nav st)
  = seqZ 1 (Z.of_nat (length (nav_points (toc_nav st))))
  ∧ play_order st = 1 + Z.of_nat (length (nav_points (toc_nav st))).

(** What a stretch of the run has added to the archive members, the
    manifest, the spine and the navigation nodes. *)
Definition grows (st st' : state) (files : list string)
    (items : list manifest_item) (refs ids : list string) : Prop :=
  (epub st').*1 = (epub st).*1 ++ files
  ∧ manifest_items st' = manifest_items st ++ items
  ∧ spine_items st' = spine_items st ++ refs
  ∧ nav_id <$> nav_points (toc_nav st')
    = (nav_id <$> nav_points (toc_nav st)) ++ ids.

(** The input never makes [sorted(..)[0]] fail: every book that has a name
    has a chapter. *)
Definition has_chapters (books : books_t) (verses : verses_t) : Prop :=
  map_Forall (λ b (chs : chapters_t), name_truthy (books !! b) = true → chs ≠ ∅)
             verses.

Global Instance has_chapters_dec books verses :
  Decision (has_chapters books verses).
Proof. unfold has_chapters. apply _. Defined.

(** The number of elements of [l] that satisfy [P]. *)
Definition count_if {A} (P : A → Prop) `{∀ x, Decision (P x)} (l : list A)
  : nat := length (filter P l).

(** An input with two books that have names and one that has none, with
    and without cross-references. *)
Definition demo_books : books_t := {[ 1 := "Genesis"; 2 := "1Samuel" ]}.

Definition demo_verses : verses_t :=
  {[ 1 := {[ 1 := [(1, Some "In <FI>the<Fi> beginning"); (2, None)];
             2 := [(1, Some "a & b")] ]};
     2 := {[ 3 := [(5, Some "x")] ]};
     9 := {[ 1 := [(1, Some "lost")] ]} ]}.

Definition demo_xrefs_from : option xrefs_t :=
  Some {[ (1, 1, 1) := [(9, 1, 1)] ]}.

Definition demo_xrefs_to : option xrefs_t :=
  Some {[ (9, 1, 1) := [(1, 1, 1)] ]}.

(** A row with the text that the page shows for it: the empty string in
    place of a missing text. *)
Definition row_with_text (row : Z * option string) : Z * option string :=
  (row.1, Some (default EmptyString row.2)).

(** The verse mapping with every missing text replaced by the empty
    string. *)
Definition null_to_empty (verses : verses_t) : verses_t :=
  fmap (M := gmap Z) (fmap (M := gmap Z) (fmap row_with_text)) verses.

(** Two inputs lead to the same pages for book [b]: either neither has a
    name for it, or they have the same name and the same chapters, with
    the same rows up to missing texts. *)
Definition same_book (books1 books2 : books_t) (verses1 verses2 : verses_t)
    (b : Z) : Prop :=
  (name_truthy (books1 !! b) = false ∧ name_truthy (books2 !! b) = false)
  ∨ (books1 !! b = books2 !! b
     ∧ fmap (M := gmap Z) (fmap row_with_text) <$> verses1 !! b
       = fmap (M := gmap Z) (fmap row_with_text) <$> verses2 !! b).

(** The content of the archive member [name], when there is one. *)
Definition member_content (name : string) (files : list (string * string))
  : option string :=
  snd <$> head (filter (λ f, f.1 = name) files).

(** What the escaping of line 284 makes of one character. *)
Definition escape_char (c : ascii) : string :=
  if bool_decide (c = "&"%char) then "&amp;"
  else if bool_decide (c = "<"%char) then "&lt;"
  else if bool_decide (c = ">"%char) then "&gt;"
  else String c EmptyString.

(** The [(verse, text)] pairs of the rows of book [b], chapter [c], in the
    order of the rows. *)
Definition verse_rows_of (rows : list (Z * Z * Z * option string)) (b c : Z)
  : list (Z * option string) :=
  omap (λ row : Z * Z * Z * option string,
          let '(book, chap, verse, text) := row in
          if decide (book = b ∧ chap = c) then Some (verse, text) else None)
       rows.

(** The two coordinates of a row of [xrefs_bcv]. *)
Definition xref_from_key (row : Z * Z * Z * Z * Z * Z) : coord :=
  let '(from_book, from_chap, from_verse, _, _, _) := row in
  (from_book, from_chap, from_verse).

Definition xref_to_key (row : Z * Z * Z * Z * Z * Z) : coord :=
  let '(_, _, _, to_book, to_chap, to_verse) := row in
  (to_book, to_chap, to_verse).

(** The targets of the rows that start at [key], in the order of the
    rows, and the sources of the rows that end at [key]. *)
Definition targets_of (rows : list (Z * Z * Z * Z * Z * Z)) (key : coord)
  : list coord :=
  omap (λ row, if decide (xref_from_key row = key)
               then Some (xref_to_key row) else None) rows.

Definition sources_of (rows : list (Z * Z * Z * Z * Z * Z)) (key : coord)
  : list coord :=
  omap (λ row, if decide (xref_to_key row = key)
               then Some (xref_from_key row) else None) rows.

(** The names that the rows give to [id], in the order of the rows. *)
Definition names_of (rows : list (Z * string)) (id : Z) : list string :=
  omap (λ row : Z * string, if decide (row.1 = id) then Some row.2 else None)
       rows.

(** A bucket as a dictionary holds it: absent when it would be empty. *)
Definition as_bucket {A} (l : list A) : option (list A) :=
  match l with
  | [] => None
  | _ => Some l
  end.

(** The rows that [fetch_cross_references] gets to see. *)
Definition source_rows (source : xrefs_source) : list (Z * Z * Z * Z * Z * Z) :=
  match source with
  | QueryRows rows => rows
  | _ => []
  end.

(** The links to the chapters of a book, as line 256 builds them. *)
Definition chapter_links (verses : verses_t) (b : Z) : string :=
  Str.concat ((λ c, "<a href=" +:+ Str.q (chapter_fname b c) +:+ ">"
                    +:+ Str.of_Z c +:+ "</a>") <$> chapters_of verses b).

(** The least chapter of a book. *)
Definition first_chapter (verses : verses_t) (b : Z) : Z :=
  default 0 (head (chapters_of verses b)).

(** The name of a book as the pages show it. *)
Definition shown_name (books : books_t) (b : Z) : string :=
  book_title_formatter (default EmptyString (books !! b)).

(** The archive member of a chapter, given what the book loop hands to the
    chapter loop. *)
Definition page_of (verses : verses_t) (xf xt : option xrefs_t) (b : Z)
    (name : string) (first : Z) (links : string) (c : Z) : string * string :=
  ("OEBPS/" +:+ chapter_fname b c,
   Str.concat ([chapter_heading b c first name links]
               ++ (verse_line b c xf xt <$> rows_of verses b c)
               ++ [CHAPTER_TEMPLATE_FOOT])).

(** The archive member of a chapter of a named book. *)
Definition chapter_page (books : books_t) (verses : verses_t)
    (xf xt : option xrefs_t) (bc : Z * Z) : string * string :=
  page_of verses xf xt bc.1 (shown_name books bc.1) (first_chapter verses bc.1)
          (chapter_links verses bc.1) bc.2.

(** Label and target of a navigation node. *)
Definition nav_link (p : nav_point) : string * string :=
  (nav_label p, nav_src p).

Definition verse_link (name : string) (b c : Z) (row : Z * option string)
  : string * string :=
  (name +:+ " " +:+ Str.of_Z c +:+ ":" +:+ Str.of_Z row.1,
   chapter_fname b c +:+ "#" +:+ Str.of_Z row.1).

Definition chapter_nav_links (verses : verses_t) (name : string) (b c : Z)
  : list (string * string) :=
  (name +:+ " " +:+ Str.of_Z c, chapter_fname b c)
  :: (verse_link name b c <$> rows_of verses b c).

Definition book_nav_links (books : books_t) (verses : verses_t) (b : Z)
  : list (string * string) :=
  (shown_name books b, chapter_fname b (first_chapter verses b))
  :: (chapters_of verses b ≫= chapter_nav_links verses (shown_name books b) b).

(** What a stretch of the run has added to the archive, contents included,
    and to the labels and targets of the navigation nodes. *)
Definition extends (st st' : state) (files links : list (string * string))
  : Prop :=
  epub st' = epub st ++ files
  ∧ nav_link <$> nav_points (toc_nav st')
    = (nav_link <$> nav_points (toc_nav st)) ++ links.

(** The entry of a book in [book_list]. *)
Definition index_entry (books : books_t) (verses : verses_t) (b : Z)
  : Z * Z * string :=
  (b, first_chapter verses b, default EmptyString (books !! b)).


(** The files that the two fixed manifest items of the package template
    name, lines 30-31. *)
Definition template_item_hrefs : list string := ["toc.ncx"; "styles.css"].

(** The nesting depth after a stretch of [toc_nav], starting at depth [d]:
    a node that is not closed on the spot opens a level, a
    ['</navPoint>'] closes one; [None] when a level is closed that was
    never opened. *)
Fixpoint nav_depth (d : nat) (l : list nav_entry) : option nat :=
  match l with
  | [] => Some d
  | Nav p :: l' => nav_depth (if nav_closed p then d else S d) l'
  | NavEnd :: l' =>
      match d with
      | O => None
      | S d' => nav_depth d' l'
      end
  end.

(** A stretch of the run leaves the navigation tree as deep as it found
    it. *)
Definition nests (st st' : state) : Prop :=
  ∃ l, toc_nav st' = toc_nav st ++ l ∧ ∀ d, nav_depth d l = Some d.

(** No place of the text has a [>], white space and then a [<]: the
    pattern of [minify] matches nowhere. *)
Fixpoint gap_free (s : string) : Prop :=
  match s with
  | EmptyString => True
  | String _ s' => Re.gap s = None ∧ gap_free s'
  end.

(** The file system lets the whole package through: the archive opens,
    takes every member and closes. *)
Definition archive_accepts (fs : filesystem) (output_path : string)
    (members : list (string * string)) : bool :=
  fs_open fs output_path && writes_ok fs output_path [] members
  && fs_close fs output_path members.

(** A file system on which nothing fails. *)
Definition writable : filesystem :=
  FileSystem (λ _, true) (λ _ _ _ _, true) (λ _ _, true).

(** What the cross-reference page is to show for a coordinate of a book
    that has no name: the heading of the coordinate and the list item of
    a target, both under the label [Book <id>] and both with a link to
    the page of the chapter. *)
Definition placeholder_heading (b c v : Z) : string :=
  "<h2 id="
  +:+ Str.q ("x" +:+ Str.of_Z b +:+ "-" +:+ Str.of_Z c +:+ "-" +:+ Str.of_Z v)
  +:+ "><a href="
  +:+ Str.q (("b" +:+ Str.of_Z b +:+ "c" +:+ Str.of_Z c +:+ ".html")
             +:+ "#" +:+ Str.of_Z v)
  +:+ ">↩</a> " +:+ ("Book " +:+ Str.of_Z b) +:+ " " +:+ Str.of_Z c +:+ ":"
  +:+ Str.of_Z v +:+ " <a href=" +:+ Str.q "i.html#b" +:+ ">⇑</a></h2>".

Definition placeholder_item (b c v : Z) : string :=
  "<li><a href="
  +:+ Str.q (("b" +:+ Str.of_Z b +:+ "c" +:+ Str.of_Z c +:+ ".html")
             +:+ "#" +:+ Str.of_Z v)
  +:+ ">" +:+ ("Book " +:+ Str.of_Z b) +:+ " " +:+ Str.of_Z c +:+ ":"
  +:+ Str.of_Z v +:+ "</a></li>".

(** * Properties *)

(** ** Strings *)

Section string_facts.
Implicit Types (s t u : string) (a b c : ascii).

Lemma str_app_nil_l s : EmptyString +:+ s = s.
Proof. reflexivity. Qed.

Lemma str_app_cons a s t : String a s +:+ t = String a (s +:+ t).
Proof. reflexivity. Qed.

Lemma str_app_nil_r s : s +:+ EmptyString = s.
Proof. induction s as [|a s IH]; [done|]. by rewrite str_app_cons, IH. Qed.

Lemma has_app c s t : Str.has c (s +:+ t) = Str.has c s || Str.has c t.
Proof.
  induction s as [|a s IH]; [done|].
  rewrite str_app_cons. simpl. rewrite IH. by rewrite orb_assoc.
Qed.

Lemma span_app p s l r : Str.span p s = (l, r) → s = l +:+ r.
Proof.
  revert l r. induction s as [|a s IH]; intros l r; simpl.
  - by intros [= <- <-].
  - destruct (p a).
    + destruct (Str.span p s) as [l' r']. intros [= <- <-].
      rewrite str_app_cons. f_equal. by apply IH.
    + by intros [= <- <-].
Qed.

Lemma span_all p s l r : Str.span p s = (l, r) → Str.all p l = true.
Proof.
  revert l r. induction s as [|a s IH]; intros l r; simpl.
  - by intros [= <- <-].
  - destruct (p a) eqn:Ha.
    + destruct (Str.span p s) as [l' r']. intros [= <- <-].
      simpl. rewrite Ha. by eapply IH.
    + by intros [= <- <-].
Qed.

Lemma span_stop p s l c r : Str.span p s = (l, String c r) → p c = false.
Proof.
  revert l. induction s as [|a s IH]; intros l; simpl.
  - by intros [= <- ?].
  - destruct (p a) eqn:Ha.
    + destruct (Str.span p s) as [l' r']. intros [= <- ->]. by eapply IH.
    + by intros [= <- -> ->].
Qed.

(** [span] is the only way to cut a string into a run of the class and a
    rest that does not start in the class. *)
Lemma span_unique p l r :
  Str.all p l = true →
  match r with String c _ => p c = false | EmptyString => True end →
  Str.span p (l +:+ r) = (l, r).
Proof.
  intros Hl Hr. induction l as [|a l IH]; simpl in *.
  - rewrite str_app_nil_l. destruct r as [|c r]; [done|]. simpl. by rewrite Hr.
  - apply andb_true_iff in Hl as [Ha Hl]. rewrite ?str_app_cons. simpl.
    by rewrite Ha, IH.
Qed.

Lemma str_app_assoc s t u : (s +:+ t) +:+ u = s +:+ (t +:+ u).
Proof. induction s as [|a s IH]; [done|]. by rewrite !str_app_cons, IH. Qed.

End string_facts.

(** ** The title formatter *)

(** C6.  The title formatter puts a period and a space after the leading
    digit run exactly when a character follows the run that is not a
    digit, a period or white space; every other name comes back
    unchanged.  The four names of the specification behave as it says. *)
Theorem book_title_formatter_rule :
  (∀ ds c rest,
     ds ≠ EmptyString → Str.all Chr.is_digit ds = true →
     Chr.is_digit c = false → c ≠ "."%char → Chr.is_space c = false →
     book_title_formatter (ds +:+ String c rest)
     = ds +:+ ". " +:+ String c rest)
  ∧ (∀ name,
       (∀ ds c rest,
          name = ds +:+ String c rest →
          ds ≠ EmptyString → Str.all Chr.is_digit ds = true →
          Chr.is_digit c = true ∨ c = "."%char ∨ Chr.is_space c = true) →
       book_title_formatter name = name)
  ∧ book_title_formatter "1Samuel" = "1. Samuel"
  ∧ book_title_formatter "Genesis" = "Genesis"
  ∧ book_title_formatter "3John" = "3. John"
  ∧ book_title_formatter "1. Timothy" = "1. Timothy".
Proof.
  split; [|split; [|by repeat split]].
  - intros ds c rest Hne Hds Hc Hdot Hsp. unfold book_title_formatter.
    rewrite (span_unique Chr.is_digit ds (String c rest)) by done.
    destruct ds as [|d ds]; [done|].
    rewrite Hc, Hsp, bool_decide_eq_false_2 by done. done.
  - intros name Hname. unfold book_title_formatter.
    destruct (Str.span Chr.is_digit name) as [ds r] eqn:Hspan.
    destruct ds as [|d ds]; [done|]. destruct r as [|c rest]; [done|].
    destruct (Hname (String d ds) c rest) as [Hc|[Hc|Hc]].
    + by eapply span_app.
    + done.
    + by eapply span_all.
    + by rewrite Hc.
    + rewrite bool_decide_eq_true_2 by done. by rewrite orb_true_r.
    + rewrite Hc. by rewrite !orb_true_r.
Qed.

Lemma book_title_formatter_rule_witness :
  book_title_formatter ("12" +:+ String "K"%char "ings") = "12. Kings"
  ∧ book_title_formatter "2. Peter" = "2. Peter".
Proof.
  split.
  - apply (proj1 book_title_formatter_rule "12" "K"%char "ings"); done.
  - apply (proj1 (proj2 book_title_formatter_rule) "2. Peter").
    intros ds c rest Heq Hne Hds.
    destruct ds as [|d1 ds]; [done|].
    injection Heq as <- Heq.
    destruct ds as [|d2 ds]; [injection Heq as <- _; by right; left|].
    injection Heq as <- _. simpl in Hds. done.
Defined.

(** ** The tag stripper on the cases of the specification *)

(** C5, as the program has it.  The tag stripper is a total function of
    strings; it maps the italic example to "in the beginning", the empty
    string to itself and the unknown tag pair around "hi" to "hi".  Given
    [None] it returns [None], not the empty string: the empty string for a
    missing verse text is put in by the caller, so a verse without text
    renders as a verse with empty text. *)
Theorem strip_mysword_tags_cases :
  (∀ text, ∃ r, strip_mysword_tags_dyn (Some text) = Some r)
  ∧ strip_mysword_tags "<FI>in<Fi> the beginning<CM>" = "in the beginning"
  ∧ strip_mysword_tags EmptyString = EmptyString
  ∧ strip_mysword_tags "<ZZ>hi</ZZ>" = "hi"
  ∧ strip_mysword_tags_dyn None = None
  ∧ (∀ book_id chap xrefs_from xrefs_to vnum,
       verse_line book_id chap xrefs_from xrefs_to (vnum, None)
       = verse_line book_id chap xrefs_from xrefs_to (vnum, Some EmptyString)).
Proof.
  split; [by eexists|]. by repeat split.
Qed.

(** C5, counterexample: called with [None] the stripper does not return
    the empty string. *)
Lemma strip_mysword_tags_none_not_empty :
  strip_mysword_tags_dyn None ≠ Some EmptyString.
Proof. done. Qed.

(** Further runs of the stripper: a translators' note goes with its
    content, numbered tags and indent marks go, the paired tags are found
    whatever the case of their letters, and a [<] that no [>] follows
    stays. *)
Example strip_mysword_tags_note :
  strip_mysword_tags "a<RF>note<Rf> b" = "a b".
Proof. reflexivity. Qed.

Example strip_mysword_tags_numbered :
  strip_mysword_tags "<PI2>In<WH7225> the  beginning<WT12> <TS>Title</TS>"
  = "In the beginning Title".
Proof. reflexivity. Qed.

Example strip_mysword_tags_ignorecase :
  strip_mysword_tags "<fi>added<FI> words" = "added words".
Proof. reflexivity. Qed.

Example strip_mysword_tags_open_bracket :
  strip_mysword_tags "x<y z>w> 1 < 2" = "xw> 1 < 2".
Proof. reflexivity. Qed.

(** ** Cross-reference indicators *)

Lemma xrefs_has_spec x key : xrefs_has x key = true ↔ in_xrefs x key.
Proof.
  unfold xrefs_has, xrefs_truthy, in_xrefs. split.
  - destruct x as [m|]; [|done]. intros [_ H]%andb_true_iff.
    apply bool_decide_eq_true in H. eauto.
  - intros (m & -> & Hm). apply andb_true_iff. split.
    + apply negb_true_iff, bool_decide_eq_false. intros ->.
      rewrite lookup_empty in Hm. by destruct Hm.
    + by apply bool_decide_eq_true.
Qed.

Lemma xrefs_has_truthy x key : xrefs_has x key = true → xrefs_truthy x = true.
Proof. unfold xrefs_has. by intros [? _]%andb_true_iff. Qed.

(** C7.  Whether a verse has outgoing references only, incoming ones only
    or both, its indicator is one and the same link: the same glyph, the
    class [x], and the address of the verse's anchor on the
    cross-reference page.  The indicator is empty exactly when the verse
    is a key of neither map. *)
Theorem generate_verse_indicators_one_link (book_id chapter verse : Z)
    (xrefs_from xrefs_to : option xrefs_t) :
  let key : coord := (book_id, chapter, verse) in
  let link := ("<a href=" +:+ Str.q ("x.html#" +:+ xref_anchor key)
               +:+ " class=" +:+ Str.q "x" +:+ ">⊗</a>") in
  (in_xrefs xrefs_from key ∨ in_xrefs xrefs_to key →
   generate_verse_indicators book_id chapter verse xrefs_from xrefs_to = link)
  ∧ (generate_verse_indicators book_id chapter verse xrefs_from xrefs_to
     = EmptyString
     ↔ ¬ in_xrefs xrefs_from key ∧ ¬ in_xrefs xrefs_to key).
Proof.
  intros key link. unfold generate_verse_indicators.
  fold key. rewrite <- !xrefs_has_spec.
  destruct (xrefs_has xrefs_from key) eqn:Hf;
    destruct (xrefs_has xrefs_to key) eqn:Ht;
    try (apply xrefs_has_truthy in Hf as ->);
    try (apply xrefs_has_truthy in Ht as ->);
    simpl; rewrite ?andb_false_r; simpl.
  - split; [done|]. split; [done|]. by intros [[] _].
  - split; [done|]. split; [done|]. by intros [[] _].
  - split; [done|]. split; [done|]. by intros [_ []].
  - split; [by intros [|]|]. split; [done|].
    by destruct (negb _ && negb _).
Qed.

Lemma generate_verse_indicators_one_link_witness :
  let out : option xrefs_t := Some {[ (1, 2, 3) := [(4, 5, 6)] ]} in
  let inc : option xrefs_t := Some {[ (1, 2, 3) := [(7, 8, 9)] ]} in
  let other : option xrefs_t := Some {[ (4, 5, 6) := [(1, 2, 3)] ]} in
  generate_verse_indicators 1 2 3 out other
  = generate_verse_indicators 1 2 3 None inc
  ∧ generate_verse_indicators 1 2 3 None inc
    = generate_verse_indicators 1 2 3 out inc.
Proof.
  intros out inc other.
  assert (Hout : in_xrefs out (1, 2, 3)).
  { eexists. split; [done|]. by rewrite lookup_singleton_eq. }
  assert (Hinc : in_xrefs inc (1, 2, 3)).
  { eexists. split; [done|]. by rewrite lookup_singleton_eq. }
  split.
  - rewrite (proj1 (generate_verse_indicators_one_link 1 2 3 out other))
      by (by left).
    by rewrite (proj1 (generate_verse_indicators_one_link 1 2 3 None inc))
      by (by right).
  - rewrite (proj1 (generate_verse_indicators_one_link 1 2 3 None inc))
      by (by right).
    by rewrite (proj1 (generate_verse_indicators_one_link 1 2 3 out inc))
      by (by left).
Defined.

(** ** [re.sub] on text without tags, and white-space normal forms *)

Section regex_facts.
Implicit Types (s t : string) (a b c : ascii) (m : Re.matcher).

Lemma sub_from_drop m k s : Re.sub_from m k s = Re.sub m (str_drop k s).
Proof.
  revert k. induction s as [|a s IH]; intros [|k]; try done.
  simpl. apply IH.
Qed.

Lemma sub_cons m a s :
  Re.sub m (String a s)
  = match m (String a s) with
    | Some (repl, n) => repl +:+ Re.sub m (str_drop (Nat.pred n) s)
    | None => String a (Re.sub m s)
    end.
Proof.
  unfold Re.sub at 1. simpl.
  destruct (m (String a s)) as [[repl n]|]; [|done].
  by rewrite sub_from_drop.
Qed.

Lemma str_drop_app s t : str_drop (String.length s) (s +:+ t) = t.
Proof. induction s as [|a s IH]; [by destruct t|]. apply IH. Qed.

Lemma sub_tagless_id m s : tag_matcher m → tagless s → Re.sub m s = s.
Proof.
  intros Hm. induction s as [|a s IH]; [done|]. intros [Ha Hs].
  rewrite sub_cons. destruct (m (String a s)) as [[repl n]|] eqn:E.
  - apply Hm in E as (r & [= -> ->] & Hr). rewrite Ha in Hr; done.
  - by rewrite IH.
Qed.

Lemma matches_lt ic b : Chr.matches ic "<" b = true → b = "<"%char.
Proof.
  destruct ic; unfold Chr.matches; [|by intros ->%bool_decide_eq_true].
  destruct b as [[] [] [] [] [] [] [] []]; vm_compute; congruence.
Qed.

Lemma matches_gt ic b : Chr.matches ic ">" b = true → b = ">"%char.
Proof.
  destruct ic; unfold Chr.matches; [|by intros ->%bool_decide_eq_true].
  destruct b as [[] [] [] [] [] [] [] []]; vm_compute; congruence.
Qed.

Lemma strip_prefix_tag ic p s r :
  Str.strip_prefix ic (String "<" p) s = Some r →
  Str.has ">" p = true ∨ Str.has ">" r = true →
  ∃ r', s = String "<" r' ∧ Str.has ">" r' = true.
Proof.
  simpl. destruct s as [|b s]; [done|].
  destruct (Chr.matches ic "<" b) eqn:Hb; [|done].
  apply matches_lt in Hb as ->. intros Hs Hp. eexists. split; [done|].
  clear -Hs Hp. revert s Hs Hp. induction p as [|a p IH]; intros s; simpl.
  - intros [= ->] [?|?]; done.
  - destruct s as [|b s]; [done|].
    destruct (Chr.matches ic a b) eqn:Hab; [|done]. intros Hs [Hp|Hr].
    + simpl. case_bool_decide as Ha; simpl in Hp.
      * subst a. apply matches_gt in Hab as ->.
        by rewrite bool_decide_eq_true_2.
      * rewrite (IH _ Hs) by (by left). apply orb_true_r.
    + simpl. rewrite (IH _ Hs) by (by right). apply orb_true_r.
Qed.

Lemma tag_matcher_literal p repl :
  Str.has ">" p = true → tag_matcher (Re.literal (String "<" p) repl).
Proof.
  intros Hp s repl' n. unfold Re.literal.
  destruct (Str.strip_prefix false (String "<" p) s) eqn:E; [|done].
  intros _. eapply strip_prefix_tag; eauto.
Qed.

Lemma tag_matcher_paired ic p close keep :
  Str.has ">" p = true → tag_matcher (Re.paired ic (String "<" p) close keep).
Proof.
  intros Hp s repl' n. unfold Re.paired.
  destruct (Str.strip_prefix ic (String "<" p) s) eqn:E; [|done].
  intros _. eapply strip_prefix_tag; eauto.
Qed.

Lemma tag_matcher_numbered p : tag_matcher (Re.numbered (String "<" p)).
Proof.
  intros s repl' n. unfold Re.numbered.
  destruct (Str.strip_prefix false (String "<" p) s) as [r|] eqn:E; [|done].
  destruct (Str.span Chr.is_digit r) as [[|d ds] [|c r']] eqn:Hsp; try done.
  case_bool_decide as Hc; [|done]. subst c. intros _.
  eapply strip_prefix_tag; [done|]. right.
  rewrite (span_app _ _ _ _ Hsp), has_app. simpl. apply orb_true_r.
Qed.

Lemma tag_matcher_one_digit p : tag_matcher (Re.one_digit (String "<" p)).
Proof.
  intros s repl' n. unfold Re.one_digit.
  destruct (Str.strip_prefix false (String "<" p) s)
    as [[|d [|c r']]|] eqn:E; try done.
  destruct (Chr.is_digit d); [|done]. simpl.
  case_bool_decide as Hc; [|done]. subst c. intros _.
  eapply strip_prefix_tag; [done|]. right. simpl. apply orb_true_r.
Qed.

Lemma tag_matcher_any_tag : tag_matcher Re.any_tag.
Proof.
  intros s repl' n. unfold Re.any_tag.
  destruct s as [|a r]; [done|].
  destruct (decide (a = "<"%char)) as [->|Ha].
  - destruct (Str.span _ r) as [body [|c r']] eqn:Hsp; [done|]. intros _.
    eexists. split; [done|].
    pose proof (span_stop _ _ _ _ _ Hsp) as Hc. simpl in Hc.
    apply negb_false_iff, bool_decide_eq_true in Hc as ->.
    rewrite (span_app _ _ _ _ Hsp), has_app. simpl. apply orb_true_r.
  - destruct a as [[] [] [] [] [] [] [] []]; done.
Qed.

End regex_facts.

Section normal_forms.
Implicit Types (s t : string) (a b c : ascii) (m : Re.matcher).

Lemma has_sub_from m c k s :
  (∀ s' repl n, m s' = Some (repl, n) → Str.has c repl = false) →
  Str.has c (Re.sub_from m k s) = true → Str.has c s = true.
Proof.
  intros Hm. revert k. induction s as [|a s IH]; intros k; [done|].
  destruct k as [|k]; simpl.
  - destruct (m (String a s)) as [[repl n]|] eqn:E.
    + rewrite has_app, (Hm _ _ _ E). simpl. intros H%IH. rewrite H.
      apply orb_true_r.
    + simpl. intros [->|H%IH]%orb_true_iff; [done|]. rewrite H.
      apply orb_true_r.
  - intros H%IH. rewrite H. apply orb_true_r.
Qed.

Lemma tagless_app_plain s t :
  Str.has "<" s = false → tagless t → tagless (s +:+ t).
Proof.
  intros Hs Ht. induction s as [|a s IH]; [done|]. rewrite str_app_cons.
  simpl in *. apply orb_false_iff in Hs as [Ha Hs]. split; [|by apply IH].
  intros ->. by rewrite bool_decide_eq_true_2 in Ha.
Qed.

Lemma sub_from_tagless m k s :
  plain_repl m → tagless s → tagless (Re.sub_from m k s).
Proof.
  intros Hm. revert k. induction s as [|a s IH]; intros k; [done|].
  intros [Ha Hs]. destruct k as [|k]; simpl; [|by apply IH].
  destruct (m (String a s)) as [[repl n]|] eqn:E.
  - apply tagless_app_plain; [|by apply IH]. by apply (Hm _ _ _ E).
  - split; [|by apply IH]. intros ->.
    destruct (Str.has ">" (Re.sub_from m 0 s)) eqn:H; [|done].
    apply has_sub_from in H; [by rewrite Ha in H|].
    intros s' repl n E'. by apply (Hm _ _ _ E').
Qed.

Lemma all_not_has c s :
  Str.all (λ x, negb (bool_decide (x = c))) s = true → Str.has c s = false.
Proof.
  induction s as [|a s IH]; [done|]. simpl.
  intros [Ha Hs]%andb_true_iff. apply negb_true_iff in Ha.
  by rewrite Ha, IH.
Qed.

Lemma any_tag_repl s repl n : Re.any_tag s = Some (repl, n) → repl = EmptyString.
Proof.
  unfold Re.any_tag. destruct s as [|a r]; [done|].
  destruct (decide (a = "<"%char)) as [->|Ha].
  - destruct (Str.span _ r) as [body [|c r']]; [done|]. by intros [= <- _].
  - destruct a as [[] [] [] [] [] [] [] []]; done.
Qed.

Lemma any_tag_none_lt r :
  Re.any_tag (String "<" r) = None → Str.has ">" r = false.
Proof.
  unfold Re.any_tag.
  destruct (Str.span _ r) as [body [|c r']] eqn:Hsp; [|done]. intros _.
  pose proof (span_all _ _ _ _ Hsp) as Hall.
  rewrite (span_app _ _ _ _ Hsp), str_app_nil_r. by apply all_not_has.
Qed.

(** After the safety net nothing is left that looks like a tag. *)
Lemma sub_any_tag_tagless k s : tagless (Re.sub_from Re.any_tag k s).
Proof.
  revert k. induction s as [|a s IH]; intros k; [done|].
  destruct k as [|k]; [|apply IH].
  change (Re.sub_from Re.any_tag 0 (String a s))
    with (match Re.any_tag (String a s) with
          | Some (repl, n) => repl +:+ Re.sub_from Re.any_tag (Nat.pred n) s
          | None => String a (Re.sub_from Re.any_tag 0 s)
          end).
  destruct (Re.any_tag (String a s)) as [[repl n]|] eqn:E.
  - apply any_tag_repl in E as ->. apply IH.
  - split; [|apply IH]. intros ->. apply any_tag_none_lt in E.
    destruct (Str.has ">" (Re.sub_from Re.any_tag 0 s)) eqn:H; [|done].
    apply has_sub_from in H; [by rewrite E in H|].
    by intros s' repl n ->%any_tag_repl.
Qed.

Lemma plain_repl_spaces : plain_repl (Re.spaces " ").
Proof.
  intros s repl n. unfold Re.spaces.
  destruct (Str.span Chr.is_space s) as [[|c cs] r]; [done|].
  by intros [= <- _].
Qed.

Lemma tagless_lstrip s : tagless s → tagless (Str.lstrip s).
Proof.
  induction s as [|a s IH]; [done|]. intros [Ha Hs]. simpl.
  destruct (Chr.is_space a); [by apply IH|done].
Qed.

Lemma has_rstrip c s : Str.has c (Str.rstrip s) = true → Str.has c s = true.
Proof.
  induction s as [|a s IH]; [done|]. simpl.
  destruct (Str.rstrip s) as [|b r] eqn:E.
  - destruct (Chr.is_space a); [done|]. simpl.
    intros [->|?]%orb_true_iff; done.
  - change (Str.has c (String a (String b r)))
      with (bool_decide (a = c) || Str.has c (String b r)).
    intros [->|H%IH]%orb_true_iff; [done|]. rewrite H. apply orb_true_r.
Qed.

Lemma tagless_rstrip s : tagless s → tagless (Str.rstrip s).
Proof.
  induction s as [|a s IH]; [done|]. intros [Ha Hs]. simpl.
  specialize (IH Hs). pose proof (has_rstrip ">" s) as Hgt.
  destruct (Str.rstrip s) as [|b r] eqn:E.
  - by destruct (Chr.is_space a).
  - split; [|done]. intros Hlt.
    destruct (Str.has ">" (String b r)) eqn:H; [|done].
    specialize (Hgt eq_refl). by rewrite (Ha Hlt) in Hgt.
Qed.

Lemma sub_spaces_space repl a s l r :
  Chr.is_space a = true → Str.span Chr.is_space s = (l, r) →
  Re.sub (Re.spaces repl) (String a s) = repl +:+ Re.sub (Re.spaces repl) r.
Proof.
  intros Ha Hsp. rewrite sub_cons. unfold Re.spaces at 1. simpl.
  rewrite Ha, Hsp. simpl.
  by rewrite (span_app _ _ _ _ Hsp), str_drop_app.
Qed.

Lemma sub_spaces_other repl a s :
  Chr.is_space a = false →
  Re.sub (Re.spaces repl) (String a s) = String a (Re.sub (Re.spaces repl) s).
Proof.
  intros Ha. rewrite sub_cons. unfold Re.spaces at 1. simpl. by rewrite Ha.
Qed.

Lemma span_length_rest p s l r :
  Str.span p s = (l, r) → (String.length r ≤ String.length s)%nat.
Proof.
  revert l r. induction s as [|a s IH]; intros l r; simpl.
  - by intros [= <- <-].
  - destruct (p a).
    + destruct (Str.span p s) as [l' r']. intros [= <- <-].
      specialize (IH _ _ eq_refl). lia.
    + intros [= <- <-]. simpl. lia.
Qed.

(** After the white-space rule every run of white space is one space. *)
Lemma sub_spaces_collapsed t : collapsed (Re.sub (Re.spaces " ") t).
Proof.
  remember (String.length t) as n eqn:Hn. revert t Hn.
  induction n as [n IH] using lt_wf_ind. intros [|a s] Hn; [done|].
  simpl in Hn. destruct (Chr.is_space a) eqn:Ha.
  - destruct (Str.span Chr.is_space s) as [l r] eqn:Hsp.
    rewrite (sub_spaces_space _ _ _ _ _ Ha Hsp).
    pose proof (span_length_rest _ _ _ _ Hsp) as Hlen.
    change (collapsed (String " " (Re.sub (Re.spaces " ") r))).
    split.
    + intros _. split; [done|]. destruct r as [|b r']; [done|].
      rewrite sub_spaces_other by (by eapply span_stop). simpl.
      by eapply span_stop.
    + eapply (IH (String.length r)); [lia|done].
  - rewrite sub_spaces_other by done. split; [congruence|].
    eapply (IH (String.length s)); [lia|done].
Qed.

Lemma collapsed_sub_spaces_id s :
  collapsed s → Re.sub (Re.spaces " ") s = s.
Proof.
  induction s as [|a s IH]; [done|]. intros [Ha Hs].
  destruct (Chr.is_space a) eqn:Hsp.
  - destruct (Ha eq_refl) as [-> Hnext].
    assert (Str.span Chr.is_space s = (EmptyString, s)) as Hspan.
    { destruct s as [|b s']; [done|]. simpl in *. by rewrite Hnext. }
    rewrite (sub_spaces_space _ _ _ _ _ Hsp Hspan). by rewrite IH.
  - rewrite sub_spaces_other by done. by rewrite IH.
Qed.

Lemma collapsed_lstrip s : collapsed s → collapsed (Str.lstrip s).
Proof.
  induction s as [|a s IH]; [done|]. intros [Ha Hs]. simpl.
  destruct (Chr.is_space a) eqn:Hsp; [by apply IH|].
  split; [by rewrite Hsp|done].
Qed.

Lemma rstrip_nonspace a s :
  Chr.is_space a = false → ∃ r, Str.rstrip (String a s) = String a r.
Proof. intros Ha. simpl. rewrite Ha. destruct (Str.rstrip s); eauto. Qed.

Lemma collapsed_rstrip s : collapsed s → collapsed (Str.rstrip s).
Proof.
  induction s as [|a s IH]; [done|]. intros [Ha Hs]. simpl.
  specialize (IH Hs). destruct (Str.rstrip s) as [|b r] eqn:E.
  - destruct (Chr.is_space a) eqn:Hsp; [done|]. split; [congruence|done].
  - split; [|done]. intros [-> Hnext]%Ha. split; [done|].
    destruct s as [|b' s']; [done|]. simpl in Hnext.
    destruct (rstrip_nonspace b' s' Hnext) as [r' Hr'].
    rewrite Hr' in E. injection E as <- _. exact Hnext.
Qed.

Lemma rstrip_idemp s : Str.rstrip (Str.rstrip s) = Str.rstrip s.
Proof.
  induction s as [|a s IH]; [done|]. simpl.
  destruct (Str.rstrip s) as [|b r] eqn:E.
  - destruct (Chr.is_space a) eqn:Ha; [done|]. simpl. by rewrite Ha.
  - change (Str.rstrip (String a (String b r)))
      with (match Str.rstrip (String b r) with
            | EmptyString => if Chr.is_space a then EmptyString
                             else String a EmptyString
            | r0 => String a r0
            end).
    by rewrite IH.
Qed.

Lemma lstrip_starts_nonspace s : starts_nonspace (Str.lstrip s).
Proof.
  induction s as [|a s IH]; [done|]. simpl.
  by destruct (Chr.is_space a) eqn:Ha.
Qed.

Lemma rstrip_starts_nonspace s :
  starts_nonspace s → starts_nonspace (Str.rstrip s).
Proof.
  destruct s as [|a s]; [done|]. intros Ha.
  by destruct (rstrip_nonspace a s Ha) as [r ->].
Qed.

Lemma lstrip_nonspace_id s : starts_nonspace s → Str.lstrip s = s.
Proof. destruct s as [|a s]; [done|]. simpl. by intros ->. Qed.

Lemma strip_idemp s : Str.strip (Str.strip s) = Str.strip s.
Proof.
  unfold Str.strip.
  rewrite (lstrip_nonspace_id (Str.rstrip _)), rstrip_idemp; [done|].
  apply rstrip_starts_nonspace, lstrip_starts_nonspace.
Qed.

End normal_forms.

(** ** The tag stripper is idempotent *)

Lemma strip_pipeline_normal t :
  tagless (strip_pipeline t) ∧ collapsed (strip_pipeline t)
  ∧ Str.strip (strip_pipeline t) = strip_pipeline t.
Proof.
  unfold strip_pipeline. cbv zeta. split; [|split].
  - apply tagless_rstrip, tagless_lstrip.
    apply sub_from_tagless; [apply plain_repl_spaces|].
    apply sub_any_tag_tagless.
  - apply collapsed_rstrip, collapsed_lstrip, sub_spaces_collapsed.
  - apply strip_idemp.
Qed.

Lemma strip_pipeline_fixed r :
  tagless r → collapsed r → Str.strip r = r → strip_pipeline r = r.
Proof.
  intros Htag Hcol Hstrip. unfold strip_pipeline. cbv zeta.
  repeat (rewrite (sub_tagless_id _ r);
          [|first [ by apply tag_matcher_literal
                  | by apply tag_matcher_paired
                  | apply tag_matcher_numbered
                  | apply tag_matcher_one_digit
                  | apply tag_matcher_any_tag ]
           |done]).
  by rewrite collapsed_sub_spaces_id.
Qed.

(** C9.  Stripping a text that has already been stripped changes nothing:
    the second run of the whole pipeline (tag rules, safety net,
    white-space rule and trimming) returns its argument. *)
Theorem strip_mysword_tags_idempotent text :
  strip_mysword_tags (strip_mysword_tags text) = strip_mysword_tags text.
Proof.
  destruct text as [|a text]; [done|].
  change (strip_mysword_tags (String a text))
    with (strip_pipeline (String a text)).
  destruct (strip_pipeline_normal (String a text)) as (Htag & Hcol & Hstrip).
  destruct (strip_pipeline (String a text)) as [|b r] eqn:E; [done|].
  change (strip_mysword_tags (String b r)) with (strip_pipeline (String b r)).
  by apply strip_pipeline_fixed.
Qed.

(** ** Printed integers *)

Section decimal_facts.
Implicit Types (s t r : string) (z : Z).

Lemma string_of_uint_digits d :
  Str.all Chr.is_digit (NilEmpty.string_of_uint d) = true.
Proof. induction d; simpl; done. Qed.

Lemma of_Z_shape z :
  ∃ ds, ds ≠ EmptyString ∧ Str.all Chr.is_digit ds = true
        ∧ Str.of_Z z = if bool_decide (z < 0) then String "-" ds else ds.
Proof.
  destruct z as [|p|p]; unfold Str.of_Z; simpl.
  - by exists "0".
  - exists (NilZero.string_of_uint (Pos.to_uint p)).
    pose proof (DecimalPos.Unsigned.to_uint_nonnil p) as Hp.
    destruct (Pos.to_uint p) eqn:E; try done;
      (split; [done|split; [apply (string_of_uint_digits (_ _))|done]]).
  - exists (NilZero.string_of_uint (Pos.to_uint p)).
    pose proof (DecimalPos.Unsigned.to_uint_nonnil p) as Hp.
    destruct (Pos.to_uint p) eqn:E; try done;
      (split; [done|split; [apply (string_of_uint_digits (_ _))|done]]).
Qed.

Lemma to_int_not_nil z :
  Z.to_int z ≠ Decimal.Pos Decimal.Nil ∧ Z.to_int z ≠ Decimal.Neg Decimal.Nil.
Proof.
  destruct z as [|p|p]; simpl; split; try done;
    intros [= H]; by apply (DecimalPos.Unsigned.to_uint_nonnil p).
Qed.

Lemma of_Z_inj z1 z2 : Str.of_Z z1 = Str.of_Z z2 → z1 = z2.
Proof.
  unfold Str.of_Z. intros H. apply DecimalZ.to_int_inj.
  apply (f_equal NilZero.int_of_string) in H.
  destruct (to_int_not_nil z1), (to_int_not_nil z2).
  rewrite !NilZero.isi in H by done. by injection H.
Qed.

Lemma digits_head ds1 ds2 r1 r2 :
  Str.all Chr.is_digit ds1 = true → Str.all Chr.is_digit ds2 = true →
  starts_nondigit r1 → starts_nondigit r2 →
  ds1 +:+ r1 = ds2 +:+ r2 → ds1 = ds2 ∧ r1 = r2.
Proof.
  intros H1 H2 Hr1 Hr2 Heq.
  assert (Str.span Chr.is_digit (ds1 +:+ r1) = (ds1, r1)) as E1
    by (apply span_unique; [done|by destruct r1]).
  assert (Str.span Chr.is_digit (ds2 +:+ r2) = (ds2, r2)) as E2
    by (apply span_unique; [done|by destruct r2]).
  rewrite Heq, E2 in E1. by injection E1.
Qed.

(** A printed integer can be read back off the front of a string in one
    way only, provided no digit follows it. *)
Lemma of_Z_head z1 z2 r1 r2 :
  starts_nondigit r1 → starts_nondigit r2 →
  Str.of_Z z1 +:+ r1 = Str.of_Z z2 +:+ r2 → z1 = z2 ∧ r1 = r2.
Proof.
  intros Hr1 Hr2.
  destruct (of_Z_shape z1) as (ds1 & Hne1 & Hd1 & E1).
  destruct (of_Z_shape z2) as (ds2 & Hne2 & Hd2 & E2).
  intros Heq. cut (Str.of_Z z1 = Str.of_Z z2 ∧ r1 = r2).
  { intros [?%of_Z_inj ?]. done. }
  rewrite E1, E2 in *.
  destruct ds1 as [|d1 ds1]; [done|]. destruct ds2 as [|d2 ds2]; [done|].
  simpl in Hd1, Hd2.
  apply andb_true_iff in Hd1 as [Hd1 Hd1'].
  apply andb_true_iff in Hd2 as [Hd2 Hd2'].
  do 2 case_bool_decide; rewrite ?str_app_cons in Heq; simplify_eq;
    match goal with
    | H : _ +:+ _ = _ +:+ _ |- _ => by apply digits_head in H as [-> ->]
    end.
Qed.

Lemma of_Z_first z :
  ∃ c s, Str.of_Z z = String c s ∧ (Chr.is_digit c = true ∨ c = "-"%char).
Proof.
  destruct (of_Z_shape z) as ([|d ds] & Hne & Hd & E); [done|].
  simpl in Hd. apply andb_true_iff in Hd as [Hd _].
  rewrite E. case_bool_decide; eauto.
Qed.

Lemma chapter_item_id_inj b1 c1 b2 c2 :
  chapter_item_id b1 c1 = chapter_item_id b2 c2 → b1 = b2 ∧ c1 = c2.
Proof.
  unfold chapter_item_id. intros [-> H]%of_Z_head; [|done..].
  split; [done|]. injection H as H. by apply of_Z_inj.
Qed.

Lemma chapter_fname_inj b1 c1 b2 c2 :
  chapter_fname b1 c1 = chapter_fname b2 c2 → b1 = b2 ∧ c1 = c2.
Proof.
  unfold chapter_fname. rewrite !str_app_cons, !str_app_nil_l. intros [= H].
  apply of_Z_head in H as [-> H]; [|done..]. split; [done|].
  injection H as H. by apply of_Z_head in H as [-> _].
Qed.

Lemma chapter_item_id_first b c :
  ∃ a s, chapter_item_id b c = String a s
         ∧ (Chr.is_digit a = true ∨ a = "-"%char).
Proof.
  unfold chapter_item_id. destruct (of_Z_first b) as (a & s & -> & Ha).
  rewrite str_app_cons. eauto.
Qed.

End decimal_facts.

(** ** Sorted keys *)

Section sorted_keys_facts.
Context {V : Type}.
Implicit Types (d : gmap Z V).

Lemma sorted_keys_perm d : sorted_keys d ≡ₚ (map_to_list d).*1.
Proof. apply merge_sort_Permutation. Qed.

Lemma elem_of_sorted_keys d k : k ∈ sorted_keys d ↔ is_Some (d !! k).
Proof.
  rewrite sorted_keys_perm, list_elem_of_fmap. split.
  - intros ([k' v] & -> & H%elem_of_map_to_list). eauto.
  - intros [v Hv]. exists (k, v). by rewrite elem_of_map_to_list.
Qed.

Lemma NoDup_sorted_keys d : NoDup (sorted_keys d).
Proof. rewrite sorted_keys_perm. apply NoDup_fst_map_to_list. Qed.

Lemma sorted_keys_empty : sorted_keys (∅ : gmap Z V) = [].
Proof. unfold sorted_keys. by rewrite map_to_list_empty. Qed.

Lemma sorted_keys_nil d : sorted_keys d = [] → d = ∅.
Proof.
  intros H. apply map_to_list_empty_iff, fmap_nil_inv with (f := fst).
  apply Permutation_nil_r. rewrite <- H. symmetry. apply sorted_keys_perm.
Qed.

Lemma Sorted_sorted_keys d : StronglySorted Z.lt (sorted_keys d).
Proof.
  pose proof (NoDup_sorted_keys d) as Hnd.
  assert (StronglySorted Z.le (sorted_keys d)) as Hs
    by (apply StronglySorted_merge_sort; apply _).
  induction Hs as [|k l Hl IH Hk]; [constructor|].
  apply NoDup_cons in Hnd as [Hk' Hnd]. constructor; [by apply IH|].
  apply Forall_forall. intros k2 Hk2.
  rewrite Forall_forall in Hk. specialize (Hk _ Hk2).
  assert (k ≠ k2) by (by intros ->). lia.
Qed.

End sorted_keys_facts.

(** ** Loops that may raise *)

Section for_each_facts.
Context {A S : Type}.
Implicit Types (body : A → S → option S) (l : list A).

Lemma for_each_is_Some body l st :
  (∀ x st', x ∈ l → is_Some (body x st')) → is_Some (for_each body l st).
Proof.
  revert st. induction l as [|x l IH]; intros st Hbody; [by eexists|].
  simpl. destruct (Hbody x st) as [st' ->]; [left|]. simpl.
  apply IH. intros y st'' Hy. apply Hbody. by right.
Qed.

Lemma for_each_ext body1 body2 l st :
  (∀ x st', x ∈ l → body1 x st' = body2 x st') →
  for_each body1 l st = for_each body2 l st.
Proof.
  revert st. induction l as [|x l IH]; intros st Hbody; [done|]. simpl.
  rewrite Hbody by left. destruct (body2 x st); simpl; [|done].
  apply IH. intros y st' Hy. apply Hbody. by right.
Qed.

End for_each_facts.

(** ** What one run adds to the package *)

Section run_facts.
Implicit Types (st : state) (books : books_t) (verses : verses_t).
Implicit Types (xf xt : option xrefs_t) (b c : Z).

Lemma nav_points_app (l1 l2 : list nav_entry) :
  nav_points (l1 ++ l2) = nav_points l1 ++ nav_points l2.
Proof. apply bind_app. Qed.

Lemma grows_refl st : grows st st [] [] [] [].
Proof. unfold grows. by rewrite !app_nil_r. Qed.

Lemma grows_trans st1 st2 st3 f1 i1 r1 n1 f2 i2 r2 n2 :
  grows st1 st2 f1 i1 r1 n1 → grows st2 st3 f2 i2 r2 n2 →
  grows st1 st3 (f1 ++ f2) (i1 ++ i2) (r1 ++ r2) (n1 ++ n2).
Proof.
  intros (Hf1 & Hi1 & Hr1 & Hn1) (Hf2 & Hi2 & Hr2 & Hn2). unfold grows.
  rewrite Hf2, Hi2, Hr2, Hn2, Hf1, Hi1, Hr1, Hn1.
  by rewrite <- !(assoc_L (++)).
Qed.

Lemma counted_nav p st :
  nav_play_order p = play_order st → counted st →
  counted (play_order_incr (toc_append (Nav p) st)).
Proof.
  intros Hp [Hseq Hpo]. unfold counted. simpl.
  rewrite nav_points_app, fmap_app, length_app. simpl.
  rewrite Nat.add_1_r, seqZ_S, Hseq, Hp, Hpo. split; [done|lia].
Qed.

Lemma counted_end st : counted st → counted (toc_append NavEnd st).
Proof.
  intros [Hseq Hpo]. unfold counted. simpl.
  rewrite nav_points_app. simpl. by rewrite app_nil_r.
Qed.

Lemma verse_loop_spec b c name rows st :
  let st' := foldl (verse_nav b c name) st rows in
  epub st' = epub st ∧ manifest_items st' = manifest_items st
  ∧ spine_items st' = spine_items st
  ∧ nav_id <$> nav_points (toc_nav st')
    = (nav_id <$> nav_points (toc_nav st)) ++ (verse_nav_id b c <$> rows)
  ∧ (counted st → counted st').
Proof.
  revert st. induction rows as [|row rows IH]; intros st; simpl.
  { by rewrite app_nil_r. }
  destruct (IH (verse_nav b c name st row)) as (He & Hm & Hs & Hn & Hc).
  rewrite He, Hm, Hs, Hn. do 3 (split; [done|]). split.
  - unfold verse_nav. simpl. rewrite nav_points_app, fmap_app. simpl.
    by rewrite <- (assoc_L (++)).
  - intros Hst. apply Hc. unfold verse_nav. by apply counted_nav.
Qed.

Lemma chapter_step_spec verses xf xt b name first links c st st' :
  chapter_step verses xf xt b name first links c st = Some st' →
  grows st st' ["OEBPS/" +:+ chapter_fname b c]
    [ManifestItem (chapter_item_id b c) (chapter_fname b c)]
    [chapter_item_id b c] (chapter_nav_ids verses b c)
  ∧ (counted st → counted st').
Proof.
  unfold chapter_step, chapter_nav_ids, rows_of.
  destruct (verses !! b ≫= (.!! c)) as [rows|]; simpl; [|done].
  intros [= <-].
  match goal with
  | |- context [foldl _ ?s rows] =>
      destruct (verse_loop_spec b c name rows s) as (He & Hm & Hs & Hn & Hc)
  end.
  split.
  - unfold grows. simpl. rewrite He, Hm, Hs. simpl.
    rewrite fmap_app. repeat split; try done.
    rewrite nav_points_app, fmap_app, Hn. simpl.
    rewrite nav_points_app, fmap_app. simpl.
    by rewrite app_nil_r, <- (assoc_L (++)).
  - intros Hst. apply counted_end, Hc. by apply counted_nav.
Qed.

Lemma chapter_loop_spec verses xf xt b name first links cs st st' :
  for_each (chapter_step verses xf xt b name first links) cs st = Some st' →
  grows st st' ((λ c, "OEBPS/" +:+ chapter_fname b c) <$> cs)
    ((λ c, ManifestItem (chapter_item_id b c) (chapter_fname b c)) <$> cs)
    (chapter_item_id b <$> cs) (cs ≫= chapter_nav_ids verses b)
  ∧ (counted st → counted st').
Proof.
  revert st. induction cs as [|c cs IH]; intros st; simpl.
  { intros [= <-]. split; [apply grows_refl|done]. }
  destruct (chapter_step _ _ _ _ _ _ _ c st) as [st1|] eqn:E; simpl; [|done].
  intros H. apply chapter_step_spec in E as [Hg1 Hc1].
  apply IH in H as [Hg2 Hc2]. split; [|by intros ?; apply Hc2, Hc1].
  apply (grows_trans _ _ _ _ _ _ _ _ _ _ _ Hg1 Hg2).
Qed.

Lemma name_truthy_Some books b :
  name_truthy (books !! b) = true ↔
  ∃ a s, books !! b = Some (String a s).
Proof.
  unfold name_truthy. destruct (books !! b) as [[|a s]|]; split; try done;
    try by intros (? & ? & ?). eauto.
Qed.

Lemma book_step_spec books verses xf xt b st st' :
  book_step books verses xf xt b st = Some st' →
  let cs := if name_truthy (books !! b) then chapters_of verses b else [] in
  grows st st' ((λ c, "OEBPS/" +:+ chapter_fname b c) <$> cs)
    ((λ c, ManifestItem (chapter_item_id b c) (chapter_fname b c)) <$> cs)
    (chapter_item_id b <$> cs)
    (if name_truthy (books !! b) then book_nav_ids verses b else [])
  ∧ (counted st → counted st').
Proof.
  unfold book_step, chapters_of, book_nav_ids, chapters_of.
  destruct (books !! b) as [[|a name]|] eqn:Hb; simpl;
    try (intros [= <-]; split; [apply grows_refl|done]).
  destruct (verses !! b) as [chs|]; simpl; [|done].
  destruct (head (sorted_keys chs)) as [first|]; simpl; [|done].
  match goal with
  | |- context [for_each ?f ?l ?s] =>
      destruct (for_each f l s) as [st1|] eqn:E; simpl; [|done]
  end.
  intros [= <-]. apply chapter_loop_spec in E as [(Hf & Hi & Hr & Hn) Hc].
  split.
  - unfold grows. simpl in *. rewrite Hf, Hi, Hr. repeat split; try done.
    rewrite nav_points_app, fmap_app, Hn. simpl.
    rewrite nav_points_app, fmap_app. simpl.
    by rewrite app_nil_r, <- (assoc_L (++)).
  - intros Hst. apply counted_end, Hc. by apply counted_nav.
Qed.

Lemma book_loop_spec books verses xf xt bs st st' :
  for_each (book_step books verses xf xt) bs st = Some st' →
  let ems := filter (λ b, name_truthy (books !! b) = true) bs in
  let chapters := ems ≫= λ b, (b,.) <$> chapters_of verses b in
  grows st st'
    ((λ bc, "OEBPS/" +:+ chapter_fname bc.1 bc.2) <$> chapters)
    ((λ bc, ManifestItem (chapter_item_id bc.1 bc.2) (chapter_fname bc.1 bc.2))
       <$> chapters)
    ((λ bc, chapter_item_id bc.1 bc.2) <$> chapters)
    (ems ≫= book_nav_ids verses)
  ∧ (counted st → counted st').
Proof.
  revert st. induction bs as [|b bs IH]; intros st; simpl.
  { intros [= <-]. split; [apply grows_refl|done]. }
  destruct (book_step _ _ _ _ b st) as [st1|] eqn:E; simpl; [|done].
  intros H. apply book_step_spec in E as [Hg1 Hc1].
  apply IH in H as [Hg2 Hc2]. split; [|by intros ?; apply Hc2, Hc1].
  pose proof (grows_trans _ _ _ _ _ _ _ _ _ _ _ Hg1 Hg2) as Hg.
  rewrite filter_cons. destruct (name_truthy (books !! b)).
  - rewrite decide_True by done. rewrite !bind_cons, !fmap_app.
    rewrite <- !list_fmap_compose. exact Hg.
  - rewrite decide_False by done. exact Hg.
Qed.

End run_facts.

(** ** The cross-reference page and the whole run *)

Section assemble_facts.
Implicit Types (st : state) (books : books_t) (verses : verses_t).
Implicit Types (xf xt : option xrefs_t).

Lemma xrefs_truthy_key x :
  xrefs_truthy x = true → ∃ m k, x = Some m ∧ is_Some (m !! k).
Proof.
  unfold xrefs_truthy. destruct x as [m|]; [|done].
  intros Hm%negb_true_iff%bool_decide_eq_false.
  destruct (map_choose m Hm) as (k & v & Hk). eauto.
Qed.

Lemma all_xref_verses_nonempty xf xt :
  xref_page_made xf xt = true → all_xref_verses xf xt ≠ ∅.
Proof.
  unfold xref_page_made, all_xref_verses.
  intros [H|H]%orb_true_iff; rewrite H;
    destruct (xrefs_truthy_key _ H) as (m & k & -> & Hk);
    apply elem_of_dom in Hk; simpl; set_solver.
Qed.

Lemma generate_cross_reference_section_made books xf xt :
  generate_cross_reference_section books xf xt
  = if xref_page_made xf xt
    then Some (Str.concat (xref_content books xf xt)) else None.
Proof.
  unfold generate_cross_reference_section.
  pose proof (all_xref_verses_nonempty xf xt) as Hne.
  unfold xref_page_made in *.
  destruct (xrefs_truthy xf), (xrefs_truthy xt); simpl in *; try done;
    by rewrite bool_decide_eq_false_2 by auto.
Qed.

Lemma xref_content_nonempty books xf xt :
  ∃ a s, Str.concat (xref_content books xf xt) = String a s.
Proof. unfold xref_content. simpl. rewrite str_app_cons. eauto. Qed.

Lemma xref_step_spec books xf xt st :
  xref_step books xf xt st
  = if xref_page_made xf xt then
      toc_append
        (Nav {| nav_id := "x"; nav_play_order := play_order st;
                nav_label := "Cross References"; nav_src := "x.html#c";
                nav_closed := true |})
        (spine_append "xrefs"
           (manifest_append (ManifestItem "xrefs" "x.html")
              (writestr "OEBPS/x.html"
                 (Str.concat (xref_content books xf xt)) st)))
    else st.
Proof.
  unfold xref_step. rewrite generate_cross_reference_section_made.
  destruct (xref_page_made xf xt); [|done].
  by destruct (xref_content_nonempty books xf xt) as (a & s & ->).
Qed.

Lemma assemble_spec books verses xf xt st :
  assemble books verses xf xt = Some st →
  let made := xref_page_made xf xt in
  let chapters := emitted_chapters books verses in
  (epub st).*1
  = ["mimetype"; "META-INF/container.xml"; "OEBPS/styles.css"; "OEBPS/i.html"]
    ++ ((λ bc, "OEBPS/" +:+ chapter_fname bc.1 bc.2) <$> chapters)
    ++ (if made then ["OEBPS/x.html"] else [])
  ∧ manifest_items st
    = [ManifestItem "index" "i.html"]
      ++ ((λ bc, ManifestItem (chapter_item_id bc.1 bc.2)
                   (chapter_fname bc.1 bc.2)) <$> chapters)
      ++ (if made then [ManifestItem "xrefs" "x.html"] else [])
  ∧ spine_items st
    = ["index"] ++ ((λ bc, chapter_item_id bc.1 bc.2) <$> chapters)
      ++ (if made then ["xrefs"] else [])
  ∧ nav_id <$> nav_points (toc_nav st)
    = nav_traversal books verses ++ (if made then ["x"] else [])
  ∧ nav_play_order <$> nav_points (toc_nav st)
    = seqZ 1 (Z.of_nat (length (nav_points (toc_nav st)))).
Proof.
  unfold assemble, assemble_books.
  destruct (book_list books verses) as [bl|]; simpl; [|done].
  match goal with
  | |- context [for_each ?f ?l ?s] =>
      destruct (for_each f l s) as [st1|] eqn:E; simpl; [|done]
  end.
  intros [= <-]. apply book_loop_spec in E as [(Hf & Hi & Hr & Hn) Hc].
  destruct Hc as [Hseq Hpo]; [by split|].
  simpl in Hf, Hi, Hr, Hn. rewrite xref_step_spec.
  fold (emitted_books books verses) in Hf, Hi, Hr, Hn.
  fold (emitted_chapters books verses) in Hf, Hi, Hr.
  fold (nav_traversal books verses) in Hn.
  destruct (xref_page_made xf xt); simpl.
  - rewrite fmap_app, Hf, Hi, Hr, nav_points_app, !fmap_app, Hn, Hseq.
    simpl. rewrite length_app, Nat.add_1_r, seqZ_S, Hpo. done.
  - rewrite Hf, Hi, Hr, Hn, Hseq, !app_nil_r. done.
Qed.

End assemble_facts.

(** ** The emitted books and chapters *)

Section emitted_facts.
Implicit Types (books : books_t) (verses : verses_t) (b c : Z).

Lemma elem_of_emitted_books books verses b :
  b ∈ emitted_books books verses
  ↔ name_truthy (books !! b) = true ∧ is_Some (verses !! b).
Proof.
  unfold emitted_books. by rewrite list_elem_of_filter, elem_of_sorted_keys.
Qed.

Lemma StronglySorted_filter {A} (R : relation A) (P : A → Prop)
    `{∀ x, Decision (P x)} (l : list A) :
  StronglySorted R l → StronglySorted R (filter P l).
Proof.
  induction 1 as [|x l Hl IH Hx]; [constructor|]. rewrite filter_cons.
  case_decide; [|done]. constructor; [done|].
  apply Forall_forall. intros y [_ Hy]%list_elem_of_filter.
  rewrite Forall_forall in Hx. auto.
Qed.

Lemma Sorted_emitted_books books verses :
  StronglySorted Z.lt (emitted_books books verses).
Proof. apply StronglySorted_filter, Sorted_sorted_keys. Qed.

Lemma NoDup_emitted_books books verses : NoDup (emitted_books books verses).
Proof. apply NoDup_filter, NoDup_sorted_keys. Qed.

Lemma elem_of_emitted_chapters books verses b c :
  (b, c) ∈ emitted_chapters books verses
  ↔ b ∈ emitted_books books verses ∧ c ∈ chapters_of verses b.
Proof.
  unfold emitted_chapters. rewrite list_elem_of_bind. split.
  - intros (b' & Hc & Hb). apply list_elem_of_fmap in Hc as (c' & [= -> ->] & Hc).
    done.
  - intros [Hb Hc]. exists b. split; [|done]. by apply list_elem_of_fmap_2.
Qed.

Lemma NoDup_emitted_chapters books verses :
  NoDup (emitted_chapters books verses).
Proof.
  apply NoDup_bind.
  - intros b1 b2 [b c] _ _ H1 H2.
    apply list_elem_of_fmap in H1 as (? & [= -> ->] & _).
    by apply list_elem_of_fmap in H2 as (? & [= -> ->] & _).
  - intros b _. apply NoDup_fmap_2; [|apply NoDup_sorted_keys].
    by intros ?? [= ->].
  - apply NoDup_emitted_books.
Qed.

Lemma Sorted_seqZ m (n : nat) : StronglySorted Z.lt (seqZ m (Z.of_nat n)).
Proof.
  induction n as [|n IH]; [constructor|]. rewrite seqZ_S.
  apply StronglySorted_app_2; [|done|repeat constructor].
  intros x1 x2 Hx1%elem_of_seqZ ->%list_elem_of_singleton. lia.
Qed.

Lemma count_if_NoDup {A B} `{EqDecision B} (f : A → B) (l : list A) (x : A) :
  NoDup (f <$> l) → x ∈ l → count_if (λ y, f y = f x) l = 1%nat.
Proof.
  unfold count_if. induction l as [|y l IH]; [by intros _ ?%elem_of_nil|].
  rewrite fmap_cons, NoDup_cons, filter_cons. intros [Hy Hnd] Hx.
  case_decide as Hyx.
  - simpl. f_equal.
    destruct (filter (λ y, f y = f x) l) as [|z t] eqn:E; [done|].
    assert (z ∈ filter (λ y, f y = f x) l) as Hz by (rewrite E; left).
    apply list_elem_of_filter in Hz as [Hz1 Hz2].
    destruct Hy. rewrite Hyx, <- Hz1. by apply list_elem_of_fmap_2.
  - apply elem_of_cons in Hx as [->|Hx]; [done|]. by apply IH.
Qed.

End emitted_facts.

(** ** The package files *)

Lemma epub_members_Some (books : books_t) (verses : verses_t)
    (title uuid : string) (xf xt : option xrefs_t) files :
  epub_members books verses title uuid xf xt = Some files
  ↔ ∃ st, assemble books verses xf xt = Some st
          ∧ files
            = epub st
              ++ [("OEBPS/content.opf",
                   CONTENT_OPF title uuid
                     (Str.concat (render_item <$> manifest_items st))
                     (Str.concat (render_itemref <$> spine_items st)));
                  ("OEBPS/toc.ncx",
                   Str.concat ([TOC_NCX_HEAD title uuid]
                               ++ (render_nav <$> toc_nav st)
                               ++ [TOC_NCX_TEMPLATE_TAIL]))].
Proof.
  unfold epub_members.
  destruct (assemble books verses xf xt) as [st|]; simpl.
  - split.
    + intros [= <-]. exists st. split; [done|].
      by rewrite <- (assoc_L (++)).
    + intros (st' & [= <-] & ->). by rewrite <- (assoc_L (++)).
  - split; [done|]. by intros (? & ? & _).
Qed.

(** ** The archive *)

Section archive_facts.
Implicit Types (fs : filesystem) (books : books_t) (verses : verses_t).
Implicit Types (xf xt : option xrefs_t).

Lemma create_epub_spec fs books verses (output_path title uuid : string)
    xf xt :
  create_epub fs books verses output_path title uuid xf xt
  = members ← epub_members books verses title uuid xf xt;
    if archive_accepts fs output_path members then Some members else None.
Proof.
  unfold create_epub, archive_accepts.
  destruct (fs_open fs output_path); simpl.
  - by destruct (epub_members books verses title uuid xf xt).
  - by destruct (epub_members books verses title uuid xf xt).
Qed.

Lemma create_epub_Some fs books verses (output_path title uuid : string)
    xf xt (files : list (string * string)) :
  create_epub fs books verses output_path title uuid xf xt = Some files
  ↔ epub_members books verses title uuid xf xt = Some files
    ∧ archive_accepts fs output_path files = true.
Proof.
  rewrite create_epub_spec.
  destruct (epub_members books verses title uuid xf xt) as [members|]; simpl.
  - destruct (archive_accepts fs output_path members) eqn:E.
    + split; [by intros [= <-]|]. by intros [[= <-] _].
    + split; [done|]. intros [[= <-] H]. by rewrite E in H.
  - split; [done|]. by intros [? _].
Qed.

Lemma create_epub_members fs books verses (output_path title uuid : string)
    xf xt (files : list (string * string)) :
  create_epub fs books verses output_path title uuid xf xt = Some files →
  epub_members books verses title uuid xf xt = Some files.
Proof. by intros [? _]%create_epub_Some. Qed.

Lemma writes_ok_writable (output_path : string)
    (written todo : list (string * string)) :
  writes_ok writable output_path written todo = true.
Proof.
  revert written. induction todo as [|m todo IH]; intros written; [done|].
  simpl. apply IH.
Qed.

Lemma create_epub_writable books verses (output_path title uuid : string)
    xf xt :
  create_epub writable books verses output_path title uuid xf xt
  = epub_members books verses title uuid xf xt.
Proof.
  rewrite create_epub_spec.
  destruct (epub_members books verses title uuid xf xt) as [members|];
    [|done].
  simpl. unfold archive_accepts. by rewrite writes_ok_writable.
Qed.

End archive_facts.

(** ** Play order *)

(** C1.  In the navigation tree that [create_epub] writes, the node at
    position k of the document order carries play order k: the play orders
    are 1, 2, ..., N for the N nodes, so they are a permutation of 1..N
    without repeats and strictly increasing.  The document order is the
    pre-order traversal: the books that have a name by ascending id, each
    followed by its chapters in ascending order, each chapter followed by
    its verses in the order of the source, and the cross-reference node
    last when the cross-reference page is made. *)
Theorem play_order_follows_traversal (fs : filesystem) (books : books_t) (verses : verses_t)
    (output_path title uuid : string) (xf xt : option xrefs_t) files :
  create_epub fs books verses output_path title uuid xf xt = Some files →
  ∃ st,
    assemble books verses xf xt = Some st
    ∧ ("OEBPS/toc.ncx",
       Str.concat ([TOC_NCX_HEAD title uuid] ++ (render_nav <$> toc_nav st)
                   ++ [TOC_NCX_TEMPLATE_TAIL])) ∈ files
    ∧ let points := nav_points (toc_nav st) in
      let orders := nav_play_order <$> points in
      orders = seqZ 1 (Z.of_nat (length points))
      ∧ orders ≡ₚ seqZ 1 (Z.of_nat (length points))
      ∧ NoDup orders
      ∧ StronglySorted Z.lt orders
      ∧ nav_id <$> points
        = nav_traversal books verses
          ++ (if xref_page_made xf xt then ["x"] else [])
      ∧ StronglySorted Z.lt (emitted_books books verses)
      ∧ ∀ b, StronglySorted Z.lt (chapters_of verses b).
Proof.
  intros Hrun%create_epub_members. revert Hrun.
  intros (st & Hst & ->)%epub_members_Some. exists st. split; [done|].
  split. { apply elem_of_app. right. right. left. }
  destruct (assemble_spec _ _ _ _ _ Hst) as (_ & _ & _ & Hids & Hseq).
  simpl. rewrite Hseq. split_and!; try done.
  - apply NoDup_seqZ.
  - apply Sorted_seqZ.
  - apply Sorted_emitted_books.
  - intros b. apply Sorted_sorted_keys.
Qed.

Lemma play_order_follows_traversal_witness :
  ∃ files st,
    create_epub writable demo_books demo_verses "out.epub" "T" "U" demo_xrefs_from demo_xrefs_to
    = Some files
    ∧ assemble demo_books demo_verses demo_xrefs_from demo_xrefs_to = Some st
    ∧ nav_play_order <$> nav_points (toc_nav st)
      = seqZ 1 (Z.of_nat (length (nav_points (toc_nav st)))).
Proof.
  eassert (create_epub writable demo_books demo_verses "out.epub" "T" "U" demo_xrefs_from
             demo_xrefs_to = Some _) as H by (vm_compute; reflexivity).
  destruct (play_order_follows_traversal _ _ _ _ _ _ _ _ _ H)
    as (st & Hst & _ & Hseq & _).
  exact (ex_intro _ _ (ex_intro _ st (conj H (conj Hst Hseq)))).
Defined.

(** ** Manifest and spine *)

Section manifest_facts.
Implicit Types (books : books_t) (verses : verses_t) (b c : Z) (s : string).

Lemma chapter_path_eq b c :
  "OEBPS/" +:+ chapter_fname b c
  = String "O" (String "E" (String "B" (String "P" (String "S" (String "/"
      (String "b" (Str.of_Z b +:+ "c" +:+ Str.of_Z c +:+ ".html"))))))).
Proof. reflexivity. Qed.

Lemma chapter_fname_eq b c :
  chapter_fname b c = String "b" (Str.of_Z b +:+ "c" +:+ Str.of_Z c +:+ ".html").
Proof. reflexivity. Qed.

Lemma NoDup_framed (g : Z → Z → string) (pre post : list string)
    (l : list (Z * Z)) :
  NoDup l →
  (∀ b1 c1 b2 c2, g b1 c1 = g b2 c2 → b1 = b2 ∧ c1 = c2) →
  (∀ s b c, s ∈ pre ++ post → s ≠ g b c) →
  NoDup (pre ++ post) →
  NoDup (pre ++ ((λ bc, g bc.1 bc.2) <$> l) ++ post).
Proof.
  intros Hl Hinj Hlit Hpp.
  apply NoDup_app in Hpp as (Hpre & Hdisj & Hpost).
  apply NoDup_app. split; [done|]. split.
  - intros s Hs [Hin|Hin]%elem_of_app; [|by eapply Hdisj].
    apply list_elem_of_fmap in Hin as ([b c] & -> & _).
    eapply Hlit; [|done]. apply elem_of_app. by left.
  - apply NoDup_app. split; [|split; [|done]].
    + apply NoDup_fmap_2_strong; [|done].
      intros [b1 c1] [b2 c2] _ _ Heq. simpl in Heq.
      by apply Hinj in Heq as [-> ->].
    + intros s ([b c] & -> & _)%list_elem_of_fmap Hin.
      eapply Hlit; [|done]. apply elem_of_app. by right.
Qed.

Lemma letter_not_item_id s b c :
  match s with
  | String a _ => Chr.is_digit a = false ∧ a ≠ "-"%char
  | EmptyString => True
  end →
  s ≠ chapter_item_id b c.
Proof.
  destruct (chapter_item_id_first b c) as (a & r & -> & Ha).
  destruct s as [|a' s]; [done|]. intros [Hd Hm] [= -> _].
  destruct Ha as [Ha| ->]; [by rewrite Ha in Hd|done].
Qed.

End manifest_facts.

(** C2.  In every package that [create_epub] produces, the manifest item
    ids (the two of the template included) are pairwise different; every
    spine entry names a manifest item; every chapter page in the archive
    has exactly one manifest item, which carries the chapter's id, and
    exactly one spine entry; and the spine is the index page, then the
    chapters of each book that has a name, books and chapters both in
    ascending order, then the cross-reference page when it is made. *)
Theorem manifest_and_spine_consistent (fs : filesystem) (books : books_t) (verses : verses_t)
    (output_path title uuid : string) (xf xt : option xrefs_t) files :
  create_epub fs books verses output_path title uuid xf xt = Some files →
  ∃ st,
    assemble books verses xf xt = Some st
    ∧ ("OEBPS/content.opf",
       CONTENT_OPF title uuid
         (Str.concat (render_item <$> manifest_items st))
         (Str.concat (render_itemref <$> spine_items st))) ∈ files
    ∧ NoDup (template_item_ids ++ (item_id <$> manifest_items st))
    ∧ (∀ idref, idref ∈ spine_items st → idref ∈ item_id <$> manifest_items st)
    ∧ (∀ b c,
         ("OEBPS/" +:+ chapter_fname b c) ∈ files.*1 →
         count_if (λ i, item_href i = chapter_fname b c) (manifest_items st)
         = 1%nat
         ∧ ManifestItem (chapter_item_id b c) (chapter_fname b c)
           ∈ manifest_items st
         ∧ count_if (λ r, r = chapter_item_id b c) (spine_items st) = 1%nat)
    ∧ spine_items st
      = ["index"]
        ++ ((λ bc, chapter_item_id bc.1 bc.2) <$> emitted_chapters books verses)
        ++ (if xref_page_made xf xt then ["xrefs"] else [])
    ∧ (xref_page_made xf xt = true ↔ "OEBPS/x.html" ∈ files.*1)
    ∧ StronglySorted Z.lt (emitted_books books verses)
    ∧ ∀ b, StronglySorted Z.lt (chapters_of verses b).
Proof.
  intros Hrun%create_epub_members. revert Hrun.
  intros (st & Hst & ->)%epub_members_Some. exists st. split; [done|].
  split. { apply elem_of_app. right. left. }
  destruct (assemble_spec _ _ _ _ _ Hst) as (Hf & Hi & Hr & _ & _).
  simpl in Hf, Hi, Hr.
  pose proof (NoDup_emitted_chapters books verses) as Hnd.
  set (chapters := emitted_chapters books verses) in *.
  assert (item_id <$> manifest_items st = spine_items st) as Hids.
  { rewrite Hi, Hr. rewrite fmap_cons, fmap_app, <- list_fmap_compose.
    by destruct (xref_page_made xf xt). }
  assert (NoDup (spine_items st)) as Hnd_spine.
  { rewrite Hr.
    apply (NoDup_framed chapter_item_id ["index"]); [done|..].
    - apply chapter_item_id_inj.
    - intros s b c Hs. apply letter_not_item_id.
      destruct (xref_page_made xf xt); set_unfold;
        by destruct Hs as [->|[->|[]]] || destruct Hs as [->|[]].
    - destruct (xref_page_made xf xt); repeat constructor; set_solver. }
  assert (NoDup (item_href <$> manifest_items st)) as Hnd_href.
  { rewrite Hi, fmap_cons, fmap_app, <- list_fmap_compose.
    replace (item_href <$> (if xref_page_made xf xt
                            then [ManifestItem "xrefs" "x.html"] else []))
      with (if xref_page_made xf xt then ["x.html"] else [])
      by (by destruct (xref_page_made xf xt)).
    apply (NoDup_framed chapter_fname ["i.html"]); [done|..].
    - apply chapter_fname_inj.
    - intros s b c Hs. rewrite chapter_fname_eq.
      destruct (xref_page_made xf xt); set_unfold;
        by destruct Hs as [->|[->|[]]] || destruct Hs as [->|[]].
    - destruct (xref_page_made xf xt); repeat constructor; set_solver. }
  assert (∀ lit, lit ∈ ["ncx"; "css"] → lit ∉ spine_items st) as Hlit.
  { intros lit Hlit. rewrite Hr.
    intros [Hin|[Hin|Hin]%elem_of_app]%elem_of_cons.
    - set_solver.
    - apply list_elem_of_fmap in Hin as ([b c] & Heq & _).
      revert Heq. apply letter_not_item_id. set_unfold.
      by destruct Hlit as [->|[->|[]]].
    - destruct (xref_page_made xf xt); set_solver. }
  split_and!.
  - rewrite Hids. unfold template_item_ids.
    apply NoDup_cons. split.
    { intros [Hin|Hin]%elem_of_cons; [done|].
      revert Hin. apply Hlit. set_solver. }
    apply NoDup_cons. split; [|done]. apply Hlit. set_solver.
  - intros idref. by rewrite Hids.
  - intros b c Hin.
    assert ((b, c) ∈ chapters) as Hbc.
    { rewrite fmap_app, Hf in Hin. rewrite chapter_path_eq in Hin.
      rewrite elem_of_app, !elem_of_cons, elem_of_app in Hin.
      destruct Hin as [[?|[?|[?|[?|[Hin|Hin]]]]]|Hin]; try done.
      - apply list_elem_of_fmap in Hin as ([b' c'] & Heq & Hin).
        rewrite chapter_path_eq in Heq. injection Heq as Heq.
        apply of_Z_head in Heq as [-> Heq]; [|done..].
        injection Heq as Heq. by apply of_Z_head in Heq as [-> _].
      - destruct (xref_page_made xf xt); set_solver.
      - set_solver. }
    assert (ManifestItem (chapter_item_id b c) (chapter_fname b c)
            ∈ manifest_items st) as Hitem.
    { rewrite Hi. right. apply elem_of_app. left.
      by apply (list_elem_of_fmap_2' _ _ (b, c)). }
    split_and!; [|done|].
    + by apply (count_if_NoDup item_href _ _ Hnd_href Hitem).
    + apply (count_if_NoDup id (spine_items st) (chapter_item_id b c)).
      * by rewrite list_fmap_id.
      * rewrite <- Hids. by apply (list_elem_of_fmap_2' _ _ _ _ Hitem).
  - done.
  - rewrite fmap_app, Hf. destruct (xref_page_made xf xt); [set_solver|].
    split; [done|]. rewrite app_nil_r.
    rewrite elem_of_app, !elem_of_cons.
    intros [[?|[?|[?|[?|Hin]]]]|?]; try done; [|set_solver].
    apply list_elem_of_fmap in Hin as ([b c] & Heq & _).
    by rewrite chapter_path_eq in Heq.
  - apply Sorted_emitted_books.
  - intros b. apply Sorted_sorted_keys.
Qed.

Lemma manifest_and_spine_consistent_witness :
  ∃ files st,
    create_epub writable demo_books demo_verses "out.epub" "T" "U" demo_xrefs_from demo_xrefs_to
    = Some files
    ∧ assemble demo_books demo_verses demo_xrefs_from demo_xrefs_to = Some st
    ∧ NoDup (template_item_ids ++ (item_id <$> manifest_items st)).
Proof.
  eassert (create_epub writable demo_books demo_verses "out.epub" "T" "U" demo_xrefs_from
             demo_xrefs_to = Some _) as H by (vm_compute; reflexivity).
  destruct (manifest_and_spine_consistent _ _ _ _ _ _ _ _ _ H)
    as (st & Hst & _ & Hnd & _).
  exact (ex_intro _ _ (ex_intro _ st (conj H (conj Hst Hnd)))).
Defined.

(** ** The contents of the package *)

Section content_facts.
Implicit Types (st : state) (books : books_t) (verses : verses_t).
Implicit Types (xf xt : option xrefs_t) (b c : Z).

Lemma extends_refl st : extends st st [] [].
Proof. unfold extends. by rewrite !app_nil_r. Qed.

Lemma extends_trans st1 st2 st3 f1 n1 f2 n2 :
  extends st1 st2 f1 n1 → extends st2 st3 f2 n2 →
  extends st1 st3 (f1 ++ f2) (n1 ++ n2).
Proof.
  intros (Hf1 & Hn1) (Hf2 & Hn2). unfold extends.
  rewrite Hf2, Hn2, Hf1, Hn1. by rewrite <- !(assoc_L (++)).
Qed.

Lemma verse_loop_links b c name rows st :
  nav_link <$> nav_points (toc_nav (foldl (verse_nav b c name) st rows))
  = (nav_link <$> nav_points (toc_nav st)) ++ (verse_link name b c <$> rows).
Proof.
  revert st. induction rows as [|row rows IH]; intros st; simpl.
  { by rewrite app_nil_r. }
  rewrite IH. unfold verse_nav. simpl.
  rewrite nav_points_app, fmap_app. simpl. by rewrite <- (assoc_L (++)).
Qed.

Lemma chapter_step_content verses xf xt b name first links c st st' :
  chapter_step verses xf xt b name first links c st = Some st' →
  extends st st' [page_of verses xf xt b name first links c]
          (chapter_nav_links verses name b c).
Proof.
  unfold chapter_step, chapter_nav_links, page_of, rows_of.
  destruct (verses !! b ≫= (.!! c)) as [rows|]; simpl; [|done].
  intros [= <-].
  match goal with
  | |- context [foldl _ ?s rows] =>
      destruct (verse_loop_spec b c name rows s) as (He & _);
      pose proof (verse_loop_links b c name rows s) as Hn
  end.
  unfold extends. simpl. rewrite He. simpl. split; [done|].
  rewrite nav_points_app, fmap_app, Hn. simpl.
  rewrite nav_points_app, fmap_app. simpl.
  by rewrite app_nil_r, <- (assoc_L (++)).
Qed.

Lemma chapter_loop_content verses xf xt b name first links cs st st' :
  for_each (chapter_step verses xf xt b name first links) cs st = Some st' →
  extends st st' (page_of verses xf xt b name first links <$> cs)
          (cs ≫= chapter_nav_links verses name b).
Proof.
  revert st. induction cs as [|c cs IH]; intros st; simpl.
  { intros [= <-]. apply extends_refl. }
  destruct (chapter_step _ _ _ _ _ _ _ c st) as [st1|] eqn:E; simpl; [|done].
  intros H. apply chapter_step_content in E. apply IH in H.
  apply (extends_trans _ _ _ _ _ _ _ E H).
Qed.

Lemma book_step_content books verses xf xt b st st' :
  book_step books verses xf xt b st = Some st' →
  extends st st'
    (if name_truthy (books !! b)
     then chapter_page books verses xf xt <$> ((b,.) <$> chapters_of verses b)
     else [])
    (if name_truthy (books !! b) then book_nav_links books verses b else []).
Proof.
  unfold book_step, book_nav_links, shown_name, first_chapter, chapters_of.
  destruct (books !! b) as [[|a name]|] eqn:Hb; simpl;
    try (intros [= <-]; apply extends_refl).
  destruct (verses !! b) as [chs|] eqn:Hv; simpl; [|done].
  destruct (head (sorted_keys chs)) as [first|] eqn:Hh; simpl; [|done].
  match goal with
  | |- context [for_each ?f ?l ?s] =>
      destruct (for_each f l s) as [st1|] eqn:E; simpl; [|done]
  end.
  intros [= <-]. apply chapter_loop_content in E as (Hf & Hn).
  unfold extends. simpl in *. rewrite Hf. split.
  - rewrite <- list_fmap_compose. f_equal. apply list_fmap_ext.
    intros i c _. unfold chapter_page, shown_name, first_chapter,
      chapter_links, chapters_of. simpl. rewrite Hb, Hv. simpl.
    by rewrite Hh.
  - rewrite nav_points_app, fmap_app, Hn. simpl.
    rewrite nav_points_app, fmap_app. simpl.
    by rewrite app_nil_r, <- (assoc_L (++)).
Qed.

Lemma book_loop_content books verses xf xt bs st st' :
  for_each (book_step books verses xf xt) bs st = Some st' →
  let ems := filter (λ b, name_truthy (books !! b) = true) bs in
  extends st st'
    (chapter_page books verses xf xt
       <$> (ems ≫= λ b, (b,.) <$> chapters_of verses b))
    (ems ≫= book_nav_links books verses).
Proof.
  revert st. induction bs as [|b bs IH]; intros st; simpl.
  { intros [= <-]. apply extends_refl. }
  destruct (book_step _ _ _ _ b st) as [st1|] eqn:E; simpl; [|done].
  intros H. apply book_step_content in E. apply IH in H.
  pose proof (extends_trans _ _ _ _ _ _ _ E H) as Hg.
  rewrite filter_cons. destruct (name_truthy (books !! b)).
  - rewrite decide_True by done. rewrite !bind_cons, !fmap_app. exact Hg.
  - rewrite decide_False by done. exact Hg.
Qed.

Lemma assemble_content books verses xf xt st :
  assemble books verses xf xt = Some st →
  ∃ bl,
    book_list books verses = Some bl
    ∧ epub st
      = [("mimetype", "application/epub+zip");
         ("META-INF/container.xml", minify CONTAINER_XML);
         ("OEBPS/styles.css", GLOBAL_CSS);
         ("OEBPS/i.html", index_page bl)]
        ++ (chapter_page books verses xf xt <$> emitted_chapters books verses)
        ++ (if xref_page_made xf xt
            then [("OEBPS/x.html", Str.concat (xref_content books xf xt))]
            else [])
    ∧ nav_link <$> nav_points (toc_nav st)
      = (emitted_books books verses ≫= book_nav_links books verses)
        ++ (if xref_page_made xf xt
            then [("Cross References", "x.html#c")] else []).
Proof.
  unfold assemble, assemble_books.
  destruct (book_list books verses) as [bl|]; simpl; [|done].
  match goal with
  | |- context [for_each ?f ?l ?s] =>
      destruct (for_each f l s) as [st1|] eqn:E; simpl; [|done]
  end.
  intros [= <-]. exists bl. split; [done|].
  apply book_loop_content in E as (Hf & Hn). simpl in Hf, Hn.
  fold (emitted_books books verses) in Hf, Hn.
  fold (emitted_chapters books verses) in Hf.
  rewrite xref_step_spec.
  destruct (xref_page_made xf xt); simpl.
  - by rewrite Hf, nav_points_app, fmap_app, Hn.
  - by rewrite Hf, Hn, !app_nil_r.
Qed.

End content_facts.

Section package_facts.
Implicit Types (st : state) (books : books_t) (verses : verses_t).
Implicit Types (xf xt : option xrefs_t) (b c : Z).

Lemma chapter_path_inj b1 c1 b2 c2 :
  "OEBPS/" +:+ chapter_fname b1 c1 = "OEBPS/" +:+ chapter_fname b2 c2 →
  b1 = b2 ∧ c1 = c2.
Proof.
  intros Heq. rewrite !chapter_path_eq in Heq.
  apply chapter_fname_inj. rewrite !chapter_fname_eq.
  injection Heq as Heq. by rewrite Heq.
Qed.

Lemma first_chapter_least verses b c :
  c ∈ chapters_of verses b →
  head (chapters_of verses b) = Some (first_chapter verses b)
  ∧ first_chapter verses b ∈ chapters_of verses b
  ∧ first_chapter verses b ≤ c.
Proof.
  unfold first_chapter. intros Hc.
  pose proof (Sorted_sorted_keys (default ∅ (verses !! b))) as Hs.
  fold (chapters_of verses b) in Hs.
  destruct (chapters_of verses b) as [|c0 cs]; [by apply elem_of_nil in Hc|].
  simpl. split; [done|]. split; [left|].
  apply StronglySorted_inv in Hs as [_ Hall].
  apply elem_of_cons in Hc as [->|Hc]; [done|].
  rewrite Forall_forall in Hall. specialize (Hall _ Hc). lia.
Qed.

Lemma book_list_from_entries books verses bids bl :
  book_list_from books verses bids = Some bl →
  bl = index_entry books verses
         <$> filter (λ b, name_truthy (books !! b) = true) bids.
Proof.
  revert bl. induction bids as [|b bids IH]; intros bl; simpl.
  { by intros [= <-]. }
  rewrite filter_cons.
  destruct (name_truthy (books !! b)) eqn:Hname.
  - rewrite decide_True by done.
    destruct (verses !! b) as [chs|] eqn:Hv; simpl; [|done].
    destruct (head (sorted_keys chs)) as [first|] eqn:Hh; simpl; [|done].
    destruct (books !! b) as [name|] eqn:Hb; simpl; [|done].
    destruct (book_list_from books verses bids) as [rest|]; simpl; [|done].
    intros [= <-]. rewrite (IH rest) by done. simpl. f_equal.
    unfold index_entry, first_chapter, chapters_of.
    rewrite Hv, Hb. simpl. by rewrite Hh.
  - rewrite decide_False by done. apply IH.
Qed.

Lemma package_members books verses title uuid xf xt files name content :
  epub_members books verses title uuid xf xt = Some files →
  (name, content) ∈ files →
  name ∈ ["mimetype"; "META-INF/container.xml"; "OEBPS/styles.css";
          "OEBPS/i.html"; "OEBPS/x.html"; "OEBPS/content.opf";
          "OEBPS/toc.ncx"]
  ∨ ∃ bc, bc ∈ emitted_chapters books verses
          ∧ (name, content) = chapter_page books verses xf xt bc.
Proof.
  intros (st & Hst & ->)%epub_members_Some.
  destruct (assemble_content _ _ _ _ _ Hst) as (bl & _ & Hf & _).
  rewrite Hf. rewrite !elem_of_app, !elem_of_cons.
  intros [[H|[H|H]]|H].
  - left. set_unfold. naive_solver.
  - right. apply list_elem_of_fmap in H as (bc & ? & ?). eauto.
  - left. destruct (xref_page_made xf xt); set_unfold; naive_solver.
  - left. set_unfold. naive_solver.
Qed.

Lemma chapter_member_exists books verses title uuid xf xt files b c :
  epub_members books verses title uuid xf xt = Some files →
  name_truthy (books !! b) = true → c ∈ chapters_of verses b →
  chapter_page books verses xf xt (b, c) ∈ files.
Proof.
  intros (st & Hst & ->)%epub_members_Some Hname Hc.
  assert ((b, c) ∈ emitted_chapters books verses) as Hbc.
  { apply elem_of_emitted_chapters. split; [|done].
    apply elem_of_emitted_books. split; [done|].
    unfold chapters_of in Hc. destruct (verses !! b); [done|].
    simpl in Hc. rewrite sorted_keys_empty in Hc.
    by apply elem_of_nil in Hc. }
  destruct (assemble_content _ _ _ _ _ Hst) as (bl & _ & Hf & _).
  rewrite Hf. apply elem_of_app. left. apply elem_of_app. right.
  apply elem_of_app. left.
  by apply (list_elem_of_fmap_2 (chapter_page books verses xf xt) _ (b, c)).
Qed.

End package_facts.

(** ** When the run raises *)

Section raise_facts.
Implicit Types (st : state) (books : books_t) (verses : verses_t).
Implicit Types (xf xt : option xrefs_t) (b c : Z).

Lemma head_sorted_keys {V} (d : gmap Z V) :
  d ≠ ∅ → is_Some (head (sorted_keys d)).
Proof.
  intros Hd. destruct (sorted_keys d) eqn:E; [|by eexists].
  by apply sorted_keys_nil in E.
Qed.

Lemma chapter_step_is_Some verses xf xt b name first links c st :
  is_Some (verses !! b ≫= (.!! c)) →
  is_Some (chapter_step verses xf xt b name first links c st).
Proof. unfold chapter_step. intros [rows ->]. simpl. by eexists. Qed.

Lemma book_step_is_Some books verses xf xt b st :
  (name_truthy (books !! b) = true →
   ∃ chs, verses !! b = Some chs ∧ chs ≠ ∅) →
  is_Some (book_step books verses xf xt b st).
Proof.
  unfold book_step. intros Hb.
  destruct (books !! b) as [[|a name]|]; try by eexists.
  destruct Hb as (chs & Hchs & Hne); [done|]. rewrite Hchs. simpl.
  destruct (head_sorted_keys chs Hne) as [first ->]. simpl.
  match goal with
  | |- context [for_each ?f ?l ?s] =>
      destruct (for_each_is_Some f l s) as [st' ->]; [|by eexists]
  end.
  intros c st' [rows Hc]%elem_of_sorted_keys.
  apply chapter_step_is_Some. rewrite Hchs. simpl. by rewrite Hc.
Qed.

Lemma book_list_from_is_Some books verses bids :
  (∀ b, b ∈ bids → name_truthy (books !! b) = true →
        ∃ chs, verses !! b = Some chs ∧ chs ≠ ∅) →
  is_Some (book_list_from books verses bids).
Proof.
  induction bids as [|b bids IH]; intros Hb; [by eexists|]. simpl.
  destruct IH as [rest Hrest]. { intros b' Hb'. apply Hb. by right. }
  rewrite Hrest. destruct (name_truthy (books !! b)) eqn:Hname; [|by eexists].
  destruct (Hb b) as (chs & -> & Hne); [left|done|]. simpl.
  destruct (head_sorted_keys chs Hne) as [first ->]. simpl.
  apply name_truthy_Some in Hname as (a & s & ->). simpl. by eexists.
Qed.

Lemma book_list_from_None books verses bids b :
  b ∈ bids → name_truthy (books !! b) = true → verses !! b = Some ∅ →
  book_list_from books verses bids = None.
Proof.
  intros Hin Hname Hb. induction bids as [|b' bids IH]; [by apply elem_of_nil in Hin|].
  simpl. apply elem_of_cons in Hin as [<-|Hin].
  - rewrite Hname, Hb. simpl. by rewrite sorted_keys_empty.
  - rewrite (IH Hin). destruct (name_truthy (books !! b')); [|done].
    destruct (verses !! b') as [chs|]; [|done]. simpl.
    destruct (head (sorted_keys chs)); [|done]. simpl.
    by destruct (books !! b').
Qed.

Lemma assemble_is_Some books verses xf xt :
  has_chapters books verses → is_Some (assemble books verses xf xt).
Proof.
  intros Hwf. unfold assemble, assemble_books, book_list.
  assert (∀ b, b ∈ sorted_keys verses → name_truthy (books !! b) = true →
               ∃ chs, verses !! b = Some chs ∧ chs ≠ ∅) as Hb.
  { intros b [chs Hchs]%elem_of_sorted_keys Hname. exists chs.
    split; [done|]. by apply (Hwf b chs). }
  destruct (book_list_from_is_Some books verses _ Hb) as [bl ->]. simpl.
  match goal with
  | |- context [for_each ?f ?l ?s] =>
      destruct (for_each_is_Some f l s) as [st' ->]; [|by eexists]
  end.
  intros b st' Hin. apply book_step_is_Some. by apply Hb.
Qed.

Lemma assemble_None books verses xf xt b :
  name_truthy (books !! b) = true → verses !! b = Some ∅ →
  assemble books verses xf xt = None.
Proof.
  intros Hname Hb. unfold assemble, assemble_books, book_list.
  rewrite (book_list_from_None books verses _ b); [done| |done..].
  apply elem_of_sorted_keys. by eexists.
Qed.

Lemma fetch_verses_has_chapters books rows :
  has_chapters books (fetch_verses rows).
Proof.
  cut (map_Forall (λ _ (chs : chapters_t), chs ≠ ∅) (fetch_verses rows)).
  { intros H b chs Hb _. by apply (H b chs). }
  unfold fetch_verses.
  cut (∀ acc : verses_t,
         map_Forall (λ _ (chs : chapters_t), chs ≠ ∅) acc →
         map_Forall (λ _ (chs : chapters_t), chs ≠ ∅)
           (foldl fetch_verses_row acc rows)).
  { intros H. apply H, map_Forall_empty. }
  induction rows as [|[[[book chap] verse] text] rows IH]; intros acc Hacc;
    [done|].
  simpl. apply IH. apply map_Forall_insert_2; [|done].
  apply insert_non_empty.
Qed.

Lemma epub_members_is_Some books verses (title uuid : string) xf xt :
  has_chapters books verses →
  is_Some (epub_members books verses title uuid xf xt).
Proof.
  intros [st Hst]%(assemble_is_Some books verses xf xt).
  eexists. apply epub_members_Some. eauto.
Qed.

Lemma epub_members_None books verses (title uuid : string) xf xt :
  epub_members books verses title uuid xf xt = None
  ↔ ∃ b, name_truthy (books !! b) = true ∧ verses !! b = Some ∅.
Proof.
  split.
  - intros Hnone. destruct (decide (has_chapters books verses)) as [Hwf|Hwf].
    { destruct (epub_members_is_Some books verses title uuid xf xt Hwf)
        as [files Hfiles]. by rewrite Hfiles in Hnone. }
    apply map_not_Forall in Hwf as (b & chs & Hb & Hbad); [|apply _].
    exists b. destruct (name_truthy (books !! b)); [|by destruct Hbad].
    split; [done|]. destruct (decide (chs = ∅)) as [->|Hne]; [done|].
    by destruct Hbad.
  - intros (b & Hname & Hb). unfold epub_members.
    by rewrite (assemble_None books verses xf xt b).
Qed.

Lemma emitted_books_empty books verses :
  books = ∅ ∨ verses = ∅ → emitted_books books verses = [].
Proof.
  unfold emitted_books. intros [-> | ->].
  - induction (sorted_keys verses) as [|b l IH]; [done|].
    rewrite filter_cons, IH. by rewrite lookup_empty.
  - unfold sorted_keys. by rewrite map_to_list_empty.
Qed.

End raise_facts.

(** C4, as the program has it.  An empty book mapping or an empty verse
    mapping is no failure for [create_epub]: the run itself never raises
    on such input, and whenever the archive at [output_path] can be
    opened, written and closed the package is produced.  It holds the
    fixed files, the index page with an empty table, the cross-reference
    page when there are cross-references, and the two package files, and
    no chapter page.  On input maps of integer ids, names that are text
    and verse texts that are text or missing, the run ends in the error
    exit in exactly two cases: the verse mapping holds a book that has a
    non-empty name and not a single chapter, or the archive fails, which
    is when it cannot be opened, a member cannot be written, or it cannot
    be closed. *)
Theorem create_epub_aborts_only_without_chapters (fs : filesystem)
    (books : books_t) (verses : verses_t) (output_path title uuid : string)
    (xf xt : option xrefs_t) :
  (books = ∅ ∨ verses = ∅ →
   ∃ members,
     epub_members books verses title uuid xf xt = Some members
     ∧ create_epub fs books verses output_path title uuid xf xt
       = (if archive_accepts fs output_path members
          then Some members else None)
     ∧ members.*1
       = ["mimetype"; "META-INF/container.xml"; "OEBPS/styles.css";
          "OEBPS/i.html"]
         ++ (if xref_page_made xf xt then ["OEBPS/x.html"] else [])
         ++ ["OEBPS/content.opf"; "OEBPS/toc.ncx"]
     ∧ book_list books verses = Some []
     ∧ ("OEBPS/i.html", index_page []) ∈ members)
  ∧ (create_epub fs books verses output_path title uuid xf xt = None
     ↔ (∃ b, name_truthy (books !! b) = true ∧ verses !! b = Some ∅)
       ∨ (∃ members,
            epub_members books verses title uuid xf xt = Some members
            ∧ archive_accepts fs output_path members = false))
  ∧ (∀ members,
       archive_accepts fs output_path members = false
       ↔ fs_open fs output_path = false
         ∨ writes_ok fs output_path [] members = false
         ∨ fs_close fs output_path members = false).
Proof.
  split_and!.
  - intros Hempty.
    pose proof (emitted_books_empty books verses Hempty) as Hnone.
    destruct (epub_members_is_Some books verses title uuid xf xt)
      as [members Hmembers].
    { destruct Hempty as [-> | ->]; intros b chs Hb;
        [|by rewrite lookup_empty in Hb].
      by rewrite lookup_empty. }
    exists members. split; [done|].
    split; [by rewrite create_epub_spec, Hmembers|].
    pose proof Hmembers as (st & Hst & ->)%epub_members_Some.
    destruct (assemble_spec _ _ _ _ _ Hst) as (Hf & _).
    destruct (assemble_content _ _ _ _ _ Hst) as (bl & Hbl & Hc & _).
    pose proof (book_list_from_entries _ _ _ _ Hbl) as Hentries.
    fold (emitted_books books verses) in Hentries.
    rewrite Hnone in Hentries. simpl in Hentries. subst bl.
    unfold emitted_chapters in Hf. rewrite Hnone in Hf. simpl in Hf.
    split_and!; [|done|].
    + rewrite fmap_app, Hf. by destruct (xref_page_made xf xt).
    + rewrite Hc. apply elem_of_app. left. set_solver.
  - rewrite create_epub_spec,
      <- (epub_members_None books verses title uuid xf xt).
    destruct (epub_members books verses title uuid xf xt) as [members|];
      simpl.
    + destruct (archive_accepts fs output_path members) eqn:E.
      * split; [done|]. intros [?|(m & [= <-] & H)]; [done|].
        by rewrite E in H.
      * split; [|done]. intros _. right. eauto.
    + split; [by left|done].
  - intros members. unfold archive_accepts.
    rewrite !andb_false_iff. tauto.
Qed.

Lemma create_epub_aborts_only_without_chapters_witness :
  is_Some (create_epub writable ∅ demo_verses "out.epub" "T" "U" None None)
  ∧ create_epub writable demo_books (<[2 := ∅]> demo_verses) "out.epub"
      "T" "U" None None = None.
Proof.
  split.
  - destruct (proj1 (create_epub_aborts_only_without_chapters writable
                       ∅ demo_verses "out.epub" "T" "U" None None))
      as (members & _ & -> & _); [by left|].
    unfold archive_accepts. rewrite writes_ok_writable. by eexists.
  - apply (proj1 (proj2 (create_epub_aborts_only_without_chapters writable
                           demo_books (<[2 := ∅]> demo_verses) "out.epub"
                           "T" "U" None None))).
    left. exists 2. split; by vm_compute.
Defined.

(** C4, counterexample: with no book at all, and with no verse at all,
    [create_epub] writes a package instead of aborting. *)
Lemma create_epub_empty_input_no_abort :
  create_epub writable ∅ demo_verses "out.epub" "T" "U" None None ≠ None
  ∧ create_epub writable demo_books ∅ "out.epub" "T" "U" None None ≠ None
  ∧ create_epub writable ∅ ∅ "out.epub" "T" "U" None None ≠ None.
Proof. split_and!; by vm_compute. Qed.

(** ** Inputs that lead to the same pages *)

Section same_pages.
Implicit Types (st : state) (books : books_t) (verses : verses_t).
Implicit Types (xf xt : option xrefs_t) (b c : Z).

Lemma sorted_unique_elems (l1 l2 : list Z) :
  StronglySorted Z.lt l1 → StronglySorted Z.lt l2 →
  (∀ x, x ∈ l1 ↔ x ∈ l2) → l1 = l2.
Proof.
  intros H1 H2 Helem. apply (StronglySorted_unique_strong Z.lt); try done.
  - intros x1 x2 _ _ ??. lia.
  - apply NoDup_Permutation; [| |done].
    + clear -H1. induction H1 as [|x l Hl IH Hx]; constructor; [|done].
      rewrite Forall_forall in Hx. intros Hin%Hx. lia.
    + clear -H2. induction H2 as [|x l Hl IH Hx]; constructor; [|done].
      rewrite Forall_forall in Hx. intros Hin%Hx. lia.
Qed.

Lemma sorted_keys_ext {V W} (d1 : gmap Z V) (d2 : gmap Z W) :
  (∀ k, is_Some (d1 !! k) ↔ is_Some (d2 !! k)) →
  sorted_keys d1 = sorted_keys d2.
Proof.
  intros H. apply sorted_unique_elems; try apply Sorted_sorted_keys.
  intros k. by rewrite !elem_of_sorted_keys.
Qed.

Lemma sorted_keys_fmap {V W} (f : V → W) (d : gmap Z V) :
  sorted_keys (f <$> d) = sorted_keys d.
Proof. apply sorted_keys_ext. intros k. by rewrite lookup_fmap, fmap_is_Some. Qed.

Lemma sorted_keys_delete {V} (d : gmap Z V) k :
  sorted_keys (delete k d) = filter (λ x, x ≠ k) (sorted_keys d).
Proof.
  apply sorted_unique_elems; [apply Sorted_sorted_keys| |].
  - apply StronglySorted_filter, Sorted_sorted_keys.
  - intros x. rewrite list_elem_of_filter, !elem_of_sorted_keys.
    rewrite lookup_delete_is_Some. naive_solver.
Qed.

Lemma for_each_filter {A S} (body : A → S → option S) (P : A → Prop)
    `{∀ x, Decision (P x)} (l : list A) (s : S) :
  (∀ x s', x ∈ l → ¬ P x → body x s' = Some s') →
  for_each body (filter P l) s = for_each body l s.
Proof.
  revert s. induction l as [|x l IH]; intros s Hskip; [done|].
  rewrite filter_cons. case_decide as HP; simpl.
  - destruct (body x s); simpl; [|done]. apply IH.
    intros y s' Hy. apply Hskip. by right.
  - rewrite (Hskip x s) by (done || left). simpl. apply IH.
    intros y s' Hy. apply Hskip. by right.
Qed.

Lemma verse_loop_text b c name rows st :
  foldl (verse_nav b c name) st (row_with_text <$> rows)
  = foldl (verse_nav b c name) st rows.
Proof.
  revert st. induction rows as [|row rows IH]; intros st; [done|]. apply IH.
Qed.

Lemma verse_line_text b c xf xt row :
  verse_line b c xf xt (row_with_text row) = verse_line b c xf xt row.
Proof. by destruct row as [v [t|]]. Qed.

Lemma chapter_step_cong verses1 verses2 xf xt b name first links c st :
  fmap row_with_text <$> (verses1 !! b ≫= (.!! c))
  = fmap row_with_text <$> (verses2 !! b ≫= (.!! c)) →
  chapter_step verses1 xf xt b name first links c st
  = chapter_step verses2 xf xt b name first links c st.
Proof.
  unfold chapter_step.
  destruct (verses1 !! b ≫= (.!! c)) as [rows1|],
           (verses2 !! b ≫= (.!! c)) as [rows2|]; simpl; try done.
  intros [= Hrows]. do 2 f_equal.
  - do 3 f_equal.
    rewrite <- (list_fmap_ext (verse_line b c xf xt ∘ row_with_text)
                  (verse_line b c xf xt) rows1)
      by (intros; apply verse_line_text).
    rewrite <- (list_fmap_ext (verse_line b c xf xt ∘ row_with_text)
                  (verse_line b c xf xt) rows2)
      by (intros; apply verse_line_text).
    by rewrite !list_fmap_compose, Hrows.
  - f_equal. rewrite <- (verse_loop_text _ _ _ rows1).
    rewrite <- (verse_loop_text _ _ _ rows2). by rewrite Hrows.
Qed.

Lemma name_falsy_inv books b :
  name_truthy (books !! b) = false →
  books !! b = None ∨ books !! b = Some EmptyString.
Proof. destruct (books !! b) as [[|a s]|]; auto. done. Qed.

Lemma book_step_cong books1 books2 verses1 verses2 xf xt b st :
  same_book books1 books2 verses1 verses2 b →
  book_step books1 verses1 xf xt b st = book_step books2 verses2 xf xt b st.
Proof.
  unfold book_step. intros [[H1 H2]|[Hname Hverses]].
  { by destruct (name_falsy_inv _ _ H1) as [-> | ->],
                (name_falsy_inv _ _ H2) as [-> | ->]. }
  rewrite Hname. destruct (books2 !! b) as [[|a name]|]; try done.
  destruct (verses1 !! b) as [chs1|] eqn:E1,
           (verses2 !! b) as [chs2|] eqn:E2; simpl in *; try done.
  injection Hverses as Hchs.
  assert (sorted_keys chs1 = sorted_keys chs2) as Hkeys.
  { rewrite <- (sorted_keys_fmap (fmap row_with_text) chs1), Hchs.
    apply sorted_keys_fmap. }
  rewrite Hkeys. destruct (head (sorted_keys chs2)) as [first|]; simpl; [|done].
  match goal with
  | |- for_each ?body1 ?l ?s ≫= _ = for_each ?body2 _ _ ≫= _ =>
      rewrite (for_each_ext body1 body2 l s); [done|]
  end.
  intros c st' _. apply chapter_step_cong. rewrite E1, E2. simpl.
  by rewrite <- !lookup_fmap, Hchs.
Qed.

Lemma book_list_from_cong books1 books2 verses1 verses2 bids :
  (∀ b, b ∈ bids → same_book books1 books2 verses1 verses2 b) →
  book_list_from books1 verses1 bids = book_list_from books2 verses2 bids.
Proof.
  induction bids as [|b bids IH]; intros Hsame; [done|]. simpl.
  rewrite IH by (intros b' Hb'; apply Hsame; by right).
  destruct (Hsame b) as [[-> ->]|[Hname Hverses]]; [left|done|].
  rewrite Hname. destruct (name_truthy (books2 !! b)); [|done].
  destruct (verses1 !! b) as [chs1|] eqn:E1,
           (verses2 !! b) as [chs2|] eqn:E2; simpl in *; try done.
  injection Hverses as Hchs.
  assert (sorted_keys chs1 = sorted_keys chs2) as ->; [|done].
  rewrite <- (sorted_keys_fmap (fmap row_with_text) chs1), Hchs.
  apply sorted_keys_fmap.
Qed.

Lemma book_list_from_filter books verses (P : Z → Prop)
    `{∀ x, Decision (P x)} bids :
  (∀ b, b ∈ bids → ¬ P b → name_truthy (books !! b) = false) →
  book_list_from books verses (filter P bids) = book_list_from books verses bids.
Proof.
  induction bids as [|b bids IH]; intros Hskip; [done|].
  rewrite filter_cons. case_decide as HP; simpl.
  - by rewrite IH by (intros b' Hb'; apply Hskip; by right).
  - rewrite (Hskip b) by (done || left).
    apply IH. intros b' Hb'. apply Hskip. by right.
Qed.

(** The pages of the books depend on the input only through [same_book]. *)
Lemma assemble_books_cong books1 books2 verses1 verses2 xf xt :
  sorted_keys verses1 = sorted_keys verses2 →
  (∀ b, same_book books1 books2 verses1 verses2 b) →
  assemble_books books1 verses1 xf xt = assemble_books books2 verses2 xf xt.
Proof.
  intros Hkeys Hsame. unfold assemble_books, book_list.
  rewrite Hkeys, (book_list_from_cong books1 books2 verses1 verses2) by auto.
  destruct (book_list_from books2 verses2 _) as [bl|]; simpl; [|done].
  apply for_each_ext. intros b st _. by apply book_step_cong.
Qed.

End same_pages.

(** ** Missing texts and unknown books among the cross-references *)

Section xref_page_facts.
Implicit Types (books : books_t) (verses : verses_t).
Implicit Types (xf xt : option xrefs_t) (key target : coord).

Lemma in_xrefs_truthy x key : in_xrefs x key → xrefs_truthy x = true.
Proof. intros H%xrefs_has_spec. by eapply xrefs_has_truthy. Qed.

Lemma elem_of_all_xref_verses xf xt key :
  key ∈ all_xref_verses xf xt ↔ in_xrefs xf key ∨ in_xrefs xt key.
Proof.
  unfold all_xref_verses. rewrite elem_of_union. split.
  - intros [H|H]; [left|right].
    + destruct (xrefs_truthy xf) eqn:E; [|by apply not_elem_of_empty in H].
      destruct xf as [m|]; [|done]. apply elem_of_dom in H. by exists m.
    + destruct (xrefs_truthy xt) eqn:E; [|by apply not_elem_of_empty in H].
      destruct xt as [m|]; [|done]. apply elem_of_dom in H. by exists m.
  - intros [H|H]; [left|right]; rewrite (in_xrefs_truthy _ _ H);
      destruct H as (m & -> & H); by apply elem_of_dom.
Qed.

Lemma elem_of_sorted_verses xf xt key :
  key ∈ sorted_verses xf xt ↔ in_xrefs xf key ∨ in_xrefs xt key.
Proof.
  unfold sorted_verses.
  by rewrite merge_sort_Permutation, elem_of_elements, elem_of_all_xref_verses.
Qed.

Lemma xref_heading_in_content books xf xt key :
  in_xrefs xf key ∨ in_xrefs xt key →
  xref_heading books key ∈ xref_content books xf xt.
Proof.
  intros H%elem_of_sorted_verses. unfold xref_content.
  right. apply elem_of_app. left. apply list_elem_of_bind.
  exists key. split; [|done]. unfold xref_entry. left.
Qed.

Lemma xref_item_in_content books xf xt key target :
  (in_xrefs xf key ∧ target ∈ xrefs_get xf key)
  ∨ (in_xrefs xt key ∧ target ∈ xrefs_get xt key) →
  xref_item books target ∈ xref_content books xf xt.
Proof.
  intros H.
  assert (key ∈ sorted_verses xf xt) as Hkey
    by (apply elem_of_sorted_verses; destruct H as [[? _]|[? _]]; auto).
  unfold xref_content. right. apply elem_of_app. left.
  apply list_elem_of_bind. exists key. split; [|done].
  unfold xref_entry. right. apply elem_of_app.
  destruct H as [[Hin Ht]|[Hin Ht]]; apply xrefs_has_spec in Hin;
    rewrite Hin; [left|right].
  - do 2 right. apply elem_of_app. left. by apply list_elem_of_fmap_2.
  - do 2 right. apply elem_of_app. left. by apply list_elem_of_fmap_2.
Qed.

Lemma xref_book_name_unknown books b :
  books !! b = None → xref_book_name books b = "Book " +:+ Str.of_Z b.
Proof. intros Hb. unfold xref_book_name. by rewrite Hb. Qed.

Lemma row_with_text_idemp row : row_with_text (row_with_text row) = row_with_text row.
Proof. by destruct row as [v [t|]]. Qed.

Lemma assemble_books_null_to_empty books verses xf xt :
  assemble_books books (null_to_empty verses) xf xt
  = assemble_books books verses xf xt.
Proof.
  apply assemble_books_cong.
  - apply sorted_keys_fmap.
  - intros b. right. split; [done|]. unfold null_to_empty.
    rewrite lookup_fmap. destruct (verses !! b) as [chs|]; [|done]. simpl.
    f_equal. rewrite <- map_fmap_compose. apply map_fmap_ext.
    intros c rows _. simpl. rewrite <- list_fmap_compose.
    apply list_fmap_ext. intros i row _. apply row_with_text_idemp.
Qed.

Lemma concat_elem (l : list string) (x : string) :
  x ∈ l → ∃ pre post, Str.concat l = pre +:+ (x +:+ post).
Proof.
  induction l as [|y l IH]; [by intros ?%elem_of_nil|].
  intros [->|Hin]%elem_of_cons.
  - exists EmptyString, (Str.concat l). by rewrite str_app_nil_l.
  - destruct (IH Hin) as (pre & post & Heq). exists (y +:+ pre), post.
    simpl. by rewrite Heq, str_app_assoc.
Qed.

Lemma xref_member books verses (title uuid : string) xf xt
    (files : list (string * string)) :
  epub_members books verses title uuid xf xt = Some files →
  xref_page_made xf xt = true →
  ("OEBPS/x.html", Str.concat (xref_content books xf xt)) ∈ files.
Proof.
  intros (st & Hst & ->)%epub_members_Some Hmade.
  destruct (assemble_content _ _ _ _ _ Hst) as (bl & _ & Hf & _).
  rewrite Hf, Hmade. apply elem_of_app. left. apply elem_of_app. right.
  apply elem_of_app. right. left.
Qed.

Lemma xref_heading_placeholder books (b c v : Z) :
  books !! b = None → xref_heading books (b, c, v) = placeholder_heading b c v.
Proof.
  intros Hb. unfold xref_heading, placeholder_heading, xref_book_name.
  by rewrite Hb.
Qed.

Lemma xref_item_placeholder books (b c v : Z) :
  books !! b = None → xref_item books (b, c, v) = placeholder_item b c v.
Proof.
  intros Hb. unfold xref_item, placeholder_item, xref_book_name.
  by rewrite Hb.
Qed.

(** A coordinate of a book without a name that is a key of one of the
    maps has its heading, with the placeholder label, on the page. *)
Lemma placeholder_heading_on_page books verses (title uuid : string) xf xt
    (files : list (string * string)) (b c v : Z) :
  books !! b = None →
  epub_members books verses title uuid xf xt = Some files →
  in_xrefs xf (b, c, v) ∨ in_xrefs xt (b, c, v) →
  ∃ pre post,
    ("OEBPS/x.html", pre +:+ (placeholder_heading b c v +:+ post)) ∈ files.
Proof.
  intros Hb Hfiles Hkey.
  assert (xref_page_made xf xt = true) as Hmade.
  { unfold xref_page_made. apply orb_true_iff.
    destruct Hkey as [H|H]; [left|right]; by eapply in_xrefs_truthy. }
  pose proof (xref_member _ _ _ _ _ _ _ Hfiles Hmade) as Hin.
  destruct (concat_elem _ _ (xref_heading_in_content books xf xt _ Hkey))
    as (pre & post & Heq).
  exists pre, post. by rewrite <- (xref_heading_placeholder books), <- Heq.
Qed.

(** The same for a coordinate that is listed as a target. *)
Lemma placeholder_item_on_page books verses (title uuid : string) xf xt
    (files : list (string * string)) key (b c v : Z) :
  books !! b = None →
  epub_members books verses title uuid xf xt = Some files →
  (in_xrefs xf key ∧ (b, c, v) ∈ xrefs_get xf key)
  ∨ (in_xrefs xt key ∧ (b, c, v) ∈ xrefs_get xt key) →
  ∃ pre post,
    ("OEBPS/x.html", pre +:+ (placeholder_item b c v +:+ post)) ∈ files.
Proof.
  intros Hb Hfiles Htarget.
  assert (xref_page_made xf xt = true) as Hmade.
  { unfold xref_page_made. apply orb_true_iff.
    destruct Htarget as [[H _]|[H _]]; [left|right];
      by eapply in_xrefs_truthy. }
  pose proof (xref_member _ _ _ _ _ _ _ Hfiles Hmade) as Hin.
  destruct (concat_elem _ _
              (xref_item_in_content books xf xt key (b, c, v) Htarget))
    as (pre & post & Heq).
  exists pre, post. by rewrite <- (xref_item_placeholder books), <- Heq.
Qed.

End xref_page_facts.

(** ** Books without a name *)

Section unnamed_books.
Implicit Types (st : state) (books : books_t) (verses : verses_t).
Implicit Types (xf xt : option xrefs_t) (b c : Z).

Lemma chapter_file_emitted books verses title uuid xf xt files b c :
  epub_members books verses title uuid xf xt = Some files →
  ("OEBPS/" +:+ chapter_fname b c) ∈ files.*1 →
  (b, c) ∈ emitted_chapters books verses.
Proof.
  intros (st & Hst & ->)%epub_members_Some Hin.
  destruct (assemble_spec _ _ _ _ _ Hst) as (Hf & _). simpl in Hf.
  rewrite fmap_app, Hf in Hin. rewrite chapter_path_eq in Hin.
  rewrite elem_of_app, !elem_of_cons, elem_of_app in Hin.
  destruct Hin as [[?|[?|[?|[?|[Hin|Hin]]]]]|Hin]; try done.
  - apply list_elem_of_fmap in Hin as ([b' c'] & Heq & Hin).
    rewrite chapter_path_eq in Heq. injection Heq as Heq.
    apply of_Z_head in Heq as [-> Heq]; [|done..].
    injection Heq as Heq. by apply of_Z_head in Heq as [-> _].
  - destruct (xref_page_made xf xt); set_solver.
  - set_solver.
Qed.

Lemma book_list_from_named books verses bids bl entry :
  book_list_from books verses bids = Some bl → entry ∈ bl →
  name_truthy (books !! entry.1.1) = true ∧ entry.1.1 ∈ bids.
Proof.
  revert bl. induction bids as [|b bids IH]; intros bl; simpl.
  { intros [= <-] Hin. by apply elem_of_nil in Hin. }
  destruct (name_truthy (books !! b)) eqn:Hname.
  - destruct (verses !! b) as [chs|]; simpl; [|done].
    destruct (head (sorted_keys chs)) as [first|]; simpl; [|done].
    destruct (books !! b) as [name|] eqn:Hb; simpl; [|done].
    destruct (book_list_from books verses bids) as [rest|]; simpl; [|done].
    intros [= <-] [->|Hin]%elem_of_cons.
    + simpl. rewrite Hb. split; [done|left].
    + destruct (IH rest eq_refl Hin). split; [done|by right].
  - intros Hbl Hin. destruct (IH bl Hbl Hin). split; [done|by right].
Qed.

Lemma book_nav_ids_head verses b id :
  id ∈ book_nav_ids verses b →
  ∃ r, id = Str.of_Z b +:+ r ∧ starts_nondigit r.
Proof.
  unfold book_nav_ids. intros [->|Hin]%elem_of_cons.
  { exists EmptyString. by rewrite str_app_nil_r. }
  apply list_elem_of_bind in Hin as (c & Hin & _).
  unfold chapter_nav_ids in Hin. apply elem_of_cons in Hin as [->|Hin].
  { by eexists. }
  apply list_elem_of_fmap in Hin as (row & -> & _). by eexists.
Qed.

Lemma book_step_unnamed books verses xf xt b st :
  name_truthy (books !! b) = false → book_step books verses xf xt b st = Some st.
Proof.
  intros H. unfold book_step. by destruct (name_falsy_inv _ _ H) as [-> | ->].
Qed.

Lemma assemble_books_delete books verses xf xt b :
  name_truthy (books !! b) = false →
  assemble_books books (delete b verses) xf xt = assemble_books books verses xf xt.
Proof.
  intros Hb. unfold assemble_books, book_list.
  assert (∀ b', same_book books books (delete b verses) verses b') as Hsame.
  { intros b'. destruct (decide (b' = b)) as [->|Hne]; [by left|].
    right. by rewrite lookup_delete_ne. }
  rewrite sorted_keys_delete.
  rewrite book_list_from_filter
    by (by intros b' _ ->%dec_stable).
  rewrite (book_list_from_cong books books (delete b verses) verses) by auto.
  destruct (book_list_from books verses _) as [bl|]; simpl; [|done].
  rewrite for_each_filter
    by (intros b' st' _ ->%dec_stable; by apply book_step_unnamed).
  apply for_each_ext. intros b' st' _. by apply book_step_cong.
Qed.

End unnamed_books.

(** C3, as the program has it.  When the verse mapping has a book id that
    the book-name mapping does not have, the package is the one that the
    same input without that book's verses gives: no chapter file, no
    manifest item, no spine entry, no navigation node and no cell of the
    index page is made for the id.  The cross-reference page is not
    covered by this: when the cross-reference maps have a coordinate of
    that book, as a key or as a target, the page shows it under the label
    "Book <id>", with a link to the page of the chapter, and that page is
    not in the package. *)
Theorem unnamed_book_has_no_entry (fs : filesystem) (books : books_t)
    (verses : verses_t) (output_path title uuid : string)
    (xf xt : option xrefs_t) (b : Z) :
  books !! b = None →
  create_epub fs books verses output_path title uuid xf xt
  = create_epub fs books (delete b verses) output_path title uuid xf xt
  ∧ (∀ files,
       create_epub fs books verses output_path title uuid xf xt
       = Some files →
       ∃ st,
         assemble books verses xf xt = Some st
         ∧ (∀ c, ("OEBPS/" +:+ chapter_fname b c) ∉ files.*1)
         ∧ (∀ i c, i ∈ manifest_items st →
                   item_id i ≠ chapter_item_id b c
                   ∧ item_href i ≠ chapter_fname b c)
         ∧ (∀ c, chapter_item_id b c ∉ spine_items st)
         ∧ (∀ p, p ∈ nav_points (toc_nav st) →
                 nav_id p ≠ Str.of_Z b
                 ∧ ∀ rest, nav_id p ≠ Str.of_Z b +:+ "-" +:+ rest))
  ∧ (∀ bl entry, book_list books verses = Some bl → entry ∈ bl →
                 entry.1.1 ≠ b)
  ∧ xref_book_name books b = "Book " +:+ Str.of_Z b
  ∧ (∀ files c v,
       create_epub fs books verses output_path title uuid xf xt
       = Some files →
       in_xrefs xf (b, c, v) ∨ in_xrefs xt (b, c, v) →
       (∃ pre post,
          ("OEBPS/x.html", pre +:+ (placeholder_heading b c v +:+ post))
          ∈ files)
       ∧ ("OEBPS/" +:+ ("b" +:+ Str.of_Z b +:+ "c" +:+ Str.of_Z c +:+ ".html"))
         ∉ files.*1)
  ∧ (∀ files key c v,
       create_epub fs books verses output_path title uuid xf xt
       = Some files →
       (in_xrefs xf key ∧ (b, c, v) ∈ xrefs_get xf key)
       ∨ (in_xrefs xt key ∧ (b, c, v) ∈ xrefs_get xt key) →
       (∃ pre post,
          ("OEBPS/x.html", pre +:+ (placeholder_item b c v +:+ post))
          ∈ files)
       ∧ ("OEBPS/" +:+ ("b" +:+ Str.of_Z b +:+ "c" +:+ Str.of_Z c +:+ ".html"))
         ∉ files.*1).
Proof.
  intros Hb.
  assert (name_truthy (books !! b) = false) as Hname by (by rewrite Hb).
  assert (b ∉ emitted_books books verses) as Hnot.
  { rewrite elem_of_emitted_books. intros [H _]. by rewrite Hname in H. }
  assert (∀ c, (b, c) ∉ emitted_chapters books verses) as Hnotc.
  { intros c [H _]%elem_of_emitted_chapters. done. }
  split_and!.
  - rewrite !create_epub_spec. unfold epub_members, assemble.
    by rewrite assemble_books_delete.
  - intros files Hfiles%create_epub_members.
    pose proof Hfiles as (st & Hst & ->)%epub_members_Some.
    exists st. split; [done|].
    destruct (assemble_spec _ _ _ _ _ Hst) as (_ & Hi & Hr & Hids & _).
    simpl in Hi, Hr, Hids. split_and!.
    + intros c Hin. eapply Hnotc. by eapply chapter_file_emitted.
    + intros i c. rewrite Hi.
      intros [->|[Hin|Hin]%elem_of_app]%elem_of_cons; simpl.
      * split; [by apply letter_not_item_id|by rewrite chapter_fname_eq].
      * apply list_elem_of_fmap in Hin as ([b' c'] & -> & Hin). simpl.
        split; [intros [-> ->]%chapter_item_id_inj
               |intros [-> ->]%chapter_fname_inj]; by eapply Hnotc.
      * destruct (xref_page_made xf xt); [|by apply elem_of_nil in Hin].
        apply list_elem_of_singleton in Hin as ->. simpl.
        split; [by apply letter_not_item_id|by rewrite chapter_fname_eq].
    + intros c. rewrite Hr.
      intros [Hin|[Hin|Hin]%elem_of_app]%elem_of_cons.
      * symmetry in Hin. revert Hin. by apply letter_not_item_id.
      * apply list_elem_of_fmap in Hin as ([b' c'] & Heq & Hin).
        apply chapter_item_id_inj in Heq as [-> ->]. by eapply Hnotc.
      * destruct (xref_page_made xf xt); [|by apply elem_of_nil in Hin].
        apply list_elem_of_singleton in Hin. symmetry in Hin. revert Hin.
        by apply letter_not_item_id.
    + intros p Hp.
      assert (nav_id p ∈ nav_id <$> nav_points (toc_nav st)) as Hin
        by (by apply list_elem_of_fmap_2).
      rewrite Hids in Hin. apply elem_of_app in Hin as [Hin|Hin].
      * apply list_elem_of_bind in Hin as (b' & Hin & Hb').
        apply book_nav_ids_head in Hin as (r & -> & Hr').
        split.
        -- intros Heq. rewrite <- (str_app_nil_r (Str.of_Z b)) in Heq.
           apply of_Z_head in Heq as [-> _]; done.
        -- intros rest Heq. apply of_Z_head in Heq as [-> _]; done.
      * destruct (xref_page_made xf xt); [|by apply elem_of_nil in Hin].
        apply list_elem_of_singleton in Hin as ->.
        destruct (of_Z_first b) as (a & s & E & Ha). rewrite E.
        split; [|intros rest; rewrite str_app_cons];
          intros [= <- _]; by destruct Ha.
  - intros bl entry Hbl Hin Heq.
    destruct (book_list_from_named _ _ _ _ _ Hbl Hin) as [H _].
    by rewrite Heq, Hname in H.
  - unfold xref_book_name. by rewrite Hb.
  - intros files c v Hfiles%create_epub_members Hkey. split.
    + by eapply placeholder_heading_on_page.
    + intros Hin. eapply (Hnotc c). by eapply chapter_file_emitted.
  - intros files key c v Hfiles%create_epub_members Htarget. split.
    + by eapply placeholder_item_on_page.
    + intros Hin. eapply (Hnotc c). by eapply chapter_file_emitted.
Qed.

Lemma unnamed_book_has_no_entry_witness :
  create_epub writable demo_books demo_verses "out.epub" "T" "U"
    demo_xrefs_from demo_xrefs_to
  = create_epub writable demo_books (delete 9 demo_verses) "out.epub" "T" "U"
      demo_xrefs_from demo_xrefs_to
  ∧ xref_book_name demo_books 9 = "Book 9".
Proof.
  destruct (unnamed_book_has_no_entry writable demo_books demo_verses
              "out.epub" "T" "U" demo_xrefs_from demo_xrefs_to 9)
    as (H1 & _ & _ & H2 & _); [by vm_compute|].
  exact (conj H1 H2).
Defined.

(** C3, counterexample: book 9 has verses and no name, a verse of book 1
    refers to it, and the cross-reference page of the package then shows
    "Book 9" and links to the page [b9c1.html], which is not in the
    package. *)
Lemma unnamed_book_on_xref_page :
  demo_books !! 9 = None
  ∧ is_Some (demo_verses !! 9)
  ∧ (content ← create_epub writable demo_books demo_verses "out.epub" "T" "U"
                 demo_xrefs_from demo_xrefs_to
               ≫= member_content "OEBPS/x.html";
     Some (Str.infix ("<a href=" +:+ Str.q "b9c1.html#1" +:+ ">Book 9 1:1</a>")
             content))
    = Some true
  ∧ (member_content "OEBPS/b9c1.html"
       <$> create_epub writable demo_books demo_verses "out.epub" "T" "U"
             demo_xrefs_from demo_xrefs_to)
    = Some None.
Proof.
  split_and!; [by vm_compute|vm_compute; by eexists|by vm_compute..].
Qed.

(** ** Books with an empty name *)

(** C10.  A book whose name is the empty string is treated as a book
    without a name: the index page data, the chapter pages, the manifest,
    the spine and the navigation tree are those of the mapping without the
    id, and so is every file of the package other than the
    cross-reference page (the whole package when no cross-reference page
    is made).  The book gets no pages.  This holds of the members that
    the run hands to the archive, and so of the packages that
    [create_epub] writes, on every file system. *)
Theorem empty_name_counts_as_absent (books : books_t) (verses : verses_t)
    (title uuid : string) (xf xt : option xrefs_t) (b : Z) :
  let books_empty : books_t := <[b := EmptyString]> books in
  let books_absent : books_t := delete b books in
  book_list books_empty verses = book_list books_absent verses
  ∧ assemble_books books_empty verses xf xt
    = assemble_books books_absent verses xf xt
  ∧ (filter (λ f, fst f ≠ "OEBPS/x.html")
       <$> epub_members books_empty verses title uuid xf xt)
    = (filter (λ f, fst f ≠ "OEBPS/x.html")
         <$> epub_members books_absent verses title uuid xf xt)
  ∧ (xref_page_made xf xt = false →
     epub_members books_empty verses title uuid xf xt
     = epub_members books_absent verses title uuid xf xt)
  ∧ (b ∉ emitted_books books_empty verses)
  ∧ (b ∉ emitted_books books_absent verses)
  ∧ (∀ (fs : filesystem) (output_path : string),
       xref_page_made xf xt = false →
       create_epub fs books_empty verses output_path title uuid xf xt
       = create_epub fs books_absent verses output_path title uuid xf xt)
  ∧ (∀ (fs : filesystem) (output_path : string) files_empty files_absent,
       create_epub fs books_empty verses output_path title uuid xf xt
       = Some files_empty →
       create_epub fs books_absent verses output_path title uuid xf xt
       = Some files_absent →
       filter (λ f, fst f ≠ "OEBPS/x.html") files_empty
       = filter (λ f, fst f ≠ "OEBPS/x.html") files_absent).
Proof.
  intros books_empty books_absent.
  assert (∀ b', same_book books_empty books_absent verses verses b') as Hsame.
  { intros b'. unfold books_empty, books_absent.
    destruct (decide (b' = b)) as [->|Hne].
    - left. by rewrite lookup_insert_eq, lookup_delete_eq.
    - right. by rewrite lookup_insert_ne, lookup_delete_ne. }
  assert (assemble_books books_empty verses xf xt
          = assemble_books books_absent verses xf xt) as Hpages
    by (by apply assemble_books_cong).
  assert ((filter (λ f, fst f ≠ "OEBPS/x.html")
             <$> epub_members books_empty verses title uuid xf xt)
          = (filter (λ f, fst f ≠ "OEBPS/x.html")
               <$> epub_members books_absent verses title uuid xf xt))
    as Hfiltered.
  { unfold epub_members, assemble. rewrite Hpages.
    destruct (assemble_books books_absent verses xf xt) as [st|]; [|done].
    simpl. rewrite !xref_step_spec.
    destruct (xref_page_made xf xt); [|done]. simpl. f_equal.
    rewrite !filter_app. by do 2 f_equal. }
  assert (xref_page_made xf xt = false →
          epub_members books_empty verses title uuid xf xt
          = epub_members books_absent verses title uuid xf xt) as Hplain.
  { intros Hmade. unfold epub_members, assemble. rewrite Hpages.
    destruct (assemble_books books_absent verses xf xt) as [st|]; [|done].
    simpl. rewrite !xref_step_spec. by rewrite Hmade. }
  split_and!.
  - unfold book_list. apply book_list_from_cong. auto.
  - done.
  - done.
  - done.
  - rewrite elem_of_emitted_books. unfold books_empty.
    rewrite lookup_insert_eq. by intros [? _].
  - rewrite elem_of_emitted_books. unfold books_absent.
    rewrite lookup_delete_eq. by intros [? _].
  - intros fs output_path Hmade. by rewrite !create_epub_spec, Hplain.
  - intros fs output_path files_empty files_absent
      H1%create_epub_members H2%create_epub_members.
    rewrite H1, H2 in Hfiltered. by injection Hfiltered.
Qed.

Lemma empty_name_counts_as_absent_witness :
  create_epub writable (<[9 := EmptyString]> demo_books) demo_verses
    "out.epub" "T" "U" None None
  = create_epub writable (delete 9 demo_books) demo_verses "out.epub" "T" "U"
      None None.
Proof.
  apply (empty_name_counts_as_absent demo_books demo_verses "T" "U" None None
           9).
  reflexivity.
Defined.


(** C8.  On well-formed input maps, that is when every book that has a
    name has a chapter, as is the case for every verse mapping that
    [fetch_verses] builds, [create_epub] never raises over a verse text or
    a cross-reference coordinate: the run itself builds every member
    whatever the verse texts and the cross-reference coordinates are, so
    the package is produced exactly when the archive can be opened,
    written and closed.  A missing verse text is replaced by the empty
    string: its verse line, and the whole run, are the ones that the
    empty string gives.  A coordinate of a book that the book mapping does
    not have is not left out: when it is a key of a cross-reference map,
    the cross-reference page of the package has its heading under the
    label "Book <id>", and when it is listed as a target, the page has its
    list item under that label.  Every key has its heading and every
    target its list item on the page. *)
Theorem create_epub_total_on_well_formed_maps (fs : filesystem)
    (books : books_t) (verses : verses_t) (output_path title uuid : string)
    (xf xt : option xrefs_t) :
  (has_chapters books verses →
   ∃ members,
     epub_members books verses title uuid xf xt = Some members
     ∧ create_epub fs books verses output_path title uuid xf xt
       = (if archive_accepts fs output_path members
          then Some members else None)
     ∧ (xref_page_made xf xt = true →
        ("OEBPS/x.html", Str.concat (xref_content books xf xt)) ∈ members))
  ∧ (∀ rows, has_chapters books (fetch_verses rows))
  ∧ create_epub fs books (null_to_empty verses) output_path title uuid xf xt
    = create_epub fs books verses output_path title uuid xf xt
  ∧ (∀ b c v,
       verse_line b c xf xt (v, None)
       = verse_line b c xf xt (v, Some EmptyString))
  ∧ (∀ files b c v,
       create_epub fs books verses output_path title uuid xf xt
       = Some files →
       books !! b = None →
       in_xrefs xf (b, c, v) ∨ in_xrefs xt (b, c, v) →
       ∃ pre post,
         ("OEBPS/x.html", pre +:+ (placeholder_heading b c v +:+ post))
         ∈ files)
  ∧ (∀ files key b c v,
       create_epub fs books verses output_path title uuid xf xt
       = Some files →
       books !! b = None →
       (in_xrefs xf key ∧ (b, c, v) ∈ xrefs_get xf key)
       ∨ (in_xrefs xt key ∧ (b, c, v) ∈ xrefs_get xt key) →
       ∃ pre post,
         ("OEBPS/x.html", pre +:+ (placeholder_item b c v +:+ post))
         ∈ files)
  ∧ (∀ key, in_xrefs xf key ∨ in_xrefs xt key →
            xref_page_made xf xt = true
            ∧ xref_heading books key ∈ xref_content books xf xt)
  ∧ (∀ key target,
       (in_xrefs xf key ∧ target ∈ xrefs_get xf key)
       ∨ (in_xrefs xt key ∧ target ∈ xrefs_get xt key) →
       xref_item books target ∈ xref_content books xf xt)
  ∧ (∀ b, books !! b = None →
          xref_book_name books b = "Book " +:+ Str.of_Z b).
Proof.
  split_and!.
  - intros Hwf.
    destruct (epub_members_is_Some books verses title uuid xf xt Hwf)
      as [members Hmembers].
    exists members. split; [done|].
    split; [by rewrite create_epub_spec, Hmembers|].
    intros Hmade. by apply (xref_member _ _ _ _ _ _ _ Hmembers).
  - intros rows. apply fetch_verses_has_chapters.
  - rewrite !create_epub_spec. unfold epub_members, assemble.
    by rewrite assemble_books_null_to_empty.
  - done.
  - intros files b c v Hfiles%create_epub_members Hb Hkey.
    by eapply placeholder_heading_on_page.
  - intros files key b c v Hfiles%create_epub_members Hb Htarget.
    by eapply placeholder_item_on_page.
  - intros key Hkey. split; [|by apply xref_heading_in_content].
    unfold xref_page_made.
    destruct Hkey as [->%in_xrefs_truthy| ->%in_xrefs_truthy];
      [done|apply orb_true_r].
  - intros key target. apply xref_item_in_content.
  - intros b. apply xref_book_name_unknown.
Qed.

Lemma create_epub_total_on_well_formed_maps_witness :
  ∃ files pre post,
    create_epub writable demo_books demo_verses "out.epub" "T" "U"
      demo_xrefs_from demo_xrefs_to = Some files
    ∧ ("OEBPS/x.html", pre +:+ (placeholder_heading 9 1 1 +:+ post))
      ∈ files.
Proof.
  assert (has_chapters demo_books demo_verses) as Hwf
    by (apply (bool_decide_unpack _); by vm_compute).
  destruct (create_epub_total_on_well_formed_maps writable demo_books
              demo_verses "out.epub" "T" "U" demo_xrefs_from demo_xrefs_to)
    as (Htotal & _ & _ & _ & Hhead & _).
  destruct (Htotal Hwf) as (files & _ & Hrun & _).
  unfold archive_accepts in Hrun. rewrite writes_ok_writable in Hrun.
  simpl in Hrun.
  destruct (Hhead files 9 1 1 Hrun) as (pre & post & Hin).
  - reflexivity.
  - right. eexists. split; [done|]. by rewrite lookup_singleton_eq.
  - exact (ex_intro _ files (ex_intro _ pre (ex_intro _ post
             (conj Hrun Hin)))).
Defined.

(** * Further properties of the program *)

(** ** The text functions *)

Section escaping_facts.
Implicit Types (s t : string) (a b c : ascii).

Lemma tagless_app_inv s t : tagless (s +:+ t) → tagless t.
Proof.
  induction s as [|a s IH]; [done|]. rewrite str_app_cons. by intros [_ H%IH].
Qed.

Lemma collapsed_app_inv s t : collapsed (s +:+ t) → collapsed t.
Proof.
  induction s as [|a s IH]; [done|]. rewrite str_app_cons. by intros [_ H%IH].
Qed.

Lemma str_app_snoc s a t : (s +:+ String a EmptyString) +:+ t = s +:+ String a t.
Proof. induction s as [|b s IH]; [done|]. by rewrite !str_app_cons, IH. Qed.

Lemma rstrip_last s pre c :
  Str.rstrip s = pre +:+ String c EmptyString → Chr.is_space c = false.
Proof.
  revert pre. induction s as [|a s IH]; intros pre; simpl.
  { by destruct pre. }
  destruct (Str.rstrip s) as [|b r] eqn:E.
  - destruct (Chr.is_space a) eqn:Ha; [by destruct pre|].
    destruct pre as [|a' [|??]]; rewrite ?str_app_cons, ?str_app_nil_l;
      intros [= ]; by subst.
  - destruct pre as [|a' pre]; rewrite ?str_app_cons, ?str_app_nil_l.
    + intros [= ]. 
    + intros [= _ H]. by apply (IH pre).
Qed.

Lemma strip_fixed_ends s :
  Str.strip s = s →
  starts_nonspace s
  ∧ ∀ pre c, s = pre +:+ String c EmptyString → Chr.is_space c = false.
Proof.
  intros Hs. split.
  - rewrite <- Hs. apply rstrip_starts_nonspace, lstrip_starts_nonspace.
  - intros pre c Heq. apply (rstrip_last (Str.lstrip s) pre).
    by rewrite <- Heq.
Qed.

Lemma has_false_tagless s : Str.has "<" s = false → tagless s.
Proof.
  induction s as [|a s IH]; [done|]. simpl.
  intros [Ha Hs]%orb_false_iff. split; [|by apply IH].
  intros ->. by rewrite bool_decide_eq_true_2 in Ha.
Qed.

Lemma replace_char_app c r s t :
  Str.replace_char c r (s +:+ t)
  = Str.replace_char c r s +:+ Str.replace_char c r t.
Proof.
  induction s as [|a s IH]; [done|]. rewrite str_app_cons. simpl.
  rewrite IH. generalize (Str.replace_char c r s) (Str.replace_char c r t).
  intros u v. destruct (bool_decide (a = c)); [|done].
  clear. induction r as [|x r IH]; [done|]. by rewrite !str_app_cons, IH.
Qed.

Lemma html_escape_cons c s :
  html_escape (String c s) = escape_char c +:+ html_escape s.
Proof.
  unfold html_escape, escape_char.
  change (Str.replace_char "&" "&amp;" (String c s))
    with ((if bool_decide (c = "&"%char) then "&amp;" else String c EmptyString)
          +:+ Str.replace_char "&" "&amp;" s).
  rewrite !replace_char_app. f_equal.
  repeat case_bool_decide; subst; try done. simpl.
  rewrite bool_decide_eq_false_2 by done. simpl.
  by rewrite bool_decide_eq_false_2 by done.
Qed.

Lemma escape_char_plain c :
  Str.has "<" (escape_char c) = false ∧ Str.has ">" (escape_char c) = false.
Proof.
  unfold escape_char. repeat case_bool_decide; subst; try done.
  simpl. by rewrite !bool_decide_eq_false_2.
Qed.

End escaping_facts.

(** X1.  Formatting a book title twice gives what formatting it once
    gives: once the period and the space are in, the rule no longer
    applies. *)
Theorem book_title_formatter_idempotent (s : string) :
  book_title_formatter (book_title_formatter s) = book_title_formatter s.
Proof.
  unfold book_title_formatter at 2 3.
  destruct (Str.span Chr.is_digit s) as [[|d ds] [|c rest]] eqn:Hspan;
    try (unfold book_title_formatter; by rewrite Hspan).
  destruct (negb _) eqn:Hc;
    [|unfold book_title_formatter; by rewrite Hspan, Hc].
  unfold book_title_formatter.
  rewrite (span_unique Chr.is_digit (String d ds) (". " +:+ String c rest));
    [done| |done].
  by eapply span_all.
Qed.

(** X2.  Whatever the text, the stripped text holds no tag and no stray
    white space: no [<] in it has a [>] anywhere after it, and every
    white-space character in it is a single space with a character that
    is not white space on either side. *)
Theorem strip_mysword_tags_output (text : string) :
  let out := strip_mysword_tags text in
  (∀ pre post, out = pre +:+ String "<" post → Str.has ">" post = false)
  ∧ (∀ pre c post,
       out = pre +:+ String c post → Chr.is_space c = true →
       c = " "%char
       ∧ (∃ a post', post = String a post' ∧ Chr.is_space a = false)
       ∧ (∃ pre' a, pre = pre' +:+ String a EmptyString
                    ∧ Chr.is_space a = false)).
Proof.
  intros out.
  assert (tagless out ∧ collapsed out ∧ Str.strip out = out)
    as (Htag & Hcol & Hstrip).
  { unfold out. destruct text as [|a text]; [done|].
    apply strip_pipeline_normal. }
  destruct (strip_fixed_ends out Hstrip) as [Hfirst Hlast].
  assert (∀ pre c post, out = pre +:+ String c post → Chr.is_space c = true →
            c = " "%char
            ∧ ∃ a post', post = String a post' ∧ Chr.is_space a = false)
    as Hright.
  { intros pre c post Heq Hc. rewrite Heq in Hcol.
    apply collapsed_app_inv in Hcol as [Hcol _].
    destruct (Hcol Hc) as [-> Hnext]. split; [done|].
    destruct post as [|a post'].
    - by rewrite (Hlast pre " "%char Heq) in Hc.
    - by exists a, post'. }
  split.
  - intros pre post Heq. rewrite Heq in Htag.
    by apply tagless_app_inv in Htag as [Htag _]; apply Htag.
  - intros pre c post Heq Hc.
    destruct (Hright pre c post Heq Hc) as [-> Hnext].
    split; [done|]. split; [done|].
    assert (∃ pre' a, pre = pre' +:+ String a EmptyString) as (pre' & a & ->).
    { destruct pre as [|a0 pre0];
        [rewrite Heq, str_app_nil_l in Hfirst; simpl in Hfirst; congruence|].
      clear. revert a0. induction pre0 as [|b p IH]; intros a0.
      - by exists EmptyString, a0.
      - destruct (IH b) as (pre' & a & ->). by exists (String a0 pre'), a. }
    exists pre', a. split; [done|].
    destruct (Chr.is_space a) eqn:Ha; [|done].
    rewrite str_app_snoc in Heq.
    destruct (Hright pre' a _ Heq Ha) as [_ (a' & post' & [= <- _] & Hn)].
    done.
Qed.

(** X3.  The texts that the stripper returns unchanged are exactly the
    texts in the normal form of its results: no [<] with a [>] after it,
    white space only as single spaces before a character that is not
    white space, and no white space at either end. *)
Theorem strip_mysword_tags_fixed_points (text : string) :
  strip_mysword_tags text = text
  ↔ tagless text ∧ collapsed text ∧ Str.strip text = text.
Proof.
  split.
  - intros Heq. destruct text as [|a text]; [done|]. rewrite <- Heq.
    apply strip_pipeline_normal.
  - intros (Htag & Hcol & Hstrip). destruct text as [|a text]; [done|].
    by apply strip_pipeline_fixed.
Qed.

(** X4.  The three replacements of the escaping act as one substitution
    made character by character: an ampersand becomes [&amp;], [<]
    becomes [&lt;], [>] becomes [&gt;] and any other character stays, so
    nothing is escaped twice and the escaped text holds no [<] and no
    [>].  This is the text that a verse line shows. *)
Theorem html_escape_by_character :
  html_escape EmptyString = EmptyString
  ∧ (∀ c s, html_escape (String c s) = escape_char c +:+ html_escape s)
  ∧ (∀ s, Str.has "<" (html_escape s) = false
          ∧ Str.has ">" (html_escape s) = false)
  ∧ (∀ book_id chap xrefs_from xrefs_to vnum text,
       verse_line book_id chap xrefs_from xrefs_to (vnum, text)
       = "<a href=" +:+ Str.q ("#" +:+ Str.of_Z vnum) +:+ " id="
         +:+ Str.q (Str.of_Z vnum) +:+ ">" +:+ Str.of_Z vnum +:+ "</a> "
         +:+ html_escape (strip_mysword_tags (default EmptyString text))
         +:+ " "
         +:+ generate_verse_indicators book_id chap vnum xrefs_from xrefs_to
         +:+ "<br/>").
Proof.
  split_and!.
  - done.
  - apply html_escape_cons.
  - intros s. induction s as [|c s [IH1 IH2]]; [done|].
    rewrite html_escape_cons, !has_app, IH1, IH2.
    by destruct (escape_char_plain c) as [-> ->].
  - intros. by destruct text.
Qed.

(** ** The data source *)

Section source_facts.
Implicit Types (b c : Z) (key : coord).

Lemma as_bucket_snoc {A} (old : option (list A)) (l : list A) (x : A) :
  old = as_bucket l → Some (default [] old ++ [x]) = as_bucket (l ++ [x]).
Proof. intros ->. by destruct l. Qed.

Lemma fetch_verses_row_lookup (verses : verses_t) book chap verse text b c :
  fetch_verses_row verses (book, chap, verse, text) !! b ≫= (.!! c)
  = if decide (book = b ∧ chap = c)
    then Some (default [] (verses !! b ≫= (.!! c)) ++ [(verse, text)])
    else verses !! b ≫= (.!! c).
Proof.
  unfold fetch_verses_row. destruct (decide (book = b)) as [->|Hb].
  - rewrite lookup_insert_eq. simpl. destruct (decide (chap = c)) as [->|Hc].
    + rewrite lookup_insert_eq, decide_True by done.
      by destruct (verses !! b).
    + rewrite lookup_insert_ne, decide_False by naive_solver.
      by destruct (verses !! b).
  - rewrite lookup_insert_ne, decide_False by naive_solver. done.
Qed.

Lemma fetch_verses_lookup rows b c :
  fetch_verses rows !! b ≫= (.!! c) = as_bucket (verse_rows_of rows b c).
Proof.
  unfold fetch_verses, verse_rows_of.
  induction rows as [|[[[book chap] verse] text] rows IH] using rev_ind;
    [done|].
  rewrite foldl_snoc, omap_app, fetch_verses_row_lookup. simpl.
  case_decide.
  - by apply as_bucket_snoc.
  - by rewrite app_nil_r.
Qed.

Lemma xrefs_append_lookup (d : xrefs_t) key x k :
  xrefs_append d key x !! k
  = if decide (key = k) then Some (default [] (d !! k) ++ [x]) else d !! k.
Proof.
  unfold xrefs_append. case_decide as Hk.
  - subst k. rewrite lookup_alter_eq.
    destruct (d !! key) as [bucket|] eqn:E; [by rewrite E|].
    by rewrite lookup_insert_eq.
  - rewrite lookup_alter_ne by done.
    destruct (d !! key); [done|]. by rewrite lookup_insert_ne.
Qed.

Lemma fetch_cross_references_lookup rows key :
  (fetch_cross_references (QueryRows rows)).1 !! key
  = as_bucket (targets_of rows key)
  ∧ (fetch_cross_references (QueryRows rows)).2 !! key
    = as_bucket (sources_of rows key).
Proof.
  unfold fetch_cross_references, targets_of, sources_of.
  induction rows as [|[[[[[fb fc] fv] tb] tc] tv] rows [IH1 IH2]] using rev_ind;
    [done|].
  rewrite foldl_snoc, !omap_app. simpl.
  rewrite !xrefs_append_lookup. split.
  - case_decide; [by apply as_bucket_snoc|by rewrite app_nil_r].
  - case_decide; [by apply as_bucket_snoc|by rewrite app_nil_r].
Qed.

Lemma fetch_books_lookup rows id :
  fetch_books rows !! id = last (names_of rows id).
Proof.
  unfold fetch_books, names_of.
  induction rows as [|[id' name] rows IH] using rev_ind; [done|].
  rewrite foldl_snoc, omap_app. simpl. case_decide as Hid.
  - subst. by rewrite lookup_insert_eq, last_snoc.
  - by rewrite lookup_insert_ne, app_nil_r.
Qed.

Lemma as_bucket_is_Some {A} (l : list A) : is_Some (as_bucket l) ↔ l ≠ [].
Proof.
  destruct l; simpl; split; first [done|by intros [? ?]|by eexists].
Qed.

Lemma fetch_verses_nonempty rows :
  map_Forall (λ _ (chs : chapters_t), chs ≠ ∅) (fetch_verses rows).
Proof.
  unfold fetch_verses.
  induction rows as [|[[[book chap] verse] text] rows IH] using rev_ind;
    [apply map_Forall_empty|].
  rewrite foldl_snoc. apply map_Forall_insert_2; [|done].
  apply insert_non_empty.
Qed.

Lemma xrefs_get_fetch rows key :
  xrefs_get (Some (fetch_cross_references (QueryRows rows)).1) key
  = targets_of rows key
  ∧ xrefs_get (Some (fetch_cross_references (QueryRows rows)).2) key
    = sources_of rows key.
Proof.
  unfold xrefs_get.
  change (Some ?m ≫= (.!! key)) with (m !! key).
  destruct (fetch_cross_references_lookup rows key) as [-> ->].
  by destruct (targets_of rows key), (sources_of rows key).
Qed.

Lemma generate_verse_indicators_empty (b c v : Z) (xf xt : option xrefs_t) :
  generate_verse_indicators b c v xf xt = EmptyString
  ↔ ¬ in_xrefs xf (b, c, v) ∧ ¬ in_xrefs xt (b, c, v).
Proof.
  unfold generate_verse_indicators. rewrite <- !xrefs_has_spec.
  destruct (xrefs_has xf (b, c, v)) eqn:Hf;
    destruct (xrefs_has xt (b, c, v)) eqn:Ht;
    try (apply xrefs_has_truthy in Hf as ->);
    try (apply xrefs_has_truthy in Ht as ->);
    simpl; rewrite ?andb_false_r; simpl.
  - split; [done|]. by intros [[] _].
  - split; [done|]. by intros [[] _].
  - split; [done|]. by intros [_ []].
  - split; [done|]. by destruct (negb _ && negb _).
Qed.

End source_facts.

(** X5.  [fetch_verses] files every row under its book and chapter and
    keeps the order of the rows: the rows of a chapter are the
    [(verse, text)] pairs of the input rows of that book and chapter, in
    input order, and a book or chapter is in the mapping exactly when some
    row names it. *)
Theorem fetch_verses_keeps_rows (rows : list (Z * Z * Z * option string))
    (b c : Z) :
  rows_of (fetch_verses rows) b c = verse_rows_of rows b c
  ∧ (c ∈ chapters_of (fetch_verses rows) b
     ↔ ∃ verse text, (b, c, verse, text) ∈ rows)
  ∧ (b ∈ sorted_keys (fetch_verses rows)
     ↔ ∃ chap verse text, (b, chap, verse, text) ∈ rows).
Proof.
  assert (∀ c', is_Some (fetch_verses rows !! b ≫= (.!! c'))
                ↔ ∃ verse text, (b, c', verse, text) ∈ rows) as Hrows.
  { intros c'. rewrite fetch_verses_lookup, as_bucket_is_Some.
    unfold verse_rows_of. split.
    - intros Hne. destruct (omap _ rows) as [|[v t] l] eqn:E; [done|].
      assert ((v, t) ∈ omap
                (λ row : Z * Z * Z * option string,
                   let '(book, chap, verse, text) := row in
                   if decide (book = b ∧ chap = c') then Some (verse, text)
                   else None) rows) as Hin by (rewrite E; left).
      apply list_elem_of_omap in Hin as ([[[book chap] verse] text] & Hin & H).
      case_decide as Hbc; [|done]. destruct Hbc as [-> ->].
      injection H as -> ->. eauto.
    - intros (verse & text & Hin) Hnil.
      assert ((verse, text) ∈ omap
                (λ row : Z * Z * Z * option string,
                   let '(book, chap, verse, text) := row in
                   if decide (book = b ∧ chap = c') then Some (verse, text)
                   else None) rows) as Hin'.
      { apply list_elem_of_omap. eexists. split; [done|]. simpl.
        by rewrite decide_True. }
      rewrite Hnil in Hin'. by apply elem_of_nil in Hin'. }
  split_and!.
  - unfold rows_of. rewrite fetch_verses_lookup.
    by destruct (verse_rows_of rows b c).
  - rewrite <- Hrows. unfold chapters_of. rewrite elem_of_sorted_keys.
    destruct (fetch_verses rows !! b) as [chs|]; simpl; [done|].
    rewrite lookup_empty. split; by intros [].
  - rewrite elem_of_sorted_keys. split.
    + intros [chs Hchs].
      destruct (map_choose chs) as (chap & l & Hl);
        [by apply (fetch_verses_nonempty rows b)|].
      exists chap. apply Hrows. rewrite Hchs. simpl. by rewrite Hl.
    + intros (chap & verse & text & Hin).
      assert (is_Some (fetch_verses rows !! b ≫= (.!! chap))) as [l Hl]
        by (apply Hrows; eauto).
      destruct (fetch_verses rows !! b); [by eexists|done].
Qed.

Section source_row_facts.
Implicit Types (key target : coord).

Lemma fetch_cross_references_source source :
  fetch_cross_references source
  = fetch_cross_references (QueryRows (source_rows source)).
Proof. by destruct source. Qed.

Lemma elem_of_targets_of rows key target :
  target ∈ targets_of rows key
  ↔ ∃ row, row ∈ rows ∧ xref_from_key row = key ∧ xref_to_key row = target.
Proof.
  unfold targets_of. rewrite list_elem_of_omap. split.
  - intros (row & Hin & H). case_decide; [|done]. injection H as <-. eauto.
  - intros (row & Hin & Hk & Ht). exists row. split; [done|].
    by rewrite decide_True, Ht.
Qed.

Lemma elem_of_sources_of rows key target :
  key ∈ sources_of rows target
  ↔ ∃ row, row ∈ rows ∧ xref_from_key row = key ∧ xref_to_key row = target.
Proof.
  unfold sources_of. rewrite list_elem_of_omap. split.
  - intros (row & Hin & H). case_decide; [|done]. injection H as <-. eauto.
  - intros (row & Hin & Hk & Ht). exists row. split; [done|].
    by rewrite decide_True, Hk.
Qed.

Lemma nonempty_elem {A} (l : list A) : l ≠ [] ↔ ∃ x, x ∈ l.
Proof.
  destruct l as [|x l]; split; try done.
  - intros [x Hx]. by apply elem_of_nil in Hx.
  - intros _. exists x. left.
Qed.

Lemma in_xrefs_fetch rows key :
  (in_xrefs (Some (fetch_cross_references (QueryRows rows)).1) key
   ↔ ∃ row, row ∈ rows ∧ xref_from_key row = key)
  ∧ (in_xrefs (Some (fetch_cross_references (QueryRows rows)).2) key
     ↔ ∃ row, row ∈ rows ∧ xref_to_key row = key).
Proof.
  destruct (fetch_cross_references_lookup rows key) as [H1 H2].
  split.
  - transitivity (is_Some ((fetch_cross_references (QueryRows rows)).1 !! key)).
    { split; [by intros (m & [= <-] & H)|intros H; by eexists]. }
    rewrite H1, as_bucket_is_Some, nonempty_elem.
    setoid_rewrite elem_of_targets_of. naive_solver.
  - transitivity (is_Some ((fetch_cross_references (QueryRows rows)).2 !! key)).
    { split; [by intros (m & [= <-] & H)|intros H; by eexists]. }
    rewrite H2, as_bucket_is_Some, nonempty_elem.
    setoid_rewrite elem_of_sources_of. naive_solver.
Qed.

Lemma xref_page_made_fetch rows :
  xref_page_made (Some (fetch_cross_references (QueryRows rows)).1)
                 (Some (fetch_cross_references (QueryRows rows)).2) = true
  ↔ rows ≠ [].
Proof.
  split.
  - by intros H ->.
  - intros Hne. destruct rows as [|row rows]; [done|].
    unfold xref_page_made. apply orb_true_iff. left.
    apply (in_xrefs_truthy _ (xref_from_key row)).
    apply in_xrefs_fetch. exists row. split; [left|done].
Qed.

Lemma xref_file_iff_made (books : books_t) (verses : verses_t)
    (title uuid : string) (xf xt : option xrefs_t)
    (files : list (string * string)) :
  epub_members books verses title uuid xf xt = Some files →
  xref_page_made xf xt = true ↔ "OEBPS/x.html" ∈ files.*1.
Proof.
  intros (st & Hst & ->)%epub_members_Some.
  destruct (assemble_spec _ _ _ _ _ Hst) as (Hf & _). simpl in Hf.
  rewrite fmap_app, Hf. destruct (xref_page_made xf xt); [set_solver|].
  split; [done|]. rewrite app_nil_r.
  rewrite elem_of_app, !elem_of_cons.
  intros [[?|[?|[?|[?|Hin]]]]|?]; try done; [|set_solver].
  apply list_elem_of_fmap in Hin as ([b c] & Heq & _).
  by rewrite chapter_path_eq in Heq.
Qed.

Lemma names_of_cons (row : Z * string) rows id :
  names_of (row :: rows) id
  = (if decide (row.1 = id) then [row.2] else []) ++ names_of rows id.
Proof. unfold names_of. simpl. by case_decide. Qed.

Lemma names_of_absent (rows : list (Z * string)) id :
  id ∉ rows.*1 → names_of rows id = [].
Proof.
  induction rows as [|row rows IH]; [done|]. intros Hid.
  rewrite names_of_cons, decide_False by (intros <-; apply Hid; left).
  apply IH. intros H. apply Hid. by right.
Qed.

End source_row_facts.

(** X6.  In the mapping that [fetch_books] builds, a book id has the name
    of the last row that carries the id, and no name when no row carries
    it.  When the ids of the rows are pairwise different, as the primary
    key of the table makes them, the mapping holds exactly the rows. *)
Theorem fetch_books_last_row_wins (rows : list (Z * string)) :
  (∀ id, fetch_books rows !! id = last (names_of rows id))
  ∧ (NoDup rows.*1 →
     ∀ id name, fetch_books rows !! id = Some name ↔ (id, name) ∈ rows).
Proof.
  split; [apply fetch_books_lookup|].
  intros Hnd id name. rewrite fetch_books_lookup.
  induction rows as [|[id' name'] rows IH].
  { split; [done|]. by intros ?%elem_of_nil. }
  apply NoDup_cons in Hnd as [Hid Hnd]. simpl in Hid.
  rewrite names_of_cons, elem_of_cons. simpl. case_decide as Heq.
  - subst id'. rewrite names_of_absent by done.
    simpl. split; [intros [= ->]; by left|].
    intros [[= ->]|Hin]; [done|]. destruct Hid.
    by apply (list_elem_of_fmap_2 fst rows (id, name)).
  - rewrite (IH Hnd). split; [by right|]. by intros [[= -> _]|?].
Qed.

Lemma fetch_books_last_row_wins_witness :
  fetch_books [(1, "Genesis"); (2, "Exodus")] !! 2 = Some "Exodus".
Proof.
  apply (proj2 (fetch_books_last_row_wins [(1, "Genesis"); (2, "Exodus")])).
  - by apply (bool_decide_unpack _).
  - by apply (bool_decide_unpack _).
Defined.

(** X7.  [fetch_cross_references] keeps, for every coordinate, the targets
    of the rows that start there and the sources of the rows that end
    there, each list in the order of the rows; a coordinate that no row
    starts at (ends at) is not a key of the outgoing (incoming) map, so no
    bucket is empty.  Without a connection, and when the query fails, both
    maps are empty. *)
Theorem fetch_cross_references_buckets (source : xrefs_source) (key : coord) :
  let xrefs := fetch_cross_references source in
  xrefs.1 !! key = as_bucket (targets_of (source_rows source) key)
  ∧ xrefs.2 !! key = as_bucket (sources_of (source_rows source) key)
  ∧ xrefs.1 !! key ≠ Some []
  ∧ xrefs.2 !! key ≠ Some []
  ∧ (source_rows source = [] → xrefs = (∅, ∅)).
Proof.
  intros xrefs. unfold xrefs. rewrite fetch_cross_references_source.
  destruct (fetch_cross_references_lookup (source_rows source) key)
    as [H1 H2].
  split_and!; try done.
  - rewrite H1. by destruct (targets_of _ _).
  - rewrite H2. by destruct (sources_of _ _).
  - by intros ->.
Qed.

Lemma fetch_cross_references_buckets_witness :
  fetch_cross_references NoConnection = (∅, ∅).
Proof.
  by apply (fetch_cross_references_buckets NoConnection (1, 1, 1)).
Defined.

(** X8.  The two maps of [fetch_cross_references] mirror each other: a
    coordinate is among the outgoing references of another exactly when
    that other one is among its incoming references, which is exactly
    when some row leads from the one to the other. *)
Theorem fetch_cross_references_mirror (source : xrefs_source)
    (key target : coord) :
  let xrefs := fetch_cross_references source in
  (target ∈ xrefs_get (Some xrefs.1) key
   ↔ key ∈ xrefs_get (Some xrefs.2) target)
  ∧ (target ∈ xrefs_get (Some xrefs.1) key
     ↔ ∃ row, row ∈ source_rows source
              ∧ xref_from_key row = key ∧ xref_to_key row = target).
Proof.
  intros xrefs. unfold xrefs. rewrite fetch_cross_references_source.
  destruct (xrefs_get_fetch (source_rows source) key) as [-> _].
  destruct (xrefs_get_fetch (source_rows source) target) as [_ ->].
  rewrite elem_of_targets_of, elem_of_sources_of. done.
Qed.

(** X9.  With the maps of [fetch_cross_references], a verse gets an
    indicator link exactly when some row starts or ends at its
    coordinate; without a connection or after a failed query no verse
    gets one. *)
Theorem indicator_iff_row (source : xrefs_source) (b c v : Z) :
  let xrefs := fetch_cross_references source in
  generate_verse_indicators b c v (Some xrefs.1) (Some xrefs.2) ≠ EmptyString
  ↔ ∃ row, row ∈ source_rows source
           ∧ (xref_from_key row = (b, c, v) ∨ xref_to_key row = (b, c, v)).
Proof.
  intros xrefs. unfold xrefs. rewrite fetch_cross_references_source.
  rewrite generate_verse_indicators_empty.
  destruct (in_xrefs_fetch (source_rows source) (b, c, v)) as [-> ->].
  split.
  - intros H.
    destruct (decide (targets_of (source_rows source) (b, c, v) = []))
      as [Ht|Ht].
    2: { apply nonempty_elem in Ht as [x Hx].
         apply elem_of_targets_of in Hx as (row & ? & ? & ?). eauto. }
    destruct (decide (sources_of (source_rows source) (b, c, v) = []))
      as [Hs|Hs].
    2: { apply nonempty_elem in Hs as [x Hx].
         apply elem_of_sources_of in Hx as (row & ? & ? & ?). eauto. }
    destruct H. split; intros (row & Hin & Hk).
    + assert (xref_to_key row ∈ targets_of (source_rows source) (b, c, v))
        as Hx by (apply elem_of_targets_of; eauto).
      rewrite Ht in Hx. by apply elem_of_nil in Hx.
    + assert (xref_from_key row ∈ sources_of (source_rows source) (b, c, v))
        as Hx by (apply elem_of_sources_of; eauto).
      rewrite Hs in Hx. by apply elem_of_nil in Hx.
  - intros (row & Hin & [H|H]) [H1 H2]; [apply H1|apply H2]; eauto.
Qed.

(** X10.  The conversion of [main] ends in the error exit of
    [create_epub] only through the archive.  Whatever rows of integer ids,
    names and texts the three queries return, and also without
    cross-reference data, the run itself builds every member without
    raising, so the package is produced exactly when the archive at the
    output path can be opened, written and closed.  The members hold the
    cross-reference page exactly when there is at least one
    cross-reference row. *)
Theorem main_convert_fails_only_at_archive (fs : filesystem)
    (book_rows : list (Z * string))
    (verse_rows : list (Z * Z * Z * option string)) (source : xrefs_source)
    (output_path title uuid : string) :
  ∃ members,
    epub_members (fetch_books book_rows) (fetch_verses verse_rows) title uuid
      (Some (fetch_cross_references source).1)
      (Some (fetch_cross_references source).2) = Some members
    ∧ main_convert fs book_rows verse_rows source output_path title uuid
      = (if archive_accepts fs output_path members
         then Some members else None)
    ∧ (main_convert fs book_rows verse_rows source output_path title uuid
       = None
       ↔ fs_open fs output_path = false
         ∨ writes_ok fs output_path [] members = false
         ∨ fs_close fs output_path members = false)
    ∧ ("OEBPS/x.html" ∈ members.*1 ↔ source_rows source ≠ []).
Proof.
  unfold main_convert. cbv zeta. rewrite create_epub_spec.
  destruct (epub_members_is_Some (fetch_books book_rows)
              (fetch_verses verse_rows) title uuid
              (Some (fetch_cross_references source).1)
              (Some (fetch_cross_references source).2))
    as [members Hmembers]; [apply fetch_verses_has_chapters|].
  exists members. rewrite Hmembers. simpl. split_and!; [done..| |].
  - unfold archive_accepts.
    destruct (fs_open fs output_path), (writes_ok fs output_path [] members),
      (fs_close fs output_path members); simpl; naive_solver.
  - rewrite fetch_cross_references_source in Hmembers.
    rewrite <- xref_page_made_fetch. symmetry.
    by eapply xref_file_iff_made.
Qed.

Lemma archive_names (books : books_t) (verses : verses_t)
    (title uuid : string) (xf xt : option xrefs_t)
    (files : list (string * string)) :
  epub_members books verses title uuid xf xt = Some files →
  files.*1
  = ["mimetype"; "META-INF/container.xml"; "OEBPS/styles.css"; "OEBPS/i.html"]
    ++ ((λ bc, "OEBPS/" +:+ chapter_fname bc.1 bc.2)
          <$> emitted_chapters books verses)
    ++ (if xref_page_made xf xt then ["OEBPS/x.html"] else [])
    ++ ["OEBPS/content.opf"; "OEBPS/toc.ncx"].
Proof.
  intros (st & Hst & ->)%epub_members_Some.
  destruct (assemble_spec _ _ _ _ _ Hst) as (Hf & _). simpl in Hf.
  rewrite fmap_app, Hf.
  match goal with
  | |- context [ [(?n1, ?a); (?n2, ?b)].*1 ] =>
      change ([(n1, a); (n2, b)].*1) with [n1; n2]
  end.
  simpl. by rewrite <- (assoc_L (++)).
Qed.

(** X11.  The members of a package, in the order they are written: the
    [mimetype] member first, the container file, the style sheet, the
    index page, one page per chapter of each named book, the
    cross-reference page when it is made, and the two package files last.
    No member name is written twice. *)
Theorem archive_member_names (fs : filesystem) (books : books_t) (verses : verses_t)
    (output_path title uuid : string) (xf xt : option xrefs_t)
    (files : list (string * string)) :
  create_epub fs books verses output_path title uuid xf xt = Some files →
  files.*1
  = ["mimetype"; "META-INF/container.xml"; "OEBPS/styles.css"; "OEBPS/i.html"]
    ++ ((λ bc, "OEBPS/" +:+ chapter_fname bc.1 bc.2)
          <$> emitted_chapters books verses)
    ++ (if xref_page_made xf xt then ["OEBPS/x.html"] else [])
    ++ ["OEBPS/content.opf"; "OEBPS/toc.ncx"]
  ∧ NoDup files.*1.
Proof.
  intros Hrun%create_epub_members. revert Hrun.
  intros Hfiles. pose proof (archive_names _ _ _ _ _ _ _ Hfiles) as Hnames.
  split; [done|]. rewrite Hnames.
  apply (NoDup_framed (λ b c, "OEBPS/" +:+ chapter_fname b c)
           ["mimetype"; "META-INF/container.xml"; "OEBPS/styles.css";
            "OEBPS/i.html"]).
  - apply NoDup_emitted_chapters.
  - intros b1 c1 b2 c2 Heq. rewrite !chapter_path_eq in Heq.
    apply chapter_fname_inj. rewrite !chapter_fname_eq.
    injection Heq as Heq. by rewrite Heq.
  - intros s b c Hs. rewrite chapter_path_eq.
    destruct (xref_page_made xf xt); set_unfold;
      repeat (destruct Hs as [->|Hs]; [done|]); by destruct Hs.
  - destruct (xref_page_made xf xt); by apply (bool_decide_unpack _).
Qed.

Lemma archive_member_names_witness :
  ∃ files,
    create_epub writable demo_books demo_verses "out.epub" "T" "U" demo_xrefs_from demo_xrefs_to
    = Some files
    ∧ NoDup files.*1.
Proof.
  eassert (create_epub writable demo_books demo_verses "out.epub" "T" "U" demo_xrefs_from
             demo_xrefs_to = Some _) as H by (vm_compute; reflexivity).
  exact (ex_intro _ _ (conj H (proj2 (archive_member_names _ _ _ _ _ _ _ _ _ H)))).
Defined.



(** X12.  A member of the package that has the name of a chapter page
    belongs to a chapter of a named book, and its content is the heading
    of that chapter, then one line per verse row of that chapter, in the
    order of the rows, then the closing lines.  The heading is built from
    the formatted name of the book and the least chapter of the book;
    every chapter of every named book has such a member. *)
Theorem chapter_page_content (fs : filesystem) (books : books_t) (verses : verses_t)
    (output_path title uuid : string) (xf xt : option xrefs_t)
    (files : list (string * string)) :
  create_epub fs books verses output_path title uuid xf xt = Some files →
  (∀ b c content,
     ("OEBPS/" +:+ chapter_fname b c, content) ∈ files →
     ∃ name,
       books !! b = Some name
       ∧ name ≠ EmptyString
       ∧ c ∈ chapters_of verses b
       ∧ first_chapter verses b ∈ chapters_of verses b
       ∧ first_chapter verses b ≤ c
       ∧ content
         = Str.concat
             ([chapter_heading b c (first_chapter verses b)
                 (book_title_formatter name) (chapter_links verses b)]
              ++ (verse_line b c xf xt <$> rows_of verses b c)
              ++ [CHAPTER_TEMPLATE_FOOT]))
  ∧ (∀ b c,
       name_truthy (books !! b) = true → c ∈ chapters_of verses b →
       ∃ content, ("OEBPS/" +:+ chapter_fname b c, content) ∈ files).
Proof.
  intros Hrun%create_epub_members. revert Hrun.
  intros Hfiles. split.
  - intros b c content Hin.
    destruct (package_members _ _ _ _ _ _ _ _ _ Hfiles Hin)
      as [Hfix|([b' c'] & Hbc & Heq)].
    { rewrite chapter_path_eq in Hfix. set_unfold. naive_solver. }
    pose proof (f_equal fst Heq) as Hname.
    pose proof (f_equal snd Heq) as Hcontent.
    unfold chapter_page, page_of in Hname, Hcontent.
    cbn [fst snd] in Hname, Hcontent. subst content.
    apply chapter_path_inj in Hname as [<- <-].
    apply elem_of_emitted_chapters in Hbc as [Hb Hc].
    apply elem_of_emitted_books in Hb as [Hb _].
    apply name_truthy_Some in Hb as (a & s & Hb).
    destruct (first_chapter_least verses b c Hc) as (_ & Hfirst & Hle).
    exists (String a s). unfold shown_name. rewrite Hb. by split_and!.
  - intros b c Hname Hc. eexists.
    apply (chapter_member_exists _ _ _ _ _ _ _ b c Hfiles Hname Hc).
Qed.

Lemma chapter_page_content_witness :
  ∃ files content,
    create_epub writable demo_books demo_verses "out.epub" "T" "U" demo_xrefs_from demo_xrefs_to
    = Some files
    ∧ ("OEBPS/" +:+ chapter_fname 1 2, content) ∈ files.
Proof.
  eassert (create_epub writable demo_books demo_verses "out.epub" "T" "U" demo_xrefs_from
             demo_xrefs_to = Some _) as H by (vm_compute; reflexivity).
  assert (name_truthy (demo_books !! 1) = true) as Hname by (by vm_compute).
  assert (2 ∈ chapters_of demo_verses 1) as Hc
    by (apply (bool_decide_unpack _); by vm_compute).
  destruct (proj2 (chapter_page_content _ _ _ _ _ _ _ _ _ H) 1 2 Hname Hc)
    as [content Hin].
  exact (ex_intro _ _ (ex_intro _ content (conj H Hin))).
Defined.

(** X13.  The index page of a package lists the named books that have
    verses, by ascending id, each with its name and with a link to the
    page of its least chapter; that page is a member of the package. *)
Theorem index_page_entries (fs : filesystem) (books : books_t) (verses : verses_t)
    (output_path title uuid : string) (xf xt : option xrefs_t)
    (files : list (string * string)) :
  create_epub fs books verses output_path title uuid xf xt = Some files →
  ∃ bl,
    book_list books verses = Some bl
    ∧ ("OEBPS/i.html", index_page bl) ∈ files
    ∧ bl = index_entry books verses <$> emitted_books books verses
    ∧ StronglySorted Z.lt (emitted_books books verses)
    ∧ ∀ bid first name,
        (bid, first, name) ∈ bl →
        books !! bid = Some name
        ∧ head (chapters_of verses bid) = Some first
        ∧ (∀ c, c ∈ chapters_of verses bid → first ≤ c)
        ∧ ("OEBPS/" +:+ chapter_fname bid first) ∈ files.*1.
Proof.
  intros Hrun%create_epub_members. revert Hrun.
  intros Hfiles.
  pose proof Hfiles as (st & Hst & ->)%epub_members_Some.
  destruct (assemble_content _ _ _ _ _ Hst) as (bl & Hbl & Hf & _).
  exists bl. split; [done|]. split.
  { rewrite Hf. apply elem_of_app. left. set_solver. }
  pose proof (book_list_from_entries _ _ _ _ Hbl) as Hentries.
  fold (emitted_books books verses) in Hentries.
  split; [done|]. split; [apply Sorted_emitted_books|].
  intros bid first name Hin. rewrite Hentries in Hin.
  apply list_elem_of_fmap in Hin as (b & [= -> -> ->] & Hb).
  pose proof Hb as [Hname Hv]%elem_of_emitted_books.
  apply name_truthy_Some in Hname as (a & s & Hname).
  assert (is_Some (head (chapters_of verses b))) as [first Hfirst].
  { unfold assemble, assemble_books in Hst. rewrite Hbl in Hst.
    unfold book_list in Hbl.
    destruct Hv as [chs Hchs]. unfold chapters_of. rewrite Hchs. simpl.
    destruct (head (sorted_keys chs)) eqn:E; [by eexists|].
    apply head_None in E. apply sorted_keys_nil in E. subst chs.
    rewrite (book_list_from_None books verses _ b) in Hbl; [done|..].
    - apply elem_of_sorted_keys. by eexists.
    - by rewrite Hname.
    - done. }
  assert (first ∈ chapters_of verses b) as Hin
    by (destruct (chapters_of verses b); simplify_eq/=; left).
  destruct (first_chapter_least verses b first Hin) as (Hhead & _ & _).
  rewrite Hname. simpl. split_and!; try done.
  - intros c Hc. by apply first_chapter_least.
  - apply (list_elem_of_fmap_2 fst _
             (chapter_page books verses xf xt (b, first_chapter verses b))).
    apply (chapter_member_exists _ _ _ _ _ _ _ _ _ Hfiles).
    + by rewrite Hname.
    + by apply (first_chapter_least verses b first).
Qed.

Lemma index_page_entries_witness :
  ∃ files bl,
    create_epub writable demo_books demo_verses "out.epub" "T" "U" demo_xrefs_from demo_xrefs_to
    = Some files
    ∧ book_list demo_books demo_verses = Some bl
    ∧ ("OEBPS/i.html", index_page bl) ∈ files.
Proof.
  eassert (create_epub writable demo_books demo_verses "out.epub" "T" "U" demo_xrefs_from
             demo_xrefs_to = Some _) as H by (vm_compute; reflexivity).
  destruct (index_page_entries _ _ _ _ _ _ _ _ _ H) as (bl & Hbl & Hin & _).
  exact (ex_intro _ _ (ex_intro _ bl (conj H (conj Hbl Hin)))).
Defined.

Section table_facts.
Implicit Types (l rest : list (Z * Z * string)).

Lemma foldl_append {A} (f : A → string) (acc : string) (xs : list A) :
  foldl (λ acc i, acc +:+ f i) acc xs
  = acc +:+ foldl (λ acc i, acc +:+ f i) EmptyString xs.
Proof.
  revert acc. induction xs as [|x xs IH]; intros acc; simpl.
  { by rewrite str_app_nil_r. }
  rewrite IH, (IH (EmptyString +:+ f x)), str_app_nil_l.
  by rewrite str_app_assoc.
Qed.

Lemma range4_step (n : nat) :
  range4 (4 + n) = 0%nat :: ((λ i, 4 + i)%nat <$> range4 n).
Proof.
  unfold range4.
  replace ((4 + n + 3) / 4)%nat with (S ((n + 3) / 4)).
  2: { replace (4 + n + 3)%nat with (1 * 4 + (n + 3))%nat by lia.
       rewrite Nat.div_add_l by lia. lia. }
  rewrite <- cons_seq, <- fmap_S_seq. simpl. f_equal.
  rewrite <- !list_fmap_compose. apply list_fmap_ext. intros _ k _. simpl. lia.
Qed.

Lemma table_rows_step a b c d rest :
  table_rows (a :: b :: c :: d :: rest)
  = index_row [a; b; c; d] +:+ table_rows rest.
Proof.
  unfold table_rows.
  change (length (a :: b :: c :: d :: rest)) with (4 + length rest)%nat.
  rewrite range4_step. simpl foldl at 1. rewrite foldl_append.
  rewrite str_app_nil_l. f_equal. rewrite foldl_fmap. done.
Qed.

End table_facts.

(** X14.  The table of the index page is filled four books to a row, in
    the order of the list: four or fewer books make one row, and a longer
    list makes the row of its first four books followed by the rows of
    the rest.  No books make no row. *)
Theorem table_rows_by_four (l : list (Z * Z * string)) :
  match l with
  | [] => table_rows l = EmptyString
  | a :: b :: c :: d :: (_ :: _) as rest =>
      table_rows l = index_row [a; b; c; d] +:+ table_rows rest
  | _ => table_rows l = index_row l
  end.
Proof.
  destruct l as [|a [|b [|c [|d [|e rest]]]]]; try reflexivity.
  apply table_rows_step.
Qed.

Section nav_facts.
Implicit Types (books : books_t) (verses : verses_t) (b c : Z).

Lemma elem_of_book_nav_links books verses b link :
  link ∈ book_nav_links books verses b →
  link = (shown_name books b, chapter_fname b (first_chapter verses b))
  ∨ ∃ c, c ∈ chapters_of verses b
         ∧ (link = (shown_name books b +:+ " " +:+ Str.of_Z c,
                    chapter_fname b c)
            ∨ ∃ row, row ∈ rows_of verses b c
                     ∧ link = verse_link (shown_name books b) b c row).
Proof.
  unfold book_nav_links. intros [->|Hin]%elem_of_cons; [by left|]. right.
  apply list_elem_of_bind in Hin as (c & Hin & Hc). exists c. split; [done|].
  unfold chapter_nav_links in Hin.
  apply elem_of_cons in Hin as [->|Hin]; [by left|]. right.
  apply list_elem_of_fmap in Hin as (row & -> & Hrow). eauto.
Qed.

End nav_facts.

(** X15.  Every node of the navigation tree points into the package.  A
    book node carries the formatted name of the book and points to the
    page of the book's least chapter; a chapter node points to the page of
    its chapter; a verse node points to the page of its chapter, at the
    anchor that is the verse number of one of the rows of that chapter;
    the last node, when the cross-reference page is made, points to that
    page.  In each case the page is a member of the package. *)
Theorem nav_targets_exist (fs : filesystem) (books : books_t) (verses : verses_t)
    (output_path title uuid : string) (xf xt : option xrefs_t)
    (files : list (string * string)) :
  create_epub fs books verses output_path title uuid xf xt = Some files →
  ∃ st,
    assemble books verses xf xt = Some st
    ∧ ∀ p, p ∈ nav_points (toc_nav st) →
        (∃ b c,
           name_truthy (books !! b) = true
           ∧ c ∈ chapters_of verses b
           ∧ ("OEBPS/" +:+ chapter_fname b c) ∈ files.*1
           ∧ ((nav_label p = shown_name books b
               ∧ c = first_chapter verses b
               ∧ nav_src p = chapter_fname b c)
              ∨ (nav_label p = shown_name books b +:+ " " +:+ Str.of_Z c
                 ∧ nav_src p = chapter_fname b c)
              ∨ ∃ row,
                  row ∈ rows_of verses b c
                  ∧ nav_label p
                    = shown_name books b +:+ " " +:+ Str.of_Z c +:+ ":"
                      +:+ Str.of_Z row.1
                  ∧ nav_src p
                    = chapter_fname b c +:+ "#" +:+ Str.of_Z row.1))
        ∨ (nav_label p = "Cross References"
           ∧ nav_src p = "x.html#c"
           ∧ "OEBPS/x.html" ∈ files.*1).
Proof.
  intros Hrun%create_epub_members. revert Hrun.
  intros Hfiles.
  pose proof Hfiles as (st & Hst & Hfs)%epub_members_Some.
  exists st. split; [done|]. intros p Hp.
  destruct (assemble_content _ _ _ _ _ Hst) as (bl & Hbl & _ & Hn).
  apply (list_elem_of_fmap_2 nav_link) in Hp. rewrite Hn in Hp.
  assert (∀ b c, name_truthy (books !! b) = true → c ∈ chapters_of verses b →
                 ("OEBPS/" +:+ chapter_fname b c) ∈ files.*1) as Hmember.
  { intros b c Hname Hc.
    apply (list_elem_of_fmap_2 fst _ (chapter_page books verses xf xt (b, c))).
    by apply (chapter_member_exists _ _ title uuid). }
  apply elem_of_app in Hp as [Hp|Hp].
  - left. apply list_elem_of_bind in Hp as (b & Hp & Hb).
    apply elem_of_emitted_books in Hb as [Hname [chs Hchs]].
    apply elem_of_book_nav_links in Hp as [Hp|(c & Hc & Hp)].
    + injection Hp as Hl Hs.
      assert (is_Some (head (chapters_of verses b))) as [first Hfirst].
      { unfold book_list in Hbl. unfold chapters_of. rewrite Hchs. simpl.
        destruct (head (sorted_keys chs)) eqn:E; [by eexists|].
        apply head_None in E. apply sorted_keys_nil in E. subst chs.
        rewrite (book_list_from_None books verses _ b) in Hbl; [done|..];
          [|done..].
        apply elem_of_sorted_keys. by eexists. }
      assert (first ∈ chapters_of verses b) as Hin
        by (destruct (chapters_of verses b); simplify_eq/=; left).
      destruct (first_chapter_least verses b first Hin) as (_ & Hf & _).
      exists b, (first_chapter verses b). split_and!; auto.
    + exists b, c. split_and!; auto.
      destruct Hp as [Hp|(row & Hrow & Hp)].
      * injection Hp as Hl Hs. auto.
      * injection Hp as Hl Hs. right. right. exists row. auto.
  - right. destruct (xref_page_made xf xt) eqn:Hmade;
      [|by apply elem_of_nil in Hp].
    apply list_elem_of_singleton in Hp. injection Hp as Hl Hs.
    split_and!; [done..|].
    by apply (xref_file_iff_made books verses title uuid xf xt).
Qed.

Lemma nav_targets_exist_witness :
  ∃ files st,
    create_epub writable demo_books demo_verses "out.epub" "T" "U" demo_xrefs_from demo_xrefs_to
    = Some files
    ∧ assemble demo_books demo_verses demo_xrefs_from demo_xrefs_to = Some st.
Proof.
  eassert (create_epub writable demo_books demo_verses "out.epub" "T" "U" demo_xrefs_from
             demo_xrefs_to = Some _) as H by (vm_compute; reflexivity).
  destruct (nav_targets_exist _ _ _ _ _ _ _ _ _ H) as (st & Hst & _).
  exact (ex_intro _ _ (ex_intro _ st (conj H Hst))).
Defined.

Section xref_order_facts.
Implicit Types (key : coord) (xf xt : option xrefs_t).






End xref_order_facts.


(** ** The entry point *)

Section main_facts.
Implicit Types (s t name dir : string).

Lemma basename_plain s : Str.has "/" s = false → basename s = s.
Proof.
  destruct s as [|c s]; [done|]. simpl.
  case_bool_decide; [done|]. simpl. by intros ->.
Qed.

Lemma basename_join dir name :
  Str.has "/" name = false → basename (dir +:+ "/" +:+ name) = name.
Proof.
  intros Hname. induction dir as [|c dir IH].
  - rewrite str_app_nil_l, str_app_cons, str_app_nil_l. simpl.
    by rewrite Hname.
  - rewrite str_app_cons. simpl.
    rewrite has_app, str_app_cons. simpl. by rewrite orb_true_r.
Qed.

Lemma endswith_app s suffix :
  Str.strip_prefix false suffix suffix = Some EmptyString →
  endswith suffix (s +:+ suffix) = true.
Proof.
  intros Hsuffix. induction s as [|c s IH].
  - rewrite str_app_nil_l. destruct suffix; simpl in *; [done|].
    by rewrite Hsuffix.
  - rewrite str_app_cons. simpl.
    by destruct (Str.strip_prefix false suffix (String c (s +:+ suffix)))
      as [[|??]|].
Qed.

Lemma length_str_app s t :
  String.length (s +:+ t) = (String.length s + String.length t)%nat.
Proof.
  induction s as [|c s IH]; [done|]. rewrite str_app_cons. simpl. by rewrite IH.
Qed.

Lemma str_take_app s t : str_take (String.length s) (s +:+ t) = s.
Proof.
  induction s as [|c s IH]; [by destruct t|].
  rewrite str_app_cons. simpl. by rewrite IH.
Qed.

End main_facts.

(** X17.  The title and the output name that [main] settles on.  A title
    given on the command line is taken as it is.  Without one, the title
    is the file name of the text database, directories dropped, less the
    ending [.bbl.mybible] when the name has it; so for a database
    [dir/name.bbl.mybible] the title is [name], and the package goes to
    [name.epub] when no output name is given.  A file name without that
    ending is the title as a whole. *)
Theorem main_title_from_file_name (dir name : string) :
  Str.has "/" name = false →
  (∀ a t, main_title (Some (String a t)) (dir +:+ "/" +:+ name) = String a t)
  ∧ main_title None (dir +:+ "/" +:+ name +:+ ".bbl.mybible") = name
  ∧ main_title (Some EmptyString) (name +:+ ".bbl.mybible") = name
  ∧ main_output None
      (main_title None (dir +:+ "/" +:+ name +:+ ".bbl.mybible"))
    = name +:+ ".epub"
  ∧ (endswith ".bbl.mybible" name = false →
     main_title None (dir +:+ "/" +:+ name) = name)
  ∧ (∀ a o t, main_output (Some (String a o)) t = String a o).
Proof.
  intros Hname.
  assert (Str.has "/" (name +:+ ".bbl.mybible") = false) as Hfile
    by (by rewrite has_app, Hname).
  assert (∀ title, title = None ∨ title = Some EmptyString →
            main_title title (dir +:+ "/" +:+ name +:+ ".bbl.mybible") = name
            ∧ main_title title (name +:+ ".bbl.mybible") = name) as Htitle.
  { intros title Htitle.
    assert (main_title title (dir +:+ "/" +:+ name +:+ ".bbl.mybible")
            = main_title None (dir +:+ "/" +:+ name +:+ ".bbl.mybible")) as ->
      by (by destruct Htitle as [-> | ->]).
    assert (main_title title (name +:+ ".bbl.mybible")
            = main_title None (name +:+ ".bbl.mybible")) as ->
      by (by destruct Htitle as [-> | ->]).
    unfold main_title.
    rewrite (basename_join dir (name +:+ ".bbl.mybible")) by done.
    rewrite basename_plain by done.
    rewrite endswith_app by done.
    rewrite length_str_app.
    replace (String.length name + String.length ".bbl.mybible" - 12)%nat
      with (String.length name) by (simpl; lia).
    by rewrite str_take_app. }
  split_and!.
  - done.
  - apply Htitle. by left.
  - apply Htitle. by right.
  - by rewrite (proj1 (Htitle None (or_introl eq_refl))).
  - intros Hend. unfold main_title. by rewrite basename_join, Hend.
  - done.
Qed.

Lemma main_title_from_file_name_witness :
  main_title None "/data/kjv.bbl.mybible" = "kjv".
Proof.
  exact (proj1 (proj2 (main_title_from_file_name "/data" "kjv" eq_refl))).
Defined.

(** ** More on the text functions *)

(** X18.  On a text in which no [<] is followed by a [>] anywhere, none
    of the tag rules finds anything: all that [strip_mysword_tags] does is
    to turn every run of white space into one space and to trim the
    ends.  This holds in particular for a text without [<]. *)
Theorem strip_mysword_tags_plain_text (text : string) :
  (Str.has "<" text = false → tagless text)
  ∧ (tagless text →
     strip_mysword_tags text = Str.strip (Re.sub (Re.spaces " ") text)).
Proof.
  split; [apply has_false_tagless|].
  intros Htag. destruct text as [|a text]; [done|].
  unfold strip_mysword_tags, strip_pipeline. cbv zeta.
  by repeat (rewrite (sub_tagless_id _ (String a text));
             [|first [ by apply tag_matcher_literal
                     | by apply tag_matcher_paired
                     | apply tag_matcher_numbered
                     | apply tag_matcher_one_digit
                     | apply tag_matcher_any_tag ]
              |done]).
Qed.

Lemma strip_mysword_tags_plain_text_witness :
  strip_mysword_tags "  a <  b " = "a < b".
Proof.
  rewrite (proj2 (strip_mysword_tags_plain_text "  a <  b ")).
  - reflexivity.
  - simpl. repeat split; intros _; reflexivity.
Defined.

(** X19.  The escaping of the verse text loses nothing: two texts with the
    same escaped form are the same text. *)
Theorem html_escape_injective (s1 s2 : string) :
  html_escape s1 = html_escape s2 → s1 = s2.
Proof.
  revert s2. induction s1 as [|c1 s1 IH]; intros [|c2 s2].
  - done.
  - rewrite html_escape_cons. unfold escape_char.
    repeat case_bool_decide; by rewrite ?str_app_cons.
  - rewrite html_escape_cons. unfold escape_char.
    repeat case_bool_decide; by rewrite ?str_app_cons.
  - rewrite !html_escape_cons. unfold escape_char.
    repeat case_bool_decide; subst;
      rewrite ?str_app_cons, ?str_app_nil_l; intros Heq;
      simplify_eq; f_equal; by apply IH.
Qed.

Lemma html_escape_injective_witness : "a&b" = "a&b".
Proof. apply (html_escape_injective "a&b" "a&b"). reflexivity. Defined.

(** ** Manifest and archive *)

(** X20.  The manifest and the archive agree: every file that a manifest
    item names, the two items of the template included, is a member of
    the package, and every member other than [mimetype], the container
    file and the package file itself is named by a manifest item.  The
    items that the run adds to the manifest are the entries of the spine,
    in the same order. *)
Theorem manifest_names_the_members (fs : filesystem) (books : books_t) (verses : verses_t)
    (output_path title uuid : string) (xf xt : option xrefs_t)
    (files : list (string * string)) :
  create_epub fs books verses output_path title uuid xf xt = Some files →
  ∃ st,
    assemble books verses xf xt = Some st
    ∧ let hrefs := template_item_hrefs ++ (item_href <$> manifest_items st) in
      (∀ href, href ∈ hrefs → ("OEBPS/" +:+ href) ∈ files.*1)
      ∧ (∀ name, name ∈ files.*1 →
                 name ∈ ["mimetype"; "META-INF/container.xml";
                         "OEBPS/content.opf"]
                 ∨ ∃ href, href ∈ hrefs ∧ name = "OEBPS/" +:+ href)
      ∧ item_id <$> manifest_items st = spine_items st.
Proof.
  intros Hrun%create_epub_members. revert Hrun.
  intros Hfiles.
  pose proof Hfiles as (st & Hst & _)%epub_members_Some.
  exists st. split; [done|].
  destruct (assemble_spec _ _ _ _ _ Hst) as (_ & Hi & Hr & _).
  simpl in Hi, Hr.
  pose proof (archive_names _ _ _ _ _ _ _ Hfiles) as Hn.
  rewrite Hn, Hi, Hr. unfold template_item_hrefs. simpl. split; [|split].
  - intros href. rewrite !elem_of_cons, fmap_app, !elem_of_app.
    rewrite <- !list_fmap_compose.
    intros [->|[->|[->|[Hin|Hin]]]].
    + set_solver.
    + set_solver.
    + set_solver.
    + apply list_elem_of_fmap in Hin as (bc & -> & Hbc). simpl.
      do 4 right. left. apply list_elem_of_fmap. by exists bc.
    + destruct (xref_page_made xf xt); set_solver.
  - intros name. rewrite !elem_of_cons, !elem_of_app.
    intros [->|[->|[->|[->|[Hin|[Hin|Hin]]]]]].
    + set_solver.
    + set_solver.
    + right. exists "styles.css". set_solver.
    + right. exists "i.html". set_solver.
    + right. apply list_elem_of_fmap in Hin as (bc & -> & Hbc).
      exists (chapter_fname bc.1 bc.2). split; [|done].
      do 3 right. rewrite fmap_app, elem_of_app. left.
      rewrite <- list_fmap_compose. apply list_elem_of_fmap. by exists bc.
    + right. destruct (xref_page_made xf xt); [|by apply elem_of_nil in Hin].
      apply list_elem_of_singleton in Hin as ->.
      exists "x.html". split; [|done].
      do 3 right. rewrite fmap_app, elem_of_app. right. left.
    + apply elem_of_cons in Hin as [->|Hin]; [left; by do 2 right; left|].
      apply list_elem_of_singleton in Hin as ->.
      right. exists "toc.ncx". split; [left|done].
  - rewrite fmap_app, <- list_fmap_compose.
    by destruct (xref_page_made xf xt).
Qed.

Lemma manifest_names_the_members_witness :
  ∃ files st,
    create_epub writable demo_books demo_verses "out.epub" "T" "U" demo_xrefs_from demo_xrefs_to
    = Some files
    ∧ assemble demo_books demo_verses demo_xrefs_from demo_xrefs_to = Some st.
Proof.
  eassert (create_epub writable demo_books demo_verses "out.epub" "T" "U" demo_xrefs_from
             demo_xrefs_to = Some _) as H by (vm_compute; reflexivity).
  destruct (manifest_names_the_members _ _ _ _ _ _ _ _ _ H) as (st & Hst & _).
  exact (ex_intro _ _ (ex_intro _ st (conj H Hst))).
Defined.

(** ** From the rows of the database to the pages *)

Section rows_to_pages.
Implicit Types (rows : list (Z * Z * Z * option string)) (b c : Z).

Lemma rows_of_fetch_verses rows b c :
  rows_of (fetch_verses rows) b c = verse_rows_of rows b c.
Proof.
  unfold rows_of. rewrite fetch_verses_lookup.
  by destruct (verse_rows_of rows b c).
Qed.

Lemma elem_of_verse_rows_of rows b c verse text :
  (verse, text) ∈ verse_rows_of rows b c ↔ (b, c, verse, text) ∈ rows.
Proof.
  unfold verse_rows_of. rewrite list_elem_of_omap. split.
  - intros ([[[book chap] v] t] & Hin & H).
    case_decide as Hbc; [|done]. destruct Hbc as [-> ->].
    by injection H as -> ->.
  - intros Hin. exists (b, c, verse, text). split; [done|].
    by rewrite decide_True.
Qed.

Lemma chapters_of_fetch_verses rows b c :
  c ∈ chapters_of (fetch_verses rows) b ↔ verse_rows_of rows b c ≠ [].
Proof.
  rewrite <- as_bucket_is_Some, <- fetch_verses_lookup.
  unfold chapters_of. rewrite elem_of_sorted_keys.
  by destruct (fetch_verses rows !! b).
Qed.

End rows_to_pages.

(** X21.  From the rows of the text database to the pages, through
    [fetch_verses] and [create_epub]: a chapter page of the package that
    [main] makes is the heading of the chapter, made of the formatted name
    of the book, the least chapter of the book and the links to its
    chapters, then exactly one line per row of that book and chapter, in
    the order in which the query returned the rows, then the closing
    lines, and nothing else; a page is never without a line.  Every row
    of a book that has a non-empty name has its line on the page of its
    chapter. *)
Theorem pages_follow_the_rows (fs : filesystem)
    (book_rows : list (Z * string))
    (verse_rows : list (Z * Z * Z * option string)) (source : xrefs_source)
    (output_path title uuid : string) (files : list (string * string)) :
  main_convert fs book_rows verse_rows source output_path title uuid
  = Some files →
  let books := fetch_books book_rows in
  let verses := fetch_verses verse_rows in
  let xrefs := fetch_cross_references source in
  let page b c name :=
    Str.concat
      ([chapter_heading b c (first_chapter verses b)
          (book_title_formatter name) (chapter_links verses b)]
       ++ (verse_line b c (Some xrefs.1) (Some xrefs.2)
             <$> verse_rows_of verse_rows b c)
       ++ [CHAPTER_TEMPLATE_FOOT]) in
  (∀ b c content,
     ("OEBPS/" +:+ chapter_fname b c, content) ∈ files →
     verse_rows_of verse_rows b c ≠ []
     ∧ verse_rows_of verse_rows b (first_chapter verses b) ≠ []
     ∧ first_chapter verses b ≤ c
     ∧ ∃ name,
         books !! b = Some name ∧ name ≠ EmptyString
         ∧ content = page b c name)
  ∧ (∀ b c verse text name,
       (b, c, verse, text) ∈ verse_rows →
       books !! b = Some name → name ≠ EmptyString →
       (verse, text) ∈ verse_rows_of verse_rows b c
       ∧ ("OEBPS/" +:+ chapter_fname b c, page b c name) ∈ files).
Proof.
  intros Hfiles. cbv zeta. unfold main_convert in Hfiles.
  cbv zeta in Hfiles. apply create_epub_members in Hfiles. split.
  - intros b c content Hin.
    destruct (package_members _ _ _ _ _ _ _ _ _ Hfiles Hin)
      as [Hfix|([b' c'] & Hbc & Heq)].
    { rewrite chapter_path_eq in Hfix. set_unfold. naive_solver. }
    pose proof (f_equal fst Heq) as Hname.
    pose proof (f_equal snd Heq) as Hcontent.
    unfold chapter_page, page_of in Hname, Hcontent.
    cbn [fst snd] in Hname, Hcontent. subst content.
    apply chapter_path_inj in Hname as [<- <-].
    apply elem_of_emitted_chapters in Hbc as [Hb Hc].
    apply elem_of_emitted_books in Hb as [Hb _].
    apply name_truthy_Some in Hb as (a & n & Hb).
    destruct (first_chapter_least _ b c Hc) as (_ & Hfirst & Hle).
    apply chapters_of_fetch_verses in Hc, Hfirst.
    split_and!; [done..|].
    exists (String a n). unfold shown_name.
    by rewrite Hb, rows_of_fetch_verses.
  - intros b c verse text name Hrow Hb Hname.
    assert ((verse, text) ∈ verse_rows_of verse_rows b c) as Hin
      by (by apply elem_of_verse_rows_of).
    split; [done|].
    assert (c ∈ chapters_of (fetch_verses verse_rows) b) as Hc.
    { apply chapters_of_fetch_verses. intros Hnil. rewrite Hnil in Hin.
      by apply elem_of_nil in Hin. }
    assert (name_truthy (fetch_books book_rows !! b) = true) as Htruthy
      by (rewrite Hb; by destruct name).
    pose proof (chapter_member_exists _ _ _ _ _ _ _ b c Hfiles Htruthy Hc)
      as Hpage.
    unfold chapter_page, page_of, shown_name in Hpage.
    cbn [fst snd] in Hpage.
    by rewrite Hb, rows_of_fetch_verses in Hpage.
Qed.

Lemma pages_follow_the_rows_witness :
  ∃ files,
    main_convert writable [(1, "Genesis")]
      [(1, 1, 1, Some "In the beginning")] NoConnection "out.epub" "T" "U"
    = Some files
    ∧ (1, Some "In the beginning")
      ∈ verse_rows_of [(1, 1, 1, Some "In the beginning")] 1 1.
Proof.
  eassert (main_convert writable [(1, "Genesis")]
             [(1, 1, 1, Some "In the beginning")] NoConnection "out.epub"
             "T" "U" = Some _) as H by (vm_compute; reflexivity).
  eexists. split; [exact H|].
  refine (proj1 (proj2 (pages_follow_the_rows _ _ _ _ _ _ _ _ H) 1 1 1
                   (Some "In the beginning") "Genesis" _ _ _)).
  - left.
  - reflexivity.
  - done.
Defined.

(** ** The nesting of the navigation tree *)

Section nesting_facts.
Implicit Types (st : state) (l : list nav_entry).

Lemma nav_depth_app d l1 l2 :
  nav_depth d (l1 ++ l2) = nav_depth d l1 ≫= λ d', nav_depth d' l2.
Proof.
  revert d. induction l1 as [|[p|] l1 IH]; intros d; simpl; [done|apply IH|].
  destruct d; [done|apply IH].
Qed.

Lemma nests_refl st : nests st st.
Proof. exists []. by rewrite app_nil_r. Qed.

Lemma nests_trans st1 st2 st3 : nests st1 st2 → nests st2 st3 → nests st1 st3.
Proof.
  intros (l1 & H1 & Hd1) (l2 & H2 & Hd2). exists (l1 ++ l2). split.
  - by rewrite H2, H1, <- (assoc_L (++)).
  - intros d. rewrite nav_depth_app, Hd1. apply Hd2.
Qed.

Lemma for_each_nests {A} (body : A → state → option state) xs st st' :
  (∀ x s s', body x s = Some s' → nests s s') →
  for_each body xs st = Some st' → nests st st'.
Proof.
  intros Hbody. revert st. induction xs as [|x xs IH]; intros st; simpl.
  { intros [= <-]. apply nests_refl. }
  destruct (body x st) as [st1|] eqn:E; simpl; [|done].
  intros H. eapply nests_trans; [by eapply Hbody|by apply IH].
Qed.

Lemma verse_loop_nests b c name rows st :
  ∃ l, toc_nav (foldl (verse_nav b c name) st rows) = toc_nav st ++ l
       ∧ ∀ d, nav_depth d l = Some d.
Proof.
  revert st. induction rows as [|row rows IH]; intros st; simpl.
  { exists []. by rewrite app_nil_r. }
  destruct (IH (verse_nav b c name st row)) as (l & Hl & Hd).
  eexists (_ :: l). split.
  - rewrite Hl. unfold verse_nav. simpl. by rewrite <- (assoc_L (++)).
  - intros d. simpl. apply Hd.
Qed.

Lemma chapter_step_nests verses xf xt b name first links c st st' :
  chapter_step verses xf xt b name first links c st = Some st' →
  nests st st'.
Proof.
  unfold chapter_step.
  destruct (verses !! b ≫= (.!! c)) as [rows|]; simpl; [|done].
  intros [= <-].
  match goal with
  | |- context [foldl _ ?s rows] =>
      destruct (verse_loop_nests b c name rows s) as (l & Hl & Hd)
  end.
  eexists (_ :: l ++ [NavEnd]). simpl. rewrite Hl. simpl. split.
  - by rewrite <- !(assoc_L (++)).
  - intros d. simpl. by rewrite nav_depth_app, Hd.
Qed.

Lemma book_step_nests books verses xf xt b st st' :
  book_step books verses xf xt b st = Some st' → nests st st'.
Proof.
  unfold book_step.
  destruct (books !! b) as [[|a name]|]; simpl;
    try (intros [= <-]; apply nests_refl).
  destruct (verses !! b) as [chs|]; simpl; [|done].
  destruct (head (sorted_keys chs)) as [first|]; simpl; [|done].
  match goal with
  | |- context [for_each ?f ?l ?s] =>
      destruct (for_each f l s) as [st1|] eqn:E; simpl; [|done]
  end.
  intros [= <-].
  apply for_each_nests in E as (l & Hl & Hd);
    [|intros ???; apply chapter_step_nests].
  eexists (_ :: l ++ [NavEnd]). simpl in *. rewrite Hl. split.
  - by rewrite <- !(assoc_L (++)).
  - intros d. simpl. by rewrite nav_depth_app, Hd.
Qed.

End nesting_facts.

(** X22.  The navigation tree is well nested: every book node and every
    chapter node that is opened is closed again, no level is closed that
    was not opened, and the tree ends at depth zero, whatever the books,
    verses and cross-references are. *)
Theorem nav_tree_well_nested (books : books_t) (verses : verses_t)
    (xf xt : option xrefs_t) (st : state) :
  assemble books verses xf xt = Some st →
  nav_depth 0 (toc_nav st) = Some 0%nat
  ∧ ∀ l1 l2, toc_nav st = l1 ++ l2 → is_Some (nav_depth 0 l1).
Proof.
  intros Hst.
  assert (nav_depth 0 (toc_nav st) = Some 0%nat) as Hdepth.
  { revert Hst. unfold assemble, assemble_books.
    destruct (book_list books verses) as [bl|]; simpl; [|done].
    match goal with
    | |- context [for_each ?f ?l ?s] =>
        destruct (for_each f l s) as [st1|] eqn:E; simpl; [|done]
    end.
    intros [= <-].
    apply for_each_nests in E as (l & Hl & Hd);
      [|intros ???; apply book_step_nests].
    simpl in Hl. rewrite xref_step_spec.
    destruct (xref_page_made xf xt); simpl; rewrite Hl; [|apply Hd].
    by rewrite nav_depth_app, Hd. }
  split; [done|]. intros l1 l2 Heq.
  rewrite Heq, nav_depth_app in Hdepth.
  destruct (nav_depth 0 l1); [by eexists|done].
Qed.

Lemma nav_tree_well_nested_witness :
  ∃ st,
    assemble demo_books demo_verses demo_xrefs_from demo_xrefs_to = Some st
    ∧ nav_depth 0 (toc_nav st) = Some 0%nat.
Proof.
  eassert (assemble demo_books demo_verses demo_xrefs_from demo_xrefs_to
           = Some _) as H by (vm_compute; reflexivity).
  exact (ex_intro _ _ (conj H (proj1 (nav_tree_well_nested _ _ _ _ _ H)))).
Defined.

(** ** [minify] *)

Section minify_facts.
Implicit Types (s t l r : string) (a b c : ascii).

Lemma gap_at_gt a s repl n :
  Re.gap (String a s) = Some (repl, n) → a = ">"%char ∧ repl = "><".
Proof.
  unfold Re.gap. destruct (decide (a = ">"%char)) as [->|Ha].
  - destruct (Str.span Chr.is_space s) as [[|c cs] [|d r]]; try done.
    destruct (decide (d = "<"%char)) as [->|Hd]; [by intros [= <- _]|].
    by destruct d as [[] [] [] [] [] [] [] []].
  - by destruct a as [[] [] [] [] [] [] [] []].
Qed.

Lemma gap_none_iff s :
  Re.gap (String ">" s) = None
  ↔ ∀ c cs r, Str.span Chr.is_space s ≠ (String c cs, String "<" r).
Proof.
  unfold Re.gap. destruct (Str.span Chr.is_space s) as [[|c cs] [|d r]];
    try (split; [by intros _ ???|done]).
  destruct (decide (d = "<"%char)) as [->|Hd].
  - split; [done|]. intros H. by destruct (H c cs r).
  - split; [intros _ ??? [= _ _ ? _]; done|].
    by destruct d as [[] [] [] [] [] [] [] []].
Qed.

Lemma sub_gap_span s l r :
  Str.span Chr.is_space s = (l, r) →
  ∃ r', Str.span Chr.is_space (Re.sub Re.gap s) = (l, r')
        ∧ match r, r' with
          | EmptyString, EmptyString => True
          | String x _, String y _ => x = y
          | _, _ => False
          end.
Proof.
  revert l r. induction s as [|a s IH]; intros l r.
  { intros [= <- <-]. by exists EmptyString. }
  simpl Str.span. destruct (Chr.is_space a) eqn:Ha.
  - destruct (Str.span Chr.is_space s) as [l' r0] eqn:E. intros [= <- <-].
    destruct (IH _ _ eq_refl) as (r' & Hsp & Hhead).
    rewrite sub_cons.
    destruct (Re.gap (String a s)) as [[repl n]|] eqn:Hg.
    { apply gap_at_gt in Hg as [-> _]. done. }
    exists r'. simpl. by rewrite Ha, Hsp.
  - intros [= <- <-]. rewrite sub_cons.
    destruct (Re.gap (String a s)) as [[repl n]|] eqn:Hg.
    + apply gap_at_gt in Hg as [-> ->]. eexists.
      rewrite !str_app_cons, str_app_nil_l. simpl. done.
    + eexists. simpl. by rewrite Ha.
Qed.

Lemma sub_gap_gap_free k s : gap_free (Re.sub_from Re.gap k s).
Proof.
  revert k. induction s as [|a s IH]; intros k; [done|].
  destruct k as [|k]; [|apply IH].
  change (Re.sub_from Re.gap 0 (String a s))
    with (Re.sub Re.gap (String a s)).
  rewrite sub_cons.
  destruct (Re.gap (String a s)) as [[repl n]|] eqn:Hg.
  - apply gap_at_gt in Hg as [-> ->].
    rewrite <- sub_from_drop, !str_app_cons, str_app_nil_l.
    split; [done|]. split; [done|]. apply IH.
  - split; [|apply IH].
    destruct (decide (a = ">"%char)) as [->|Ha].
    2: { unfold Re.gap. by destruct a as [[] [] [] [] [] [] [] []]. }
    apply gap_none_iff. intros c cs r Hsp.
    destruct (Str.span Chr.is_space s) as [l0 r0] eqn:E.
    destruct (sub_gap_span _ _ _ E) as (r' & Hsp' & Hhead).
    rewrite Hsp in Hsp'. injection Hsp' as <- <-.
    destruct r0 as [|x r0]; [done|]. subst x.
    by apply (proj1 (gap_none_iff s) Hg c cs r0).
Qed.

Lemma sub_gap_free_id s : gap_free s → Re.sub Re.gap s = s.
Proof.
  induction s as [|a s IH]; [done|]. intros [Hg Hs].
  by rewrite sub_cons, Hg, IH.
Qed.

Lemma gap_free_lstrip s : gap_free s → gap_free (Str.lstrip s).
Proof.
  induction s as [|a s IH]; [done|]. intros [Hg Hs]. simpl Str.lstrip.
  destruct (Chr.is_space a); [by apply IH|]. by split.
Qed.

Lemma span_cons p a s :
  Str.span p (String a s)
  = if p a then (String a (Str.span p s).1, (Str.span p s).2)
    else (EmptyString, String a s).
Proof. simpl. destruct (p a); [|done]. by destruct (Str.span p s). Qed.

Lemma rstrip_cons a s :
  Str.rstrip (String a s)
  = match Str.rstrip s with
    | EmptyString =>
        if Chr.is_space a then EmptyString else String a EmptyString
    | String b r => String a (String b r)
    end.
Proof. simpl. by destruct (Str.rstrip s). Qed.

Lemma span_space_rstrip s b r0 :
  Str.rstrip s = String b r0 →
  ∃ l x t t',
    Str.span Chr.is_space s = (l, String x t)
    ∧ Str.span Chr.is_space (Str.rstrip s) = (l, String x t').
Proof.
  revert b r0. induction s as [|a s IH]; intros b r0; [done|].
  destruct (Chr.is_space a) eqn:Ha.
  - rewrite rstrip_cons, Ha.
    destruct (Str.rstrip s) as [|b' r'] eqn:E; [done|].
    intros _. destruct (IH _ _ eq_refl) as (l & x & t & t' & H1 & H2).
    exists (String a l), x, t, t'.
    by rewrite (span_cons _ a s), (span_cons _ a (String b' r')), Ha, H1, H2.
  - intros _. destruct (rstrip_nonspace a s Ha) as [r' Hr'].
    exists EmptyString, a, s, r'.
    by rewrite Hr', (span_cons _ a s), (span_cons _ a r'), Ha.
Qed.

Lemma gap_free_rstrip s : gap_free s → gap_free (Str.rstrip s).
Proof.
  induction s as [|a s IH]; [done|]. intros [Hg Hs]. specialize (IH Hs).
  simpl Str.rstrip. destruct (Str.rstrip s) as [|b r0] eqn:E.
  - destruct (Chr.is_space a); [done|]. split; [|done].
    unfold Re.gap. by destruct a as [[] [] [] [] [] [] [] []].
  - split; [|done].
    destruct (decide (a = ">"%char)) as [->|Ha].
    2: { unfold Re.gap. by destruct a as [[] [] [] [] [] [] [] []]. }
    apply gap_none_iff. intros c cs r Hsp.
    destruct (span_space_rstrip s b r0 E) as (l & x & t & t' & H1 & H2).
    rewrite E, Hsp in H2. injection H2 as <- <- <-.
    by apply (proj1 (gap_none_iff s) Hg c cs t).
Qed.

End minify_facts.

(** X23.  What [minify] returns has no white space between a [>] and the
    next [<] anywhere and no white space at either end; [minify] leaves
    such a text as it is, so minifying twice is minifying once. *)
Theorem minify_normal_form (s : string) :
  gap_free (minify s)
  ∧ Str.strip (minify s) = minify s
  ∧ minify (minify s) = minify s
  ∧ (minify s = s ↔ gap_free s ∧ Str.strip s = s).
Proof.
  assert (gap_free (minify s)) as Hfree
    by apply gap_free_rstrip, gap_free_lstrip, sub_gap_gap_free.
  assert (Str.strip (minify s) = minify s) as Hstrip by apply strip_idemp.
  assert (∀ t, gap_free t → Str.strip t = t → minify t = t) as Hfix.
  { intros t Ht Hs. unfold minify. by rewrite sub_gap_free_id. }
  split_and!; try done.
  - by apply Hfix.
  - split; [by intros <-|]. intros [??]. by apply Hfix.
Qed.

(** ** Translators' notes *)

Section note_facts.
Implicit Types (s t a body c : string) (m : Re.matcher).

Lemma strip_mysword_tags_pipeline t : strip_mysword_tags t = strip_pipeline t.
Proof. by destruct t. Qed.

Lemma strip_pipeline_tagless s :
  tagless s → strip_pipeline s = Str.strip (Re.sub (Re.spaces " ") s).
Proof.
  intros Htag. unfold strip_pipeline. cbv zeta.
  by repeat (rewrite (sub_tagless_id _ s);
             [|first [ by apply tag_matcher_literal
                     | by apply tag_matcher_paired
                     | apply tag_matcher_numbered
                     | apply tag_matcher_one_digit
                     | apply tag_matcher_any_tag ]
              |done]).
Qed.

Lemma sub_plain_prefix m a t :
  tag_matcher m → Str.has "<" a = false →
  Re.sub m (a +:+ t) = a +:+ Re.sub m t.
Proof.
  intros Hm. induction a as [|x a IH]; [done|]. simpl.
  intros [Hx Ha]%orb_false_iff. rewrite !str_app_cons, sub_cons.
  destruct (m (String x (a +:+ t))) as [[repl n]|] eqn:E.
  - apply Hm in E as (r & [= -> _] & _). done.
  - by rewrite IH.
Qed.

Lemma sub_plain m c : tag_matcher m → Str.has "<" c = false → Re.sub m c = c.
Proof. intros Hm Hc. by apply sub_tagless_id, has_false_tagless. Qed.

Lemma sub_three m (x y z : ascii) t :
  tag_matcher m →
  Str.has "<" (String x (String y (String z EmptyString))) = false →
  Re.sub m (String x (String y (String z t)))
  = String x (String y (String z (Re.sub m t))).
Proof.
  intros Hm Hxyz.
  exact (sub_plain_prefix m (String x (String y (String z EmptyString))) t
           Hm Hxyz).
Qed.

(** A pass that matches neither at the opening nor at the closing tag of
    the note leaves the text alone. *)
Lemma sub_note_id m a body c :
  tag_matcher m →
  Str.has "<" a = false → Str.has "<" body = false → Str.has "<" c = false →
  m ("<RF>" +:+ (body +:+ ("<Rf>" +:+ c))) = None →
  m ("<Rf>" +:+ c) = None →
  Re.sub m (a +:+ ("<RF>" +:+ (body +:+ ("<Rf>" +:+ c))))
  = a +:+ ("<RF>" +:+ (body +:+ ("<Rf>" +:+ c))).
Proof.
  intros Hm Ha Hbody Hc Hopen Hclose.
  rewrite sub_plain_prefix by done. f_equal.
  rewrite !str_app_cons, !str_app_nil_l in *.
  rewrite sub_cons, Hopen. f_equal.
  rewrite (sub_three m) by done. do 3 f_equal.
  rewrite sub_plain_prefix by done. f_equal.
  rewrite sub_cons, Hclose. f_equal.
  rewrite (sub_three m) by done. do 3 f_equal.
  by apply sub_plain.
Qed.

Lemma lazy_until_cons ic close x s :
  Re.lazy_until ic close (String x s)
  = match Str.strip_prefix ic close (String x s) with
    | Some _ => Some (EmptyString, String.length close)
    | None =>
        if bool_decide (x = Chr.newline) then None
        else match Re.lazy_until ic close s with
             | Some (inner, n) => Some (String x inner, S n)
             | None => None
             end
    end.
Proof. reflexivity. Qed.

Lemma strip_prefix_lt_none ic p x s :
  x ≠ "<"%char → Str.strip_prefix ic (String "<" p) (String x s) = None.
Proof.
  intros Hx. simpl. destruct (Chr.matches ic "<" x) eqn:E; [|done].
  by apply matches_lt in E.
Qed.

Lemma not_lt_of_has x s : Str.has "<" (String x s) = false → x ≠ "<"%char.
Proof. simpl. intros [Hx _]%orb_false_iff ->. done. Qed.

Lemma lazy_until_plain ic p c :
  Str.has "<" c = false → Re.lazy_until ic (String "<" p) c = None.
Proof.
  induction c as [|x c IH]; [done|]. intros Hc.
  pose proof (not_lt_of_has _ _ Hc) as Hx.
  apply orb_false_iff in Hc as [_ Hc].
  rewrite lazy_until_cons, strip_prefix_lt_none by done.
  rewrite IH by done. by case_bool_decide.
Qed.

Lemma lazy_until_newline ic p body t :
  Str.has "<" body = false → Str.has Chr.newline body = true →
  Re.lazy_until ic (String "<" p) (body +:+ t) = None.
Proof.
  induction body as [|x body IH]; [done|]. intros Hb Hnl.
  pose proof (not_lt_of_has _ _ Hb) as Hx.
  apply orb_false_iff in Hb as [_ Hb].
  rewrite str_app_cons, lazy_until_cons, strip_prefix_lt_none by done.
  case_bool_decide as Hnew; [done|].
  simpl in Hnl. rewrite bool_decide_eq_false_2 in Hnl by done.
  by rewrite IH.
Qed.

Lemma lazy_until_found body c :
  Str.has "<" body = false → Str.has Chr.newline body = false →
  Re.lazy_until true "<Rf>"
    (body +:+ String "<" (String "R" (String "f" (String ">" c))))
  = Some (body, (String.length body + 4)%nat).
Proof.
  induction body as [|x body IH]; [done|]. intros Hb Hnl.
  pose proof (not_lt_of_has _ _ Hb) as Hx.
  apply orb_false_iff in Hb as [_ Hb].
  apply orb_false_iff in Hnl as [Hnew Hnl].
  rewrite str_app_cons, lazy_until_cons, strip_prefix_lt_none by done.
  rewrite Hnew, IH by done. done.
Qed.

Lemma strip_prefix_open t :
  Str.strip_prefix true "<RF>"
    (String "<" (String "R" (String "F" (String ">" t)))) = Some t.
Proof. reflexivity. Qed.

Lemma strip_prefix_close t :
  Str.strip_prefix true "<RF>"
    (String "<" (String "R" (String "f" (String ">" t)))) = Some t.
Proof. reflexivity. Qed.

Lemma str_drop_note body c :
  str_drop (Nat.pred (String.length "<RF>" + (String.length body + 4)))
    (String "R" (String "F" (String ">"
       (body +:+ String "<" (String "R" (String "f" (String ">" c)))))))
  = c.
Proof.
  change (str_drop (String.length body + 4)
            (body +:+ String "<" (String "R" (String "f" (String ">" c))))
          = c).
  induction body as [|x body IH]; [done|]. apply IH.
Qed.

(** The rule for notes on a note without a line break. *)
Lemma sub_note_removed a body c :
  Str.has "<" a = false → Str.has "<" body = false → Str.has "<" c = false →
  Str.has Chr.newline body = false →
  Re.sub (Re.paired true "<RF>" "<Rf>" false)
    (a +:+ ("<RF>" +:+ (body +:+ ("<Rf>" +:+ c))))
  = a +:+ c.
Proof.
  intros Ha Hbody Hc Hnl.
  rewrite sub_plain_prefix by (done || by apply tag_matcher_paired).
  f_equal. rewrite !str_app_cons, !str_app_nil_l, sub_cons.
  unfold Re.paired at 1.
  rewrite strip_prefix_open, lazy_until_found by done.
  rewrite str_app_nil_l, str_drop_note.
  apply sub_plain; [by apply tag_matcher_paired|done].
Qed.

(** The rule for notes on a note with a line break: no match. *)
Lemma sub_note_kept a body c :
  Str.has "<" a = false → Str.has "<" body = false → Str.has "<" c = false →
  Str.has Chr.newline body = true →
  Re.sub (Re.paired true "<RF>" "<Rf>" false)
    (a +:+ ("<RF>" +:+ (body +:+ ("<Rf>" +:+ c))))
  = a +:+ ("<RF>" +:+ (body +:+ ("<Rf>" +:+ c))).
Proof.
  intros Ha Hbody Hc Hnl.
  apply sub_note_id; try done; [by apply tag_matcher_paired|..].
  - rewrite !str_app_cons, !str_app_nil_l. unfold Re.paired.
    by rewrite strip_prefix_open, lazy_until_newline.
  - rewrite !str_app_cons, !str_app_nil_l. unfold Re.paired.
    by rewrite strip_prefix_close, lazy_until_plain.
Qed.

(** The safety net takes the two tags of the note and leaves the rest. *)
Lemma sub_any_tag_note a body c :
  Str.has "<" a = false → Str.has "<" body = false → Str.has "<" c = false →
  Re.sub Re.any_tag (a +:+ ("<RF>" +:+ (body +:+ ("<Rf>" +:+ c))))
  = a +:+ (body +:+ c).
Proof.
  intros Ha Hbody Hc.
  rewrite sub_plain_prefix by (done || apply tag_matcher_any_tag).
  f_equal. rewrite !str_app_cons, !str_app_nil_l, sub_cons.
  change (Re.any_tag (String "<" (String "R" (String "F" (String ">"
            (body +:+ String "<" (String "R" (String "f"
               (String ">" c)))))))))
    with (Some (EmptyString, 4%nat)).
  cbv beta iota. rewrite str_app_nil_l.
  change (str_drop (Nat.pred 4) (String "R" (String "F" (String ">"
            (body +:+ String "<" (String "R" (String "f"
               (String ">" c))))))))
    with (body +:+ String "<" (String "R" (String "f" (String ">" c)))).
  rewrite sub_plain_prefix by (done || apply tag_matcher_any_tag).
  f_equal. rewrite sub_cons.
  change (Re.any_tag (String "<" (String "R" (String "f" (String ">" c)))))
    with (Some (EmptyString, 4%nat)).
  cbv beta iota. rewrite str_app_nil_l.
  change (str_drop (Nat.pred 4) (String "R" (String "f" (String ">" c))))
    with c.
  apply sub_plain; [apply tag_matcher_any_tag|done].
Qed.

End note_facts.

(** X24.  A translators' note [<RF>...<Rf>] between texts without [<].
    When the note has no line break in it, [strip_mysword_tags] removes it
    with its content: the result is that of the text without the note.
    When the note has a line break in it, the rule for notes does not
    match, because [.] does not match a line break; the safety net then
    removes the two tags only, and the content of the note stays in the
    text. *)
Theorem strip_mysword_tags_notes (a body c : string) :
  Str.has "<" a = false → Str.has "<" body = false →
  Str.has "<" c = false →
  let text := a +:+ ("<RF>" +:+ (body +:+ ("<Rf>" +:+ c))) in
  (Str.has Chr.newline body = false →
   strip_mysword_tags text = strip_mysword_tags (a +:+ c))
  ∧ (Str.has Chr.newline body = true →
     strip_mysword_tags text = strip_mysword_tags (a +:+ (body +:+ c))).
Proof.
  intros Ha Hbody Hc text. subst text.
  rewrite !strip_mysword_tags_pipeline.
  assert (∀ s t, Str.has "<" s = false → Str.has "<" t = false →
                 Str.has "<" (s +:+ t) = false) as Hplain
    by (intros s t Hs Ht; by rewrite has_app, Hs, Ht).
  split; intros Hnl.
  - rewrite (strip_pipeline_tagless (a +:+ c))
      by (by apply has_false_tagless, Hplain).
    unfold strip_pipeline. cbv zeta.
    do 4 (rewrite (sub_note_id _ a body c);
          [|first [by apply tag_matcher_literal|by apply tag_matcher_paired]
           |done..]).
    rewrite sub_note_removed by done.
    by repeat (rewrite (sub_plain _ (a +:+ c));
               [|first [ by apply tag_matcher_literal
                       | by apply tag_matcher_paired
                       | apply tag_matcher_numbered
                       | apply tag_matcher_one_digit
                       | apply tag_matcher_any_tag ]
                |by apply Hplain]).
  - rewrite (strip_pipeline_tagless (a +:+ (body +:+ c)))
      by (by apply has_false_tagless, Hplain, Hplain).
    unfold strip_pipeline. cbv zeta.
    do 4 (rewrite (sub_note_id _ a body c);
          [|first [by apply tag_matcher_literal|by apply tag_matcher_paired]
           |done..]).
    rewrite sub_note_kept by done.
    do 10 (rewrite (sub_note_id _ a body c);
           [|first [ by apply tag_matcher_paired
                   | apply tag_matcher_numbered
                   | apply tag_matcher_one_digit ]
            |done..]).
    by rewrite sub_any_tag_note.
Qed.

Lemma strip_mysword_tags_notes_witness :
  strip_mysword_tags
    ("a " +:+ ("<RF>" +:+ (String "n" (String Chr.newline "o")
                            +:+ ("<Rf>" +:+ " b"))))
  = strip_mysword_tags ("a " +:+ (String "n" (String Chr.newline "o") +:+ " b")).
Proof.
  apply (strip_mysword_tags_notes "a " (String "n" (String Chr.newline "o"))
           " b"); reflexivity.
Defined.
